(** * Wallet / Web3 EVM provider: a shallow embedding and its properties

    The development follows the TypeScript sources

      - [lib/chain/providers/web3EvmProvider.ts]  (class [Web3EvmProvider])
      - [lib/chain/wallet.ts]                     (class [Wallet])

    JavaScript strings are modelled by [string]: a sequence of code units
    below 256 (the Latin-1 range), which covers every hexadecimal signature
    and address the code handles.  JavaScript numbers that the code computes
    with are integers here ([Z]); [NaN] is [None].  Exceptions are explicit:
    a computation ends in [Normal a] or in [Throws e]. *)

From Stdlib Require Import ZArith Lia Bool List String Ascii Permutation.
Import ListNotations.

Local Open Scope string_scope.
Local Open Scope Z_scope.

(* ================================================================== *)
(** ** JavaScript values, errors and completions *)
(* ================================================================== *)

(** The values an error's [code] property is compared against with [===]. *)
Inductive JsVal : Type :=
  | JUndefined
  | JNum (n : Z)
  | JStr (s : string).

(** A thrown value: an [Error] object with its message and, for provider
    errors, its [code]. *)
Record JsError : Type := mkError {
  message : string;
  code : JsVal
}.

(** [new Error(msg)] / [Error(msg)]: no [code] property. *)
Definition Error (msg : string) : JsError := mkError msg JUndefined.

Inductive completion (A : Type) : Type :=
  | Normal (a : A)
  | Throws (e : JsError).
Arguments Normal {A} a.
Arguments Throws {A} e.

(* ================================================================== *)
(** ** The string primitives the provider uses *)
(* ================================================================== *)

Module JsString.

(** [s.length] *)
Definition len (s : string) : Z := Z.of_nat (String.length s).

(** [s.substr(start, length)]; [length] omitted is [None].
    A negative [start] counts from the end, both are clamped to the string. *)
Definition substr (s : string) (start : Z) (length : option Z) : string :=
  let size := len s in
  let intStart := if start <? 0 then Z.max (size + start) 0 else Z.min start size in
  let intLength := match length with
                   | None => size
                   | Some l => Z.min (Z.max l 0) size
                   end in
  let intEnd := Z.min (intStart + intLength) size in
  substring (Z.to_nat intStart) (Z.to_nat (intEnd - intStart)) s.

(** White space and line terminators (the ones below 256) that [parseInt]
    skips: TAB, LF, VT, FF, CR, SP, NBSP. *)
Definition isWhiteSpace (c : ascii) : bool :=
  let n := nat_of_ascii c in
  existsb (Nat.eqb n) [9; 10; 11; 12; 13; 32; 160]%nat.

Fixpoint trimStart (s : string) : string :=
  match s with
  | String c s' => if isWhiteSpace c then trimStart s' else s
  | EmptyString => EmptyString
  end.

(** Value of a digit in radixes up to 36: [0-9], [a-z], [A-Z]. *)
Definition digitValue (c : ascii) : option Z :=
  let n := Z.of_nat (nat_of_ascii c) in
  if (48 <=? n) && (n <=? 57) then Some (n - 48)
  else if (97 <=? n) && (n <=? 122) then Some (n - 87)
  else if (65 <=? n) && (n <=? 90) then Some (n - 55)
  else None.

(** The longest prefix of radix-[R] digits, read as a number; [acc] is
    [None] until a first digit was seen. *)
Fixpoint digitsPrefix (R : Z) (s : string) (acc : option Z) : option Z :=
  match s with
  | String c s' =>
      match digitValue c with
      | Some d =>
          if d <? R
          then digitsPrefix R s' (Some (R * match acc with Some a => a | None => 0 end + d))
          else acc
      | None => acc
      end
  | EmptyString => acc
  end.

(** [parseInt(s, R)] for an explicit radix [R]; [None] is [NaN].
    [-0] and [+0] are both [Some 0]: the code only compares the result
    with [<] and adds to it, which do not tell them apart. *)
Definition parseInt (s : string) (R : Z) : option Z :=
  let inputString := trimStart s in
  let '(sign, rest) := match inputString with
                       | String "-" r => (-1, r)
                       | String "+" r => (1, r)
                       | _ => (1, inputString)
                       end in
  if (R <? 2) || (36 <? R) then None
  else
    let rest := if R =? 16
                then match rest with
                     | String "0" (String "x" r) => r
                     | String "0" (String "X" r) => r
                     | _ => rest
                     end
                else rest in
    option_map (Z.mul sign) (digitsPrefix R rest None).

Definition hexDigit (d : Z) : ascii :=
  if d <? 10 then ascii_of_nat (Z.to_nat (48 + d))
  else ascii_of_nat (Z.to_nat (87 + d)).

Fixpoint hexDigits (fuel : nat) (n : Z) (acc : string) : string :=
  match fuel with
  | O => acc
  | S fuel' =>
      let acc' := String (hexDigit (n mod 16)) acc in
      if n / 16 =? 0 then acc' else hexDigits fuel' (n / 16) acc'
  end.

(** [n.toString(16)] for a number [n]; [NaN] prints as ["NaN"]. *)
Definition toString16 (n : option Z) : string :=
  match n with
  | None => "NaN"
  | Some z =>
      if z <? 0
      then String "-" (hexDigits (S (Z.to_nat (Z.log2 (- z)))) (- z) "")
      else hexDigits (S (Z.to_nat (Z.log2 z))) z ""
  end.

(** [c.toLowerCase()] on one code unit below 256: [A-Z] and the accented
    capitals U+00C0..U+00DE (without the multiplication sign U+00D7). *)
Definition toLowerCaseChar (c : ascii) : ascii :=
  let n := nat_of_ascii c in
  if ((65 <=? n) && (n <=? 90) ||
      (192 <=? n) && (n <=? 222) && negb (n =? 215))%nat
  then ascii_of_nat (n + 32)
  else c.

Fixpoint toLowerCase (s : string) : string :=
  match s with
  | String c s' => String (toLowerCaseChar c) (toLowerCase s')
  | EmptyString => EmptyString
  end.

End JsString.

(* ================================================================== *)
(** ** Signature reordering ([Web3EvmProvider._reorderSignatureRsvToVrs]) *)
(* ================================================================== *)

Definition MALFORMED_SIGNATURE_LENGTH : string :=
  "Expect signature to be a hex thing with a total length of 132 characters (including the '0x' prefix)".

Definition _reorderSignatureRsvToVrs (signature : string) : completion string :=
  if negb (JsString.len signature =? 132) then
    Throws (Error MALFORMED_SIGNATURE_LENGTH)
  else
    let v := JsString.parseInt (JsString.substr signature (-2) None) 16 in
    let v := match v with
             | Some n => if n <? 27 then Some (n + 27) else Some n
             | None => None
             end in
    let vrs_r := JsString.substr signature 2 (Some 64) in
    let vrs_s := JsString.substr signature 66 (Some 64) in
    let vrs_v := JsString.toString16 v in
    Normal ("0x" ++ vrs_v ++ vrs_r ++ vrs_s).


(* ================================================================== *)
(** ** The EVM provider ([Web3EvmProvider]) *)
(* ================================================================== *)

Definition Address := string.
Definition ChainIdentifier := string.
Definition TransactionId := string.

(** [AccountKey]: the [{address, chain}] pair a provider reports. *)
Record AccountKey : Type := mkAccountKey {
  key_address : Address;
  key_chain : ChainIdentifier
}.

(** Truthiness of a string: the empty string is falsy. *)
Definition truthy (s : string) : bool := negb (String.eqb s "").

Module Web3EvmProvider.

(** The RPC methods of the provider ([type Method]). *)
Inductive Method : Type :=
  | eth_requestAccounts
  | personal_sign
  | eth_signTypedData
  | eth_signTypedData_v1
  | eth_signTypedData_v3
  | eth_signTypedData_v4
  | wallet_addEthereumChain
  | wallet_switchEthereumChain.

(** The [nativeCurrency] entry of the chain metadata; it is handed to the
    backend unchanged. *)
Record NativeCurrency : Type := mkNativeCurrency {
  currency_name : string;
  currency_symbol : string;
  currency_decimals : Z
}.

(** The elements of a request's [params] array. *)
Inductive Param : Type :=
  | PString (s : string)
  | PSwitchChain (chainId : string)
      (* { chainId } *)
  | PAddChain (chainId : string) (rpcUrls : list string) (chainName : string)
              (nativeCurrency : NativeCurrency) (blockExplorerUrls : list string).
      (* { chainId, rpcUrls, chainName, nativeCurrency, blockExplorerUrls } *)

(** The object handed to [web3.eth.sendTransaction] / [web3.eth.call]. *)
Record TxObject : Type := mkTxObject {
  tx_from : Address;
  tx_to : option Address;
  tx_value : option Z;
  tx_data : option string
}.

(** [Transaction] with a non-null [source]. *)
Record Transaction : Type := mkTransaction {
  source : Address;
  destination : option Address;
  value : option Z;
  data : option string
}.

(** [ClientSignatureStandard], an enum generated from the GraphQL schema. *)
Inductive ClientSignatureStandard : Type :=
  | PERSONAL
  | TYPED_DATA_V1
  | TYPED_DATA_V3
  | TYPED_DATA_V4
  | future_added_value.

Record SignOptions : Type := mkSignOptions {
  clientSignatureStandard : ClientSignatureStandard
}.

(** What the provider asks of its backend, in the order it asks. *)
Inductive Event : Type :=
  | EvRequest (method : Method) (params : list Param)
  | EvGetAccounts
  | EvGetNetwork
  | EvSendTransaction (tx : TxObject)
  | EvCall (tx : TxObject).

Definition Log := list Event.

(** The provider instance ([this]): the [web3] handle it drives and the
    globals it reads.  Each backend answer may depend on what was asked
    before.  [sendAsync] is the transport of [JSONRPC.request]: it answers
    with the result or with the error object of the backend, whose [code]
    the chain-switch protocol inspects.
    [Number_ raw] is [Number(raw)] when that is an integer and [None]
    otherwise (such a number is no key of the network table). *)
Record Provider : Type := mkProvider {
  sendAsync : Log -> Method -> list Param -> completion string;
  eth_getAccounts : Log -> completion (list Address);
  version_getNetwork : Log -> completion string;
  eth_sendTransaction : Log -> TxObject -> completion TransactionId;
  eth_call : Log -> TxObject -> completion TransactionId;
  toHex : Z -> string;
  window_ethereum_chainId : completion (option string);
  Number_ : string -> option Z;
  CHAIN_IDENTIFIER_BY_NETWORK_ID : Z -> option ChainIdentifier
}.

(** *** Asynchronous provider code: a log of backend interactions and
    exceptions *)

Definition M (A : Type) : Type := Log -> completion A * Log.

Definition ret {A} (a : A) : M A := fun log => (Normal a, log).

Definition throw {A} (e : JsError) : M A := fun log => (Throws e, log).

Definition bind {A B} (m : M A) (k : A -> M B) : M B :=
  fun log =>
    match m log with
    | (Normal a, log') => k a log'
    | (Throws e, log') => (Throws e, log')
    end.

(** [try { m } catch (e) { handler e }] *)
Definition try_catch {A} (m : M A) (handler : JsError -> M A) : M A :=
  fun log =>
    match m log with
    | (Normal a, log') => (Normal a, log')
    | (Throws e, log') => handler e log'
    end.

(** Lift a synchronous computation that may throw. *)
Definition lift {A} (c : completion A) : M A := fun log => (c, log).

(** Ask the backend: the question is recorded, the answer is the
    backend's. *)
Definition ask {A} (ev : Event) (answer : Log -> completion A) : M A :=
  fun log => (answer log, (log ++ [ev])%list).

Declare Scope provider_scope.
Delimit Scope provider_scope with provider.
Notation "x <- m ;; k" := (bind m (fun x => k))
  (at level 61, m at next level, right associativity) : provider_scope.
Notation "m ;;; k" := (bind m (fun _ => k))
  (at level 61, right associativity) : provider_scope.
Local Open Scope provider_scope.

Section Methods.

Variable this : Provider.

(** [this.request(method, params)] *)
Definition request (method : Method) (params : list Param) : M string :=
  ask (EvRequest method params) (fun log => sendAsync this log method params).

Definition connect : M unit :=
  try_catch (request eth_requestAccounts [] ;;; ret tt)
            (fun _ => (* console.info *) ret tt).

Definition getChain : M (option ChainIdentifier) :=
  try_catch
    (windowEthereumChainId <- lift (window_ethereum_chainId this) ;;
     networkId <- ask EvGetNetwork (version_getNetwork this) ;;
     ret (match Number_ this (match windowEthereumChainId with
                              | Some c => c
                              | None => networkId
                              end) with
          | Some n => CHAIN_IDENTIFIER_BY_NETWORK_ID this n
          | None => None
          end))
    (fun error => (* console.error *) ret None).

Definition mapToAccounts (addresses : list Address) : M (list AccountKey) :=
  chain <- getChain ;;
  ret (match chain with
       | Some chain =>
           if truthy chain
           then map (fun a => mkAccountKey (JsString.toLowerCase a) chain) addresses
           else []
       | None => []
       end).

Definition getAccounts : M (list AccountKey) :=
  addresses <- ask EvGetAccounts (eth_getAccounts this) ;;
  mapToAccounts addresses.

Definition NOT_CONNECTED (source : Address) : JsError :=
  Error ("Not connected to account " ++ source).

Definition transact (t : Transaction) : M TransactionId :=
  accounts <- getAccounts ;;
  if negb (existsb (fun a => String.eqb (key_address a) (source t)) accounts)
  then throw (NOT_CONNECTED (source t))
  else
    let tx := mkTxObject (source t) (destination t) (value t) (data t) in
    ask (EvSendTransaction tx) (fun log => eth_sendTransaction this log tx).

Definition call (t : Transaction) : M TransactionId :=
  accounts <- getAccounts ;;
  if negb (existsb (fun a => String.eqb (key_address a) (source t)) accounts)
  then throw (NOT_CONNECTED (source t))
  else
    let tx := mkTxObject (source t) (destination t) None (data t) in
    ask (EvCall tx) (fun log => eth_call this log tx).

Definition typedStandards : list ClientSignatureStandard :=
  [TYPED_DATA_V1; TYPED_DATA_V3; TYPED_DATA_V4].

Definition standard_eqb (a b : ClientSignatureStandard) : bool :=
  match a, b with
  | PERSONAL, PERSONAL
  | TYPED_DATA_V1, TYPED_DATA_V1
  | TYPED_DATA_V3, TYPED_DATA_V3
  | TYPED_DATA_V4, TYPED_DATA_V4
  | future_added_value, future_added_value => true
  | _, _ => false
  end.

Definition signatureToMethod (s : ClientSignatureStandard) : Method :=
  match s with
  | PERSONAL => personal_sign
  | TYPED_DATA_V1 => eth_signTypedData
  | TYPED_DATA_V3 => eth_signTypedData_v3
  | TYPED_DATA_V4 => eth_signTypedData_v4
  | future_added_value => personal_sign
  end.

Definition UNSUPPORTED_STANDARD : JsError :=
  Error "Unsupported client signature standard for signing typed data.".

Definition signTypedData (message address : string)
                         (options : option SignOptions) : M string :=
  let clientSignatureStandard :=
    match options with
    | Some o => clientSignatureStandard o
    | None => TYPED_DATA_V4
    end in
  if negb (existsb (standard_eqb clientSignatureStandard) typedStandards)
  then throw UNSUPPORTED_STANDARD
  else
    signature <- request (signatureToMethod clientSignatureStandard)
                         [PString address; PString message] ;;
    lift (_reorderSignatureRsvToVrs signature).

(** *** Chain switch *)

Definition USER_REJECTED_REQUEST_ERROR_CODE : Z := 4001.
Definition UNADDED_CHAIN_ERROR_CODE : Z := 4902.

(** The result of [readChainData(chainData)]. *)
Record ChainData : Type := mkChainData {
  blockExplorerUrl : string;
  displayName : string;
  publicRpcUrl : string;
  networkId : option Z;
  nativeCurrency : NativeCurrency
}.

(** [switch (c) { case k: ... }] compares with [===]. *)
Definition code_is (c : JsVal) (k : Z) : bool :=
  match c with
  | JNum n => n =? k
  | _ => false
  end.

Definition switchChain (chainData : ChainData) : M unit :=
  match networkId chainData with
  | None | Some 0 => throw (Error "Chain network ID was not found")
  | Some networkId =>
      let chainId := toHex this networkId in
      try_catch
        (request wallet_switchEthereumChain [PSwitchChain chainId] ;;; ret tt)
        (fun switchError =>
           if code_is (code switchError) UNADDED_CHAIN_ERROR_CODE then
             try_catch
               (request wallet_addEthereumChain
                  [PAddChain chainId [publicRpcUrl chainData]
                             (displayName chainData)
                             (nativeCurrency chainData)
                             [blockExplorerUrl chainData]] ;;; ret tt)
               (fun error => throw (Error "There was a problem adding the network"))
           else if code_is (code switchError) USER_REJECTED_REQUEST_ERROR_CODE then
             ret tt
           else
             throw (Error "There was a problem switching the network"))
  end.

End Methods.

End Web3EvmProvider.

(* ================================================================== *)
(** ** The wallet ([Wallet]) *)
(* ================================================================== *)

Module Json.

Definition dquote : ascii := ascii_of_nat 34.
Definition backslash : ascii := ascii_of_nat 92.

(** One code unit inside a JSON string literal. *)
Definition escape (c : ascii) : string :=
  let n := nat_of_ascii c in
  if (n =? 34)%nat then String backslash (String dquote "")
  else if (n =? 92)%nat then String backslash (String backslash "")
  else if (n =? 8)%nat then String backslash "b"
  else if (n =? 9)%nat then String backslash "t"
  else if (n =? 10)%nat then String backslash "n"
  else if (n =? 12)%nat then String backslash "f"
  else if (n =? 13)%nat then String backslash "r"
  else if (n <? 32)%nat then
    String backslash
      ("u00" ++ String (JsString.hexDigit (Z.of_nat (n / 16)))
                  (String (JsString.hexDigit (Z.of_nat (n mod 16))) ""))
  else String c "".

Fixpoint escapes (s : string) : string :=
  match s with
  | String c s' => escape c ++ escapes s'
  | EmptyString => EmptyString
  end.

(** [JSON.stringify(s)] for a string [s]. *)
Definition quote (s : string) : string :=
  String dquote (escapes s ++ String dquote "").

(** [JSON.stringify({ address })] *)
Definition stringify_address (address : string) : string :=
  "{" ++ quote "address" ++ ":" ++ quote address ++ "}".

End Json.

Module Wallet.

Definition WALLET_NAME := string.
Definition AccountKeyHash := string.

(** The [user] of an account, as the account query selects it. *)
Record User : Type := mkUser {
  user_relayId : string;
  username : option string;
  publicUsername : option string;
  hasAffirmativelyAcceptedOpenseaTerms : option bool;
  email : option string
}.

(** The fields of an [Account] ([walletQueryResponse["account"]]). *)
Record AccountData : Type := mkAccountData {
  address : Address;
  imageUrl : string;
  nickname : option string;
  relayId : string;
  isCompromised : bool;
  isStaff : bool;
  user : option User
}.

(** An [Account] object in memory: its fields and the identity [ref] of
    the object, which is what [===] compares. *)
Record Account : Type := mkAccount {
  ref : nat;
  fields : AccountData
}.

(** [a === b] on account objects. *)
Definition same_object (a b : Account) : bool := (ref a =? ref b)%nat.

(** [WalletData]: the persisted blob. Serialising an account keeps its
    fields and loses its identity. *)
Record WalletData : Type := mkWalletData {
  data_accounts : list AccountData;
  data_activeAccount : option AccountData;
  data_installedProviderNames : list WALLET_NAME
}.

Inductive CookieOp : Type :=
  | CookieSet (data : WalletData)
  | CookieRemove.

(** [Wallet.toHash] *)
Definition toHash (address : Address) : AccountKeyHash :=
  Json.stringify_address (JsString.toLowerCase address).

(** Modelled from the spec: [OrderedSet] of [lib/helpers/array], the
    AccountRegistry of section 4.1: an ordered mapping from a key to an
    element, [add] replaces in place when the key exists and appends
    otherwise, [delete] removes by key and does nothing when the key is
    absent, [find] retrieves by key, [clear] empties, [elements] is the
    ordered sequence. The set is represented by its [elements]. *)
Module OrderedSet.
Section WithKey.
Context {T : Type} (getKey : T -> string).

Definition find (key : string) (elements : list T) : option T :=
  List.find (fun x => String.eqb (getKey x) key) elements.

Fixpoint add (element : T) (elements : list T) : list T :=
  match elements with
  | [] => [element]
  | x :: rest =>
      if String.eqb (getKey x) (getKey element)
      then element :: rest
      else x :: add element rest
  end.

Definition delete (key : string) (elements : list T) : list T :=
  filter (fun x => negb (String.eqb (getKey x) key)) elements.

Definition clear (elements : list T) : list T := [].

Definition size (elements : list T) : Z := Z.of_nat (List.length elements).

(** [new OrderedSet(getKey, elements)] *)
Definition make (elements : list T) : list T :=
  fold_left (fun set x => add x set) elements [].

End WithKey.
End OrderedSet.

(** A JavaScript [Set] of names: insertion order, no duplicates. *)
Module NameSet.

Definition has (name : WALLET_NAME) (set : list WALLET_NAME) : bool :=
  existsb (String.eqb name) set.

Definition add (name : WALLET_NAME) (set : list WALLET_NAME) : list WALLET_NAME :=
  if has name set then set else (set ++ [name])%list.

Definition delete (name : WALLET_NAME) (set : list WALLET_NAME) : list WALLET_NAME :=
  filter (fun x => negb (String.eqb x name)) set.

(** [new Set(names)] *)
Definition make (names : list WALLET_NAME) : list WALLET_NAME :=
  fold_left (fun set x => add x set) names [].

End NameSet.

(** What a provider instance does when the wallet installs it. *)
Record ProviderInstance : Type := mkProviderInstance {
  provider_connect : completion unit;
  provider_getAccounts : completion (list AccountKey)
}.

(** The surroundings of the wallet: the constants of the network mode,
    the remote account source and the provider factories.
    [remote_account q address] is the outcome of the [q]-th account query
    the wallet issues ([Wallet.getAccount(address)]): the account, no
    account, or a failure. *)
Record Env : Type := mkEnv {
  IS_TESTNET : bool;
  TESTNET_CHAIN_IDENTIFIERS : list ChainIdentifier;
  MAINNET_CHAIN_IDENTIFIERS : list ChainIdentifier;
  MAINNET_TO_TESTNET_CHAIN_IDENTIFIERS : ChainIdentifier -> option ChainIdentifier;
  TESTNET_TO_MAINNET_CHAIN_IDENTIFIERS : ChainIdentifier -> option ChainIdentifier;
  CHAIN_IDENTIFIERS_TO_NAMES : ChainIdentifier -> string;
  remote_account : nat -> Address -> completion (option AccountData);
  provider_factory : WALLET_NAME -> option ProviderInstance
}.

(** The wallet instance with what it acts on.
    - [_accounts], [activeAccount], [installedProviderNames]: the fields
      of the instance;
    - [cookie]: the persisted record, [cookie_log]: the writes and
      removals made so far;
    - [providers]: the names for which [chain] holds a provider instance;
    - [next_ref]: the number of account objects created so far;
    - [queries]: the number of account queries issued so far;
    - [published]: the number of change notifications sent. *)
Record State : Type := mkState {
  _accounts : list Account;
  activeAccount : option Account;
  installedProviderNames : list WALLET_NAME;
  cookie : option WalletData;
  cookie_log : list CookieOp;
  providers : list WALLET_NAME;
  next_ref : nat;
  queries : nat;
  published : nat
}.

Definition set_accounts (v : list Account) (s : State) : State :=
  mkState v (activeAccount s) (installedProviderNames s) (cookie s)
          (cookie_log s) (providers s) (next_ref s) (queries s) (published s).

Definition set_activeAccount (v : option Account) (s : State) : State :=
  mkState (_accounts s) v (installedProviderNames s) (cookie s)
          (cookie_log s) (providers s) (next_ref s) (queries s) (published s).

Definition set_installedProviderNames (v : list WALLET_NAME) (s : State) : State :=
  mkState (_accounts s) (activeAccount s) v (cookie s)
          (cookie_log s) (providers s) (next_ref s) (queries s) (published s).

Definition set_providers (v : list WALLET_NAME) (s : State) : State :=
  mkState (_accounts s) (activeAccount s) (installedProviderNames s) (cookie s)
          (cookie_log s) v (next_ref s) (queries s) (published s).

Definition set_next_ref (v : nat) (s : State) : State :=
  mkState (_accounts s) (activeAccount s) (installedProviderNames s) (cookie s)
          (cookie_log s) (providers s) v (queries s) (published s).

Definition set_queries (v : nat) (s : State) : State :=
  mkState (_accounts s) (activeAccount s) (installedProviderNames s) (cookie s)
          (cookie_log s) (providers s) (next_ref s) v (published s).

Definition set_published (v : nat) (s : State) : State :=
  mkState (_accounts s) (activeAccount s) (installedProviderNames s) (cookie s)
          (cookie_log s) (providers s) (next_ref s) (queries s) v.

(** Modelled from the spec: [Cookie] of [lib/cookie], the persistence of
    section 6: one keyed blob holding the wallet data as JSON; [set]
    writes it, [remove] deletes the key, [get] reads it back. *)
Definition cookie_set (data : WalletData) (s : State) : State :=
  mkState (_accounts s) (activeAccount s) (installedProviderNames s) (Some data)
          (cookie_log s ++ [CookieSet data]) (providers s) (next_ref s)
          (queries s) (published s).

Definition cookie_remove (s : State) : State :=
  mkState (_accounts s) (activeAccount s) (installedProviderNames s) None
          (cookie_log s ++ [CookieRemove]) (providers s) (next_ref s)
          (queries s) (published s).

(** Reading the blob back creates one new object per account in it, the
    active account included. *)
Fixpoint parse_accounts (accounts : list AccountData) (next : nat) : list Account :=
  match accounts with
  | [] => []
  | d :: rest => mkAccount next d :: parse_accounts rest (S next)
  end.

(** The registry [_accounts = new OrderedSet(a => Wallet.toHash(a.address))]. *)
Definition getKey (a : Account) : AccountKeyHash := toHash (address (fields a)).

(** What [save] writes: [{accounts, activeAccount, installedProviderNames}]. *)
Definition blob (s : State) : WalletData :=
  mkWalletData (map fields (_accounts s))
               (option_map fields (activeAccount s))
               (installedProviderNames s).

Definition is_set {A} (o : option A) : bool :=
  match o with Some _ => true | None => false end.

(** [save]: write the blob when there is something in it, remove the
    record otherwise; then notify ([Auth.getValidSession] has no effect on
    the wallet). *)
Definition save (s : State) : State :=
  let s :=
    if is_set (activeAccount s)
       || (0 <? OrderedSet.size (_accounts s))
       || (0 <? Z.of_nat (List.length (installedProviderNames s)))
    then cookie_set (blob s) s
    else cookie_remove s in
  set_published (S (published s)) s.

(** The persisted record that corresponds to the fields of the wallet:
    none when all three are empty. *)
Definition persisted_form (s : State) : option WalletData :=
  match activeAccount s, _accounts s, installedProviderNames s with
  | None, [], [] => None
  | _, _, _ => Some (blob s)
  end.

(** The invariant of the active account: when set, its key is in the
    registry. *)
Definition active_registered (s : State) : bool :=
  match activeAccount s with
  | Some a => is_set (OrderedSet.find getKey (getKey a) (_accounts s))
  | None => true
  end.

(** The stronger form: the active account is the very object the registry
    holds under its key. *)
Definition active_is_entry (s : State) : bool :=
  match activeAccount s with
  | Some a =>
      match OrderedSet.find getKey (getKey a) (_accounts s) with
      | Some entry => same_object a entry
      | None => false
      end
  | None => true
  end.

(** [load] *)
Definition load (s : State) : State :=
  match cookie s with
  | None =>
      set_installedProviderNames (NameSet.make [])
        (set_activeAccount None (set_accounts (OrderedSet.make getKey []) s))
  | Some data =>
      let accounts := parse_accounts (data_accounts data) (next_ref s) in
      let next := (next_ref s + List.length accounts)%nat in
      let active := option_map (mkAccount next) (data_activeAccount data) in
      let next := if is_set active then S next else next in
      set_next_ref next
        (set_installedProviderNames (NameSet.make (data_installedProviderNames data))
           (set_activeAccount active
              (set_accounts (OrderedSet.make getKey accounts) s)))
  end.

(** [new Wallet(context)] over a persisted record. *)
Definition new_Wallet (persisted : option WalletData) : State :=
  load (mkState [] None [] persisted [] [] 0 0 0).

(** [find] *)
Definition find (key_address : Address) (s : State) : option Account :=
  OrderedSet.find getKey (toHash key_address) (_accounts s).

(** [delete] *)
Definition delete (key : AccountKey) (s : State) : State :=
  match find (key_address key) s with
  | Some account =>
      let s := set_accounts
                 (OrderedSet.delete getKey (toHash (key_address key)) (_accounts s)) s in
      let s := match activeAccount s with
               | Some active =>
                   if same_object active account
                   then set_activeAccount None s
                   else s
               | None => s
               end in
      save s
  | None => s
  end.

(** [clear] *)
Definition clear (s : State) : State :=
  let s := set_activeAccount None s in
  let s := set_accounts (OrderedSet.clear (_accounts s)) s in
  let s := set_installedProviderNames [] s in
  save s.

(** *** Asynchronous wallet code *)

Definition W (A : Type) : Type := State -> completion A * State.

Definition ret {A} (a : A) : W A := fun s => (Normal a, s).

Definition throw {A} (e : JsError) : W A := fun s => (Throws e, s).

Definition bind {A B} (m : W A) (k : A -> W B) : W B :=
  fun s =>
    match m s with
    | (Normal a, s') => k a s'
    | (Throws e, s') => (Throws e, s')
    end.

Definition lift {A} (c : completion A) : W A := fun s => (c, s).

(** A synchronous update of the wallet. *)
Definition update (f : State -> State) : W unit := fun s => (Normal tt, f s).

Declare Scope wallet_scope.
Delimit Scope wallet_scope with wallet.
Notation "x <- m ;; k" := (bind m (fun x => k))
  (at level 61, m at next level, right associativity) : wallet_scope.
Notation "m ;;; k" := (bind m (fun _ => k))
  (at level 61, right associativity) : wallet_scope.
Local Open Scope wallet_scope.

Fixpoint mapM {A B} (f : A -> W B) (l : list A) : W (list B) :=
  match l with
  | [] => ret []
  | x :: rest => y <- f x ;; ys <- mapM f rest ;; ret (y :: ys)
  end.

(** *** Calls that wait side by side *)

(** What is waiting to run while an asynchronous call is under way:
    an [add] that waits for the answer to its account query; the [select]
    of [install], waiting for the answer to the query of its [add]; that
    [select] once its [add] has returned an account, about to make it the
    active one; a callback of [refresh] that waits for its answer. *)
Inductive Pending : Type :=
  | PendingAdd (query : nat) (address : Address)
  | PendingSelect (query : nat) (address : Address)
  | PendingActivate (account : Account)
  | PendingRefresh (query : nat) (address : Address).

(** [Promise.all] waits for the [add]s or the callbacks it was given;
    nothing waits for the [select] that [install] calls. *)
Definition joined (p : Pending) : bool :=
  match p with
  | PendingAdd _ _ | PendingRefresh _ _ => true
  | PendingSelect _ _ | PendingActivate _ => false
  end.

(** The element at a position of a list, and the list without it. *)
Fixpoint extract {A} (position : nat) (l : list A) {struct l}
  : option (A * list A) :=
  match l with
  | [] => None
  | x :: rest =>
      match position with
      | O => Some (x, rest)
      | S position' =>
          match extract position' rest with
          | Some (y, rest') => Some (y, x :: rest')
          | None => None
          end
      end
  end.

(** An asynchronous call on the wallet, seen when its caller goes on:
    how its promise settled, the wallet at that moment, and what it
    started that is still waiting to run. *)
Record Settled (A : Type) : Type := mkSettled {
  settlement : completion A;
  wallet : State;
  unanswered : list Pending
}.
Arguments mkSettled {A} settlement wallet unanswered.
Arguments settlement {A} s.
Arguments wallet {A} s.
Arguments unanswered {A} s.

Definition Async (A : Type) : Type := State -> Settled A.

Definition resolved {A} (a : A) : Async A := fun s => mkSettled (Normal a) s [].

Definition rejected {A} (e : JsError) : Async A := fun s => mkSettled (Throws e) s [].

(** [await m], then [k]: [m] leaves nothing waiting. *)
Definition after {A B} (m : W A) (k : A -> Async B) : Async B :=
  fun s =>
    match m s with
    | (Normal a, s') => k a s'
    | (Throws e, s') => mkSettled (Throws e) s' []
    end.

(** What follows [m] without waiting again. *)
Definition and_then {A B} (m : Async A) (k : A -> W B) : Async B :=
  fun s =>
    match m s with
    | mkSettled (Normal a) s' pending =>
        let '(b, s'') := k a s' in mkSettled b s'' pending
    | mkSettled (Throws e) s' pending => mkSettled (Throws e) s' pending
    end.

(** [try { await m } catch (e) { handler e }] with a handler that does
    not wait. *)
Definition or_catch {A} (m : Async A) (handler : JsError -> W A) : Async A :=
  fun s =>
    match m s with
    | mkSettled (Normal a) s' pending => mkSettled (Normal a) s' pending
    | mkSettled (Throws e) s' pending =>
        let '(a, s'') := handler e s' in mkSettled a s'' pending
    end.

Section Methods.

Variable env : Env.

(** [IS_TESTNET === TESTNET_CHAIN_IDENTIFIERS.includes(chain)] *)
Definition in_network (chain : ChainIdentifier) : bool :=
  Bool.eqb (IS_TESTNET env)
           (existsb (String.eqb chain) (TESTNET_CHAIN_IDENTIFIERS env)).

(** [add] runs up to its first suspension when it is called: it either
    returns at once (the chain is of the other network mode, or the account
    is already registered) or issues an account query and waits for it. *)
Inductive AddTask : Type :=
  | Returned (account : option Account)
  | Awaiting (query : nat) (address : Address).

Definition add_start (key : AccountKey) : W AddTask :=
  fun s =>
    if negb (in_network (key_chain key)) then
      (* console.info *) (Normal (Returned None), s)
    else
      match find (key_address key) s with
      | Some account => (Normal (Returned (Some account)), s)
      | None =>
          (Normal (Awaiting (queries s) (key_address key)),
           set_queries (S (queries s)) s)
      end.

(** The rest of [add], once the query has answered; the account of the
    answer is a new object. *)
Definition add_resume (answer : completion (option AccountData)) : W (option Account) :=
  newAccount <- lift answer ;;
  match newAccount with
  | Some data =>
      fun s =>
        let newAccount := mkAccount (next_ref s) data in
        let s := set_next_ref (S (next_ref s)) s in
        let s := set_accounts (OrderedSet.add getKey newAccount (_accounts s)) s in
        let s := if is_set (activeAccount s) then s
                 else set_activeAccount (Some newAccount) s in
        (Normal (Some newAccount), save s)
  | None => ret None
  end.

Definition add_finish (task : AddTask) : W (option Account) :=
  match task with
  | Returned account => ret account
  | Awaiting query address => add_resume (remote_account env query address)
  end.

(** [await this.add(key)] *)
Definition add (key : AccountKey) : W (option Account) :=
  task <- add_start key ;; add_finish task.

(** The rest of [select], once its [add] has settled. *)
Definition select_finish (task : AddTask) : W (option Account) :=
  account <- add_finish task ;;
  match account with
  | Some a =>
      update (fun s => save (set_activeAccount (Some a) s)) ;;; ret (Some a)
  | None => ret None
  end.

(** [await this.select(key)] *)
Definition select (key : AccountKey) : W (option Account) :=
  task <- add_start key ;; select_finish task.

(** Modelled from the spec: [chain.addProvider] and
    [chain.deleteProvider] of [lib/chain/chain], the provider factories
    of section 6: given a name they produce a provider instance or
    nothing; the instance is held until it is released. *)
Definition addProvider (walletName : WALLET_NAME) : W (option ProviderInstance) :=
  fun s =>
    match provider_factory env walletName with
    | Some provider =>
        (Normal (Some provider),
         set_providers (NameSet.add walletName (providers s)) s)
    | None => (Normal None, s)
    end.

Definition deleteProvider (walletName : WALLET_NAME) (s : State) : State :=
  set_providers (NameSet.delete walletName (providers s)) s.

(** The guidance error of [install]: some accounts are of the other
    network mode and the connected chain has a counterpart. *)
Definition wrong_network (accounts accountsInNetwork : list AccountKey)
  : option JsError :=
  match accounts with
  | first :: _ =>
      let connectedChain := key_chain first in
      if negb (List.length accounts =? List.length accountsInNetwork)%nat
         && truthy connectedChain
      then
        let isMainnet :=
          existsb (String.eqb connectedChain) (MAINNET_CHAIN_IDENTIFIERS env) in
        let appropriateChain :=
          if isMainnet
          then MAINNET_TO_TESTNET_CHAIN_IDENTIFIERS env connectedChain
          else TESTNET_TO_MAINNET_CHAIN_IDENTIFIERS env connectedChain in
        match appropriateChain with
        | Some appropriateChain =>
            if truthy appropriateChain
            then Some (Error ("Please connect to the "
                              ++ CHAIN_IDENTIFIERS_TO_NAMES env appropriateChain
                              ++ " network."))
            else None
        | None => None
        end
      else None
  | [] => None
  end.

(** What the callback of [refresh] does with the account of an answer (a
    new object): it replaces the cached one, and becomes the active
    account when it has the active account's key. *)
Definition refreshed (data : AccountData) (s : State) : State :=
  let account := mkAccount (next_ref s) data in
  let s := set_next_ref (S (next_ref s)) s in
  let s := set_accounts (OrderedSet.add getKey account (_accounts s)) s in
  match activeAccount s with
  | Some active =>
      if String.eqb (getKey active) (getKey account)
      then set_activeAccount (Some account) s
      else s
  | None => s
  end.

(** The callback of [refresh] once its query has answered. *)
Definition refresh_resume (answer : completion (option AccountData)) : W unit :=
  account <- lift answer ;;
  match account with
  | Some data => update (refreshed data)
  | None => ret tt
  end.

(** One step of what is waiting: the rest of [add] when the answer to
    its query arrives; for the [select] of [install], the rest of its
    [add] when the answer arrives, after which the [select] is ready to
    go on if an account came back, and then its own rest; the rest of the
    callback of [refresh] when its answer arrives. A step runs without
    interruption and says what it leaves ready to run. *)
Definition turn (p : Pending) : W (list Pending) :=
  match p with
  | PendingAdd query address =>
      add_resume (remote_account env query address) ;;; ret []
  | PendingSelect query address =>
      account <- add_resume (remote_account env query address) ;;
      ret (match account with
           | Some a => [PendingActivate a]
           | None => []
           end)
  | PendingActivate account =>
      update (fun s => save (set_activeAccount (Some account) s)) ;;; ret []
  | PendingRefresh query address =>
      refresh_resume (remote_account env query address) ;;; ret []
  end.

(** A step together with what it leaves ready to run. *)
Definition complete (p : Pending) : W unit :=
  ready <- turn p ;; mapM turn ready ;;; ret tt.

(** [Promise.all(promises)] has settled: one of the calls it waits for
    has thrown, or none of them is waiting any more. *)
Definition all_settled (failed : option JsError) (waiting : list Pending) : bool :=
  is_set failed || negb (existsb joined waiting).

Definition outcome_of (failed : option JsError) : completion unit :=
  match failed with
  | Some e => Throws e
  | None => Normal tt
  end.

(** The event loop when nothing decides otherwise: what is ready to run
    runs first; [await Promise.all(promises)] goes on as soon as
    [Promise.all] has settled; until then the answers arrive one by one,
    in the order of the queries, and what an answer makes ready runs
    before the next answer. *)
Fixpoint drain (waiting : list Pending) (failed : option JsError) (s : State)
  : Settled unit :=
  match waiting with
  | [] => mkSettled (outcome_of failed) s []
  | PendingActivate account :: rest =>
      drain rest failed (snd (turn (PendingActivate account) s))
  | p :: rest =>
      if all_settled failed waiting then mkSettled (outcome_of failed) s waiting
      else
        match complete p s with
        | (Normal _, s') => drain rest failed s'
        | (Throws e, s') => drain rest (if joined p then Some e else failed) s'
        end
  end.

(** [await Promise.all(promises)] under a schedule. The order in which
    the answers arrive and the steps run is not the wallet's to choose:
    the schedule picks, step after step, what runs next among what is
    waiting (by position, modulo the number of choices); the caller of
    [await] is one more choice, the last, once [Promise.all] has settled.
    [Promise.all] rejects with the first failure of a call it waits for;
    a failure of a call nothing waits for is not seen. What has not run
    when the caller goes on is not cancelled: it stays behind. When the
    schedule runs out, the loop goes on as [drain] has it. *)
Fixpoint await_all (schedule : list nat) (waiting : list Pending)
                   (failed : option JsError) : Async unit :=
  fun s =>
    match schedule with
    | [] => drain waiting failed s
    | n :: schedule' =>
        let choices :=
          (List.length waiting + if all_settled failed waiting then 1 else 0)%nat in
        match extract (n mod choices) waiting with
        | None => mkSettled (outcome_of failed) s waiting
        | Some (p, rest) =>
            match turn p s with
            | (Normal ready, s') =>
                await_all schedule' (ready ++ rest) failed s'
            | (Throws e, s') =>
                await_all schedule' rest
                  (match failed with
                   | Some _ => failed
                   | None => if joined p then Some e else None
                   end) s'
            end
        end
    end.

(** The wallet once everything that was left waiting has run, under a
    schedule of its own. *)
Fixpoint afterwards (schedule : list nat) (waiting : list Pending) (s : State)
  : State :=
  match schedule with
  | [] => fold_left (fun s p => snd (complete p s)) waiting s
  | n :: schedule' =>
      match extract (n mod List.length waiting) waiting with
      | None => s
      | Some (p, rest) =>
          match turn p s with
          | (Normal ready, s') => afterwards schedule' (ready ++ rest) s'
          | (Throws _, s') => afterwards schedule' rest s'
          end
      end
  end.

Definition final {A} (schedule : list nat) (r : Settled A) : State :=
  afterwards schedule (unanswered r) (wallet r).

(** The query a call waits for, if it has not returned at once. *)
Definition waiting_for (call : nat -> Address -> Pending) (task : AddTask)
  : list Pending :=
  match task with
  | Returned _ => []
  | Awaiting query address => [call query address]
  end.

(** The registration of [install]:
    [this.select(firstAccount)] is called and not awaited, then
    [await Promise.all(accounts.map(this.add))].
    Every call runs to its first suspension when it is made, so all
    lookups see the registry as it was. What is waiting then is the
    [select] (for the answer of its [add], or ready to go on when its
    [add] returned an account at once) and the [add]s that issued a
    query; the schedule has the rest. *)
Definition register_accounts (schedule : list nat)
                             (firstAccount : option AccountKey)
                             (accounts : list AccountKey) : Async unit :=
  after (match firstAccount with
         | Some key => task <- add_start key ;; ret (Some task)
         | None => ret None
         end) (fun selecting =>
  (* trackConnectWallet *)
  after (mapM add_start accounts) (fun adding =>
  await_all schedule
    (match selecting with
     | Some (Awaiting query address) => [PendingSelect query address]
     | Some (Returned (Some account)) => [PendingActivate account]
     | Some (Returned None) | None => []
     end ++ flat_map (waiting_for PendingAdd) adding)
    None)).

(** [accounts.filter(account => IS_TESTNET ===
    TESTNET_CHAIN_IDENTIFIERS.includes(account.chain))] *)
Definition accountsInNetwork (accounts : list AccountKey) : list AccountKey :=
  filter (fun account => in_network (key_chain account)) accounts.

(** The body of the [try] of [install]. *)
Definition install_try (walletName : WALLET_NAME) (provider : ProviderInstance)
                       (schedule : list nat) : Async unit :=
  after (lift (provider_connect provider)) (fun _ =>
  after (lift (provider_getAccounts provider)) (fun accounts =>
  match accounts with
  | [] => resolved tt
  | _ :: _ =>
      let accountsInNetwork := accountsInNetwork accounts in
      match wrong_network accounts accountsInNetwork with
      | Some e => rejected e
      | None =>
          and_then
            (register_accounts schedule (hd_error accountsInNetwork) accounts)
            (fun _ =>
               update (fun s =>
                         save (set_installedProviderNames
                                 (NameSet.add walletName (installedProviderNames s))
                                 s)))
      end
  end)).

(** The [catch] of [install], before it rethrows. *)
Definition install_catch (walletName : WALLET_NAME) (s : State) : State :=
  let s := deleteProvider walletName s in
  let s := set_installedProviderNames
             (NameSet.delete walletName (installedProviderNames s)) s in
  save s.

(** [install] *)
Definition install (walletName : WALLET_NAME) (schedule : list nat) : Async unit :=
  after (addProvider walletName) (fun provider =>
  match provider with
  | None => resolved tt
  | Some provider =>
      or_catch (install_try walletName provider schedule)
        (fun e => update (install_catch walletName) ;;; throw e)
  end).

(** The queries of [refresh], one per registered account, numbered in the
    order of the registry. *)
Fixpoint refresh_queries (elements : list Account) (query : nat)
  : list (nat * Address) :=
  match elements with
  | [] => []
  | acc :: rest => (query, address (fields acc)) :: refresh_queries rest (S query)
  end.

(** [refresh]: every callback issues its query when [map] calls it; the
    schedule has the rest; [save] comes after [Promise.all] has
    resolved. *)
Definition refresh (schedule : list nat) : Async unit :=
  fun s =>
    and_then
      (after (update (set_queries (queries s + List.length (_accounts s))))
         (fun _ =>
            await_all schedule
              (map (fun asked => PendingRefresh (fst asked) (snd asked))
                   (refresh_queries (_accounts s) (queries s)))
              None))
      (fun _ => update save) s.

End Methods.

End Wallet.

(* ================================================================== *)
(** ** Requests and sample backends used in the statements below *)
(* ================================================================== *)

Module ProviderSamples.
Import Web3EvmProvider.

Definition sample_r : string :=
  "a1b2c3d4e5f60718293a4b5c6d7e8f90a1b2c3d4e5f60718293a4b5c6d7e8f90".
Definition sample_s : string :=
  "0f1e2d3c4b5a69788796a5b4c3d2e1f00f1e2d3c4b5a69788796a5b4c3d2e1f0".

(** The params of the two requests of the chain-switch protocol for the
    network id [n]. *)
Definition switchRequest (this : Provider) (n : Z) : list Param :=
  [PSwitchChain (toHex this n)].

Definition addRequest (this : Provider) (chainData : ChainData) (n : Z)
  : list Param :=
  [PAddChain (toHex this n) [publicRpcUrl chainData] (displayName chainData)
             (nativeCurrency chainData) [blockExplorerUrl chainData]].

(** What forwarding to one backend method looks like: one request with
    [address, message], whose answer is reordered (an answer of the wrong
    length fails the reordering) and whose failure is passed on. *)
Definition forwarded (this : Provider) (method : Method)
                     (message address : string) : M string :=
  fun log =>
    (match sendAsync this log method [PString address; PString message] with
     | Normal signature => _reorderSignatureRsvToVrs signature
     | Throws e => Throws e
     end,
     (log ++ [EvRequest method [PString address; PString message]])%list).

(** A backend for the examples: it signs every request with the same
    low-[v] signature, reports one checksummed (mixed-case) address, and
    is connected to network 1, which the table maps to ["ETHEREUM"]. *)
Definition sample_signature : string := "0x" ++ sample_r ++ sample_s ++ "01".

Definition sample_address : Address := "0x52908400098527886E0F7030069857D2E4169EE7".

Definition decimalNetwork (raw : string) : option Z :=
  if String.eqb raw "1" then Some 1
  else if String.eqb raw "4" then Some 4
  else None.

Definition sample_provider : Provider :=
  {| sendAsync := fun _ _ _ => Normal sample_signature;
     eth_getAccounts := fun _ => Normal [sample_address];
     version_getNetwork := fun _ => Normal "1";
     eth_sendTransaction := fun _ _ => Normal "0xfeed";
     eth_call := fun _ _ => Normal "0x";
     toHex := fun n => "0x" ++ JsString.toString16 (Some n);
     window_ethereum_chainId := Normal None;
     Number_ := decimalNetwork;
     CHAIN_IDENTIFIER_BY_NETWORK_ID :=
       fun n => if n =? 1 then Some "ETHEREUM"
                else if n =? 4 then Some "RINKEBY" else None |}.

(** A backend that does not know the chain and accepts to add it. *)
Definition unadded_chain_provider : Provider :=
  {| sendAsync := fun _ method _ =>
       match method with
       | wallet_switchEthereumChain =>
           Throws (mkError "Unrecognized chain ID" (JNum 4902))
       | _ => Normal "null"
       end;
     eth_getAccounts := eth_getAccounts sample_provider;
     version_getNetwork := version_getNetwork sample_provider;
     eth_sendTransaction := eth_sendTransaction sample_provider;
     eth_call := eth_call sample_provider;
     toHex := toHex sample_provider;
     window_ethereum_chainId := Normal None;
     Number_ := decimalNetwork;
     CHAIN_IDENTIFIER_BY_NETWORK_ID := CHAIN_IDENTIFIER_BY_NETWORK_ID sample_provider |}.

Definition polygon : ChainData :=
  {| blockExplorerUrl := "https://polygonscan.com";
     displayName := "Polygon";
     publicRpcUrl := "https://rpc-mainnet.maticvigil.com/";
     networkId := Some 137;
     nativeCurrency := mkNativeCurrency "MATIC" "MATIC" 18 |}.

(** A backend on which the user declines every switch. *)
Definition rejecting_provider : Provider :=
  {| sendAsync := fun _ _ _ =>
       Throws (mkError "User rejected the request." (JNum 4001));
     eth_getAccounts := eth_getAccounts sample_provider;
     version_getNetwork := version_getNetwork sample_provider;
     eth_sendTransaction := eth_sendTransaction sample_provider;
     eth_call := eth_call sample_provider;
     toHex := toHex sample_provider;
     window_ethereum_chainId := Normal None;
     Number_ := decimalNetwork;
     CHAIN_IDENTIFIER_BY_NETWORK_ID := CHAIN_IDENTIFIER_BY_NETWORK_ID sample_provider |}.


(** A backend connected to a network the table does not list. *)
Definition unknown_network_provider : Provider :=
  {| sendAsync := sendAsync sample_provider;
     eth_getAccounts := eth_getAccounts sample_provider;
     version_getNetwork := fun _ => Normal "1337";
     eth_sendTransaction := eth_sendTransaction sample_provider;
     eth_call := eth_call sample_provider;
     toHex := toHex sample_provider;
     window_ethereum_chainId := Normal None;
     Number_ := decimalNetwork;
     CHAIN_IDENTIFIER_BY_NETWORK_ID := CHAIN_IDENTIFIER_BY_NETWORK_ID sample_provider |}.

(** A transfer whose source is the address the sample backend reports,
    letter for letter. *)
Definition sample_transaction : Transaction :=
  {| source := sample_address;
     destination := Some "0xde709f2102306220921060314715629080e2fb77";
     value := Some 1;
     data := None |}.

End ProviderSamples.

Module WalletSamples.
Import Wallet.

Definition alice : AccountData :=
  {| address := "0xab5801a7d398351b8be11c439e05c5b3259aec9b";
     imageUrl := "https://storage.example/alice.png";
     nickname := Some "alice";
     relayId := "QWNjb3VudFR5cGU6MQ==";
     isCompromised := false;
     isStaff := false;
     user := None |}.

Definition bob : AccountData :=
  {| address := "0x4e9ce36e442e55ecd9025b9a6e0d88485d628a67";
     imageUrl := "https://storage.example/bob.png";
     nickname := None;
     relayId := "QWNjb3VudFR5cGU6Mg==";
     isCompromised := false;
     isStaff := false;
     user := None |}.

Definition alice_key : AccountKey := mkAccountKey (address alice) "ETHEREUM".
Definition bob_key : AccountKey := mkAccountKey (address bob) "ETHEREUM".

Definition directory (a : Address) : option AccountData :=
  if String.eqb a (address alice) then Some alice
  else if String.eqb a (address bob) then Some bob
  else None.

Definition network_down : JsError := Error "Failed to fetch".

(** A browser wallet connected to both accounts on the main network. *)
Definition browser_wallet : ProviderInstance :=
  {| provider_connect := Normal tt;
     provider_getAccounts := Normal [alice_key; bob_key] |}.

(** A browser wallet connected to the first account only. *)
Definition single_account_wallet : ProviderInstance :=
  {| provider_connect := Normal tt;
     provider_getAccounts := Normal [alice_key] |}.

(** Main-network mode; the account source answers every query but the
    one numbered [failing]. *)
Definition mainnet (failing : nat) (provider : ProviderInstance) : Env :=
  {| IS_TESTNET := false;
     TESTNET_CHAIN_IDENTIFIERS := ["RINKEBY"; "MUMBAI"];
     MAINNET_CHAIN_IDENTIFIERS := ["ETHEREUM"; "MATIC"];
     MAINNET_TO_TESTNET_CHAIN_IDENTIFIERS :=
       fun c => if String.eqb c "ETHEREUM" then Some "RINKEBY"
                else if String.eqb c "MATIC" then Some "MUMBAI" else None;
     TESTNET_TO_MAINNET_CHAIN_IDENTIFIERS :=
       fun c => if String.eqb c "RINKEBY" then Some "ETHEREUM"
                else if String.eqb c "MUMBAI" then Some "MATIC" else None;
     CHAIN_IDENTIFIERS_TO_NAMES := fun c => c;
     remote_account :=
       fun q a => if (q =? failing)%nat then Throws network_down
                  else Normal (directory a);
     provider_factory :=
       fun name => if String.eqb name "MetaMask" then Some provider else None |}.

(** The account source fails on the first query of an install of the
    single-account wallet: the query of the [select]. The query of the
    [add] of the same account is the second. *)
Definition first_query_fails : Env := mainnet 0 single_account_wallet.

Definition select_of_alice : Pending := PendingSelect 0 (address alice).

Definition add_of_alice : Pending := PendingAdd 1 (address alice).

(** A session as [save] writes it: one account, which is the active
    one. *)
Definition alice_session : WalletData :=
  {| data_accounts := [alice];
     data_activeAccount := Some alice;
     data_installedProviderNames := ["MetaMask"] |}.

End WalletSamples.

(* ================================================================== *)
(** ** The EVM provider: signing, events and the concrete providers *)
(* ================================================================== *)

Module JsBuffer.

(** The UTF-8 bytes of one code unit below 256. *)
Definition utf8 (c : ascii) : list Z :=
  let n := Z.of_nat (nat_of_ascii c) in
  if n <? 128 then [n] else [192 + n / 64; 128 + n mod 64].

Fixpoint bytes (s : string) : list Z :=
  match s with
  | String c s' => (utf8 c ++ bytes s')%list
  | EmptyString => []
  end.

(** Two lower-case hexadecimal digits for one byte. *)
Definition hex2 (b : Z) : string :=
  String (JsString.hexDigit (b / 16)) (String (JsString.hexDigit (b mod 16)) "").

Fixpoint hex (bs : list Z) : string :=
  match bs with
  | b :: rest => hex2 b ++ hex rest
  | [] => ""
  end.

(** [bufferToHex(new Buffer(message, "utf8"))] *)
Definition bufferToHex (message : string) : string := "0x" ++ hex (bytes message).

End JsBuffer.

(** A hexadecimal digit, either case. *)
Definition isHexDigit (c : ascii) : bool :=
  match JsString.digitValue c with
  | Some d => d <? 16
  | None => false
  end.

Definition hexChars : list ascii :=
  list_ascii_of_string "0123456789abcdefABCDEF".

(** The [v] that the reordering emits for the [v] it parsed. *)
Definition normalized_v (v : option Z) : option Z :=
  match v with
  | Some n => if n <? 27 then Some (n + 27) else Some n
  | None => None
  end.

(** A two-character [v] is well treated when the emitted [v] has two
    characters again and reads back as a number between 27 and 255: the
    parsed one plus 27 when the parsed one is below 27, the parsed one
    itself otherwise. *)
Definition well_treated (v : string) : bool :=
  match JsString.parseInt v 16 with
  | Some n =>
      let out := JsString.toString16 (normalized_v (Some n)) in
      (String.length out =? 2)%nat &&
      match JsString.parseInt out 16 with
      | Some m =>
          (27 <=? m) && (m <=? 255) && (m =? (if n <? 27 then n + 27 else n))
      | None => false
      end
  | None => false
  end.

Module ProviderOps.
Import Web3EvmProvider.
Local Open Scope provider_scope.

Section Methods.

Variable this : Provider.

(** [TypedDataUtils.sign(TypedDataUtils.sanitizeData(JSON.parse(message)),
    true).toString("hex")]: the hash of the typed data as hexadecimal
    digits; it throws when the message is not the JSON of typed data. *)
Variable typedDataHash : string -> completion string.

(** [sign] *)
Definition sign (message address : string) (options : option SignOptions)
  : M string :=
  let clientSignatureStandard :=
    match options with
    | Some o => clientSignatureStandard o
    | None => PERSONAL
    end in
  let isTyped := negb (standard_eqb clientSignatureStandard PERSONAL) in
  let hexMessage := JsBuffer.bufferToHex message in
  payload <- (if isTyped
              then h <- lift (typedDataHash message) ;; ret ("0x" ++ h)
              else ret hexMessage) ;;
  signature <- request this personal_sign [PString payload; PString address] ;;
  body <- (if isTyped
           then lift (_reorderSignatureRsvToVrs signature)
           else ret signature) ;;
  ret (body ++ (if isTyped then "03" else "")).

(** The listener [onChainChange] registers for ["chainChanged"]: what it
    calls the handler with for a pushed [networkId], or what it throws. *)
Definition chainChanged (networkId : string) : completion ChainIdentifier :=
  let chainIdentifier :=
    match Number_ this networkId with
    | Some n => CHAIN_IDENTIFIER_BY_NETWORK_ID this n
    | None => None
    end in
  match chainIdentifier with
  | Some chainIdentifier =>
      if truthy chainIdentifier then Normal chainIdentifier
      else Throws (Error ("Unexpected chain id " ++ networkId))
  | None => Throws (Error ("Unexpected chain id " ++ networkId))
  end.

(** The listener [onAccountsChange] registers for ["accountsChanged"]:
    what it calls the handler with for the pushed addresses. *)
Definition accountsChanged (addresses : list Address) : M (list AccountKey) :=
  mapToAccounts this addresses.

(** [PortisProvider.connect] *)
Definition Portis_connect : M unit :=
  getAccounts this ;;; connect this.

(** [WalletConnectProvider.connect]; [enable] is
    [walletConnectProvider.enable()]. *)
Definition WalletConnect_connect (enable : completion unit) : M unit :=
  lift enable ;;; connect this.

End Methods.

End ProviderOps.

Module ProviderMoreSamples.
Import Web3EvmProvider ProviderSamples.

(** The transfer of [sample_transaction] with its source in lower
    case. *)
Definition lower_case_transaction : Transaction :=
  {| source := JsString.toLowerCase sample_address;
     destination := destination sample_transaction;
     value := value sample_transaction;
     data := data sample_transaction |}.

(** An injected wallet on network 4 whose [web3] still reports
    network 1. *)
Definition injected_provider : Provider :=
  {| sendAsync := sendAsync sample_provider;
     eth_getAccounts := eth_getAccounts sample_provider;
     version_getNetwork := fun _ => Normal "1";
     eth_sendTransaction := eth_sendTransaction sample_provider;
     eth_call := eth_call sample_provider;
     toHex := toHex sample_provider;
     window_ethereum_chainId := Normal (Some "4");
     Number_ := decimalNetwork;
     CHAIN_IDENTIFIER_BY_NETWORK_ID := CHAIN_IDENTIFIER_BY_NETWORK_ID sample_provider |}.

(** The same wallet when [web3] cannot reach its node. *)
Definition offline_provider : Provider :=
  {| sendAsync := sendAsync sample_provider;
     eth_getAccounts := eth_getAccounts sample_provider;
     version_getNetwork := fun _ => Throws (Error "Network error");
     eth_sendTransaction := eth_sendTransaction sample_provider;
     eth_call := eth_call sample_provider;
     toHex := toHex sample_provider;
     window_ethereum_chainId := Normal (Some "4");
     Number_ := decimalNetwork;
     CHAIN_IDENTIFIER_BY_NETWORK_ID := CHAIN_IDENTIFIER_BY_NETWORK_ID sample_provider |}.

(** A typed-data hash for the examples. *)
Definition sample_typedDataHash (message : string) : completion string :=
  if String.eqb message "" then Throws (Error "Unexpected end of JSON input")
  else Normal sample_r.

End ProviderMoreSamples.

(* ================================================================== *)
(** ** The wallet: refreshing, and what the operations keep *)
(* ================================================================== *)

Module JsonDecode.

Definition hexValue (c : ascii) : Z :=
  match JsString.digitValue c with
  | Some d => d
  | None => 0
  end.

(** Reads the first code unit of the inside of a JSON string literal:
    the inverse of [Json.escape], used to tell hashes apart. *)
Definition unescape (s : string) : option (ascii * string) :=
  match s with
  | EmptyString => None
  | String c rest =>
      if Ascii.eqb c Json.backslash then
        match rest with
        | EmptyString => None
        | String k rest' =>
            if Ascii.eqb k Json.dquote then Some (Json.dquote, rest')
            else if Ascii.eqb k Json.backslash then Some (Json.backslash, rest')
            else if Ascii.eqb k "b" then Some (ascii_of_nat 8, rest')
            else if Ascii.eqb k "t" then Some (ascii_of_nat 9, rest')
            else if Ascii.eqb k "n" then Some (ascii_of_nat 10, rest')
            else if Ascii.eqb k "f" then Some (ascii_of_nat 12, rest')
            else if Ascii.eqb k "r" then Some (ascii_of_nat 13, rest')
            else if Ascii.eqb k "u" then
              match rest' with
              | String _ (String _ (String h (String l rest''))) =>
                  Some (ascii_of_nat (Z.to_nat (16 * hexValue h + hexValue l)),
                        rest'')
              | _ => None
              end
            else None
        end
      else Some (c, rest)
  end.

End JsonDecode.

Module WalletOps.
Import Wallet.
Local Open Scope wallet_scope.

(** No two entries of the registry have the same key. *)
Definition keys_unique (s : State) : Prop :=
  NoDup (map getKey (_accounts s)).

(** The persisted record is the one of the wallet's fields. *)
Definition in_sync (s : State) : Prop := cookie s = persisted_form s.

(** A computation keeps a property of the state. *)
Definition preserves (P : State -> Prop) {A} (m : W A) : Prop :=
  forall s, P s -> P (snd (m s)).

Section Methods.

Variable env : Env.


(** An asynchronous call keeps a property [P] of the state and leaves
    behind only what is of the kind [K]. *)
Definition keeps (P : State -> Prop) (K : Pending -> Prop) {A} (m : Async A)
  : Prop :=
  forall s, P s -> P (wallet (m s)) /\ Forall K (unanswered (m s)).

(** What waits while [install] is under way, and what waits while
    [refresh] is. *)
Definition of_install (p : Pending) : Prop :=
  match p with
  | PendingRefresh _ _ => False
  | _ => True
  end.

Definition of_refresh (p : Pending) : Prop :=
  match p with
  | PendingRefresh _ _ => True
  | _ => False
  end.

(** The chain that is the counterpart of [connectedChain] in the other
    network mode, as [install] looks it up. *)
Definition appropriateChain (connectedChain : ChainIdentifier)
  : option ChainIdentifier :=
  if existsb (String.eqb connectedChain) (MAINNET_CHAIN_IDENTIFIERS env)
  then MAINNET_TO_TESTNET_CHAIN_IDENTIFIERS env connectedChain
  else TESTNET_TO_MAINNET_CHAIN_IDENTIFIERS env connectedChain.

End Methods.

End WalletOps.

(** *** Routing to the provider of the active account *)

Module WalletRouting.
Import Wallet.

(** A [Provider] as the wallet sees it: the methods it calls, and the
    EVM provider it is when it is an instance of [Web3EvmProvider]. *)
Record AnyProvider : Type := mkAnyProvider {
  provider_sign :
    string -> Address -> option Web3EvmProvider.SignOptions -> Web3EvmProvider.M string;
  provider_signTypedData :
    string -> Address -> option Web3EvmProvider.SignOptions -> Web3EvmProvider.M string;
  provider_transact : Web3EvmProvider.Transaction -> Web3EvmProvider.M TransactionId;
  as_Web3EvmProvider : option Web3EvmProvider.Provider
}.

(** An instance of [Web3EvmProvider] seen that way. *)
Definition of_Web3EvmProvider (p : Web3EvmProvider.Provider)
                              (typedDataHash : string -> completion string)
  : AnyProvider :=
  {| provider_sign := ProviderOps.sign p typedDataHash;
     provider_signTypedData := Web3EvmProvider.signTypedData p;
     provider_transact := Web3EvmProvider.transact p;
     as_Web3EvmProvider := Some p |}.

(** [Omit<Transaction, "source">] *)
Record TransactionRequest : Type := mkTransactionRequest {
  request_destination : option Address;
  request_value : option Z;
  request_data : option string
}.

(** What a routed call comes to: how it settles, what was asked of the
    backend, and whether the user was sent to the login page. *)
Record Routed (A : Type) : Type := mkRouted {
  outcome : completion A;
  asked : Web3EvmProvider.Log;
  redirected : bool
}.
Arguments mkRouted {A} outcome asked redirected.
Arguments outcome {A} r.
Arguments asked {A} r.
Arguments redirected {A} r.

Section Methods.

(** [chain.findProvider(accountKey)], imported from [lib/chain/chain]:
    the answer of the provider registry for an address. *)
Variable findProvider : Address -> completion (option AnyProvider).

(** [getActiveAccountKey] *)
Definition getActiveAccountKey (s : State) : option Address :=
  option_map (fun a => address (fields a)) (activeAccount s).

(** [getProvider] *)
Definition getProvider (s : State) : completion (option AnyProvider) :=
  match getActiveAccountKey s with
  | None => Normal None
  | Some accountKey => findProvider accountKey
  end.

(** [getProviderOrRedirect]: the provider, and whether [redirect] was
    called. *)
Definition getProviderOrRedirect (s : State)
  : completion (option AnyProvider) * bool :=
  match getProvider s with
  | Normal (Some provider) => (Normal (Some provider), false)
  | Normal None => (Normal None, true)
  | Throws e => (Throws e, false)
  end.

Definition NO_PROVIDER : JsError :=
  Error "Could not find wallet provider matching current account.".

(** [UNSAFE_getActiveAccountAndProviderOrRedirect] *)
Definition UNSAFE_getActiveAccountAndProviderOrRedirect (s : State)
  : completion (Account * Address * AnyProvider) * bool :=
  match getProviderOrRedirect s with
  | (Normal provider, redirected) =>
      match activeAccount s, getActiveAccountKey s, provider with
      | Some account, Some accountKey, Some provider =>
          (Normal (account, accountKey, provider), redirected)
      | _, _, _ => (Throws NO_PROVIDER, redirected)
      end
  | (Throws e, redirected) => (Throws e, redirected)
  end.

(** The three calls the wallet routes to the provider of the active
    account. *)
Definition routed {A} (s : State)
    (call : Address -> AnyProvider -> Web3EvmProvider.M A)
    (log : Web3EvmProvider.Log) : Routed A :=
  match UNSAFE_getActiveAccountAndProviderOrRedirect s with
  | (Normal (_, accountKey, provider), redirected) =>
      let '(result, log') := call accountKey provider log in
      mkRouted result log' redirected
  | (Throws e, redirected) => mkRouted (Throws e) log redirected
  end.

(** [sign] *)
Definition sign (s : State) (message : string)
                (options : option Web3EvmProvider.SignOptions) :=
  routed s (fun accountKey provider => provider_sign provider message accountKey options).

(** [signTypedData] *)
Definition signTypedData (s : State) (message : string)
                         (options : option Web3EvmProvider.SignOptions) :=
  routed s (fun accountKey provider =>
              provider_signTypedData provider message accountKey options).

(** [transact] *)
Definition transact (s : State) (transaction : TransactionRequest) :=
  routed s (fun accountKey provider =>
              provider_transact provider
                (Web3EvmProvider.mkTransaction accountKey
                   (request_destination transaction)
                   (request_value transaction)
                   (request_data transaction))).

Definition SWITCH_NOT_SUPPORTED (chainData : Web3EvmProvider.ChainData) : JsError :=
  Error ("Switching chain is not supported on "
         ++ Web3EvmProvider.displayName chainData).

(** [switchChain] *)
Definition switchChain (s : State) (chainData : Web3EvmProvider.ChainData)
                       (log : Web3EvmProvider.Log) : Routed unit :=
  match getProviderOrRedirect s with
  | (Normal provider, redirected) =>
      match match provider with
            | Some provider => as_Web3EvmProvider provider
            | None => None
            end with
      | Some evm =>
          let '(result, log') := Web3EvmProvider.switchChain evm chainData log in
          mkRouted result log' redirected
      | None => mkRouted (Throws (SWITCH_NOT_SUPPORTED chainData)) log redirected
      end
  | (Throws e, redirected) => mkRouted (Throws e) log redirected
  end.

End Methods.

End WalletRouting.

Module WalletMoreSamples.
Import Wallet WalletSamples.

Definition carol : AccountData :=
  {| address := "0xCA35b7d915458EF540aDe6068dFe2F44E8fa733c";
     imageUrl := "https://storage.example/carol.png";
     nickname := Some "carol";
     relayId := "QWNjb3VudFR5cGU6Mw==";
     isCompromised := false;
     isStaff := false;
     user := Some (mkUser "VXNlclR5cGU6Mw==" (Some "carol") None (Some true) None) |}.

(** A session with two accounts, the second being active. *)
Definition two_accounts_session : WalletData :=
  {| data_accounts := [alice; bob];
     data_activeAccount := Some bob;
     data_installedProviderNames := ["MetaMask"; "WalletConnect"] |}.

Definition rinkeby_key : AccountKey := mkAccountKey (address alice) "RINKEBY".


(** Every address is connected through the sample EVM provider. *)
Definition sample_findProvider (a : Address)
  : completion (option WalletRouting.AnyProvider) :=
  Normal (Some (WalletRouting.of_Web3EvmProvider ProviderSamples.sample_provider
                  ProviderMoreSamples.sample_typedDataHash)).

(** A wallet with no account to report. *)
Definition empty_wallet : ProviderInstance :=
  {| provider_connect := Normal tt;
     provider_getAccounts := Normal [] |}.

End WalletMoreSamples.

(* ================================================================== *)
(** * Properties *)
(* ================================================================== *)

(** ** Facts about strings *)

Section StringFacts.

Lemma length_append (a b : string) :
  String.length (a ++ b) = (String.length a + String.length b)%nat.
Proof. induction a as [|c a IH]; simpl; [reflexivity | now rewrite IH]. Qed.

Lemma append_assoc (a b c : string) : (a ++ b) ++ c = a ++ b ++ c.
Proof. induction a as [|x a IH]; simpl; [reflexivity | now rewrite IH]. Qed.

Lemma append_empty_r (a : string) : a ++ "" = a.
Proof. induction a as [|x a IH]; simpl; [reflexivity | now rewrite IH]. Qed.

Lemma substring_all (a : string) : substring 0 (String.length a) a = a.
Proof. induction a as [|c a IH]; simpl; [reflexivity | now rewrite IH]. Qed.

Lemma substring_prefix (a b : string) :
  substring 0 (String.length a) (a ++ b) = a.
Proof.
  induction a as [|c a IH]; simpl.
  - destruct b; reflexivity.
  - now rewrite IH.
Qed.

Lemma substring_skip (a b : string) (n m : nat) :
  substring (String.length a + n) m (a ++ b) = substring n m b.
Proof. induction a as [|c a IH]; simpl; [reflexivity | exact IH]. Qed.

(** [substr] of a middle piece: [(a ++ b ++ c).substr(|a|, |b|) = b]. *)
Lemma substr_middle (a b c : string) :
  JsString.substr (a ++ b ++ c) (JsString.len a) (Some (JsString.len b)) = b.
Proof.
  unfold JsString.substr, JsString.len.
  rewrite !length_append.
  set (la := String.length a). set (lb := String.length b).
  set (lc := String.length c).
  replace (Z.of_nat la <? 0) with false by (symmetry; apply Z.ltb_ge; lia).
  replace (Z.to_nat (Z.min (Z.of_nat la) (Z.of_nat (la + (lb + lc)))))
    with (la + 0)%nat by lia.
  match goal with
  | |- substring _ ?m _ = _ => replace m with lb by lia
  end.
  subst la lb lc. rewrite substring_skip. apply substring_prefix.
Qed.

(** [substr] with a negative start: [(a ++ v).substr(-|v|) = v]. *)
Lemma substr_suffix (a v : string) :
  v <> "" ->
  JsString.substr (a ++ v) (- JsString.len v) None = v.
Proof.
  intros Hv.
  assert (0 < String.length v)%nat as Hpos by (destruct v; simpl; [congruence | lia]).
  unfold JsString.substr, JsString.len.
  rewrite length_append.
  set (la := String.length a) in *. set (lv := String.length v) in *.
  replace (- Z.of_nat lv <? 0) with true by (symmetry; apply Z.ltb_lt; lia).
  replace (Z.to_nat (Z.max (Z.of_nat (la + lv) + - Z.of_nat lv) 0))
    with (la + 0)%nat by lia.
  match goal with
  | |- substring _ ?m _ = _ => replace m with lv by lia
  end.
  subst la lv. rewrite substring_skip. apply substring_all.
Qed.

Lemma toLowerCaseChar_idempotent (c : ascii) :
  JsString.toLowerCaseChar (JsString.toLowerCaseChar c) = JsString.toLowerCaseChar c.
Proof. destruct c as [[] [] [] [] [] [] [] []]; reflexivity. Qed.

Lemma toLowerCase_idempotent (s : string) :
  JsString.toLowerCase (JsString.toLowerCase s) = JsString.toLowerCase s.
Proof.
  induction s as [|c s IH]; simpl; [reflexivity|].
  now rewrite toLowerCaseChar_idempotent, IH.
Qed.

End StringFacts.

Example parseInt_1b : JsString.parseInt "1b" 16 = Some 27.
Proof. reflexivity. Qed.
Example parseInt_minus : JsString.parseInt "-f" 16 = Some (-15).
Proof. reflexivity. Qed.
Example parseInt_0x : JsString.parseInt "0x" 16 = None.
Proof. reflexivity. Qed.
Example parseInt_stops : JsString.parseInt "7g" 16 = Some 7.
Proof. reflexivity. Qed.
Example toString16_28 : JsString.toString16 (Some 28) = "1c".
Proof. reflexivity. Qed.
Example toString16_255 : JsString.toString16 (Some 255) = "ff".
Proof. reflexivity. Qed.
Example toString16_0 : JsString.toString16 (Some 0) = "0".
Proof. reflexivity. Qed.
Example toLowerCase_addr : JsString.toLowerCase "0xAbC1" = "0xabc1".
Proof. reflexivity. Qed.
Example substr_examples :
  JsString.substr "0123456789" (-2) None = "89" /\
  JsString.substr "0123456789" 2 (Some 3) = "234" /\
  JsString.substr "0123456789" 8 (Some 64) = "89" /\
  JsString.substr "0" (-2) None = "0".
Proof. repeat split. Qed.

(** ** Signature reordering *)

Import ProviderSamples.

Section Reorder.

Lemma signature_length (r s v : string) :
  String.length r = 64%nat -> String.length s = 64%nat ->
  String.length v = 2%nat ->
  JsString.len ("0x" ++ r ++ s ++ v) = 132.
Proof.
  intros Hr Hs Hv. unfold JsString.len.
  rewrite !length_append, Hr, Hs, Hv. reflexivity.
Qed.

(** The three pieces the reordering cuts out of a well-formed signature. *)
Lemma signature_pieces (r s v : string) :
  String.length r = 64%nat -> String.length s = 64%nat ->
  String.length v = 2%nat ->
  JsString.substr ("0x" ++ r ++ s ++ v) (-2) None = v /\
  JsString.substr ("0x" ++ r ++ s ++ v) 2 (Some 64) = r /\
  JsString.substr ("0x" ++ r ++ s ++ v) 66 (Some 64) = s.
Proof.
  intros Hr Hs Hv. repeat split.
  - rewrite <- !append_assoc.
    replace (-2) with (- JsString.len v) by (unfold JsString.len; rewrite Hv; reflexivity).
    apply substr_suffix. destruct v; [discriminate | congruence].
  - replace 64 with (JsString.len r) by (unfold JsString.len; now rewrite Hr).
    exact (substr_middle "0x" r (s ++ v)).
  - rewrite <- (append_assoc "0x" r).
    replace 66 with (JsString.len ("0x" ++ r))
      by (unfold JsString.len; rewrite length_append, Hr; reflexivity).
    replace 64 with (JsString.len s) by (unfold JsString.len; now rewrite Hs).
    apply substr_middle.
Qed.

(** What the reordering returns on any 132-character signature, in terms
    of its last two characters. *)
Lemma reorder_well_formed (r s v : string) :
  String.length r = 64%nat -> String.length s = 64%nat ->
  String.length v = 2%nat ->
  _reorderSignatureRsvToVrs ("0x" ++ r ++ s ++ v) =
  Normal ("0x" ++
          JsString.toString16
            (match JsString.parseInt v 16 with
             | Some n => if n <? 27 then Some (n + 27) else Some n
             | None => None
             end) ++ r ++ s).
Proof.
  intros Hr Hs Hv. unfold _reorderSignatureRsvToVrs.
  rewrite (signature_length r s v Hr Hs Hv).
  destruct (signature_pieces r s v Hr Hs Hv) as (-> & -> & ->).
  reflexivity.
Qed.

End Reorder.

(** C1. For every signature [0x ++ r ++ s ++ v] with [r] and [s] of 64
    characters each: when [v] is ["1b"] or ["00"] the reordering returns
    [0x1b ++ r ++ s], and when [v] is ["1c"] or ["01"] it returns
    [0x1c ++ r ++ s]: the pieces are emitted in v-r-s order and a [v] of 0
    or 1 is raised by 27. *)
Theorem reorderSignatureRsvToVrs_vrs (r s v : string) :
  String.length r = 64%nat -> String.length s = 64%nat ->
  (v = "1b" \/ v = "00" ->
   _reorderSignatureRsvToVrs ("0x" ++ r ++ s ++ v) = Normal ("0x" ++ "1b" ++ r ++ s)) /\
  (v = "1c" \/ v = "01" ->
   _reorderSignatureRsvToVrs ("0x" ++ r ++ s ++ v) = Normal ("0x" ++ "1c" ++ r ++ s)).
Proof.
  intros Hr Hs.
  split; intros [-> | ->];
    rewrite reorder_well_formed by (assumption || reflexivity); reflexivity.
Qed.


Lemma reorderSignatureRsvToVrs_vrs_witness :
  _reorderSignatureRsvToVrs ("0x" ++ sample_r ++ sample_s ++ "00")
    = Normal ("0x" ++ "1b" ++ sample_r ++ sample_s) /\
  _reorderSignatureRsvToVrs ("0x" ++ sample_r ++ sample_s ++ "01")
    = Normal ("0x" ++ "1c" ++ sample_r ++ sample_s).
Proof.
  split.
  - apply (proj1 (reorderSignatureRsvToVrs_vrs sample_r sample_s "00" eq_refl eq_refl)).
    right; reflexivity.
  - apply (proj2 (reorderSignatureRsvToVrs_vrs sample_r sample_s "01" eq_refl eq_refl)).
    right; reflexivity.
Defined.

(** C2. Every string whose length is not 132 is refused by the reordering
    with the malformed-signature-length error; nothing is returned. *)
Theorem reorderSignatureRsvToVrs_malformed_length (signature : string) :
  String.length signature <> 132%nat ->
  _reorderSignatureRsvToVrs signature = Throws (Error MALFORMED_SIGNATURE_LENGTH).
Proof.
  intros Hlen. unfold _reorderSignatureRsvToVrs, JsString.len.
  destruct (Z.eqb_spec (Z.of_nat (String.length signature)) 132) as [E|E].
  - exfalso. apply Hlen. lia.
  - reflexivity.
Qed.

Lemma reorderSignatureRsvToVrs_malformed_length_witness :
  _reorderSignatureRsvToVrs ("0x" ++ sample_r ++ sample_s ++ "1")
    = Throws (Error MALFORMED_SIGNATURE_LENGTH) /\
  _reorderSignatureRsvToVrs ("0x" ++ sample_r ++ sample_s ++ "1b0")
    = Throws (Error MALFORMED_SIGNATURE_LENGTH).
Proof.
  split; apply reorderSignatureRsvToVrs_malformed_length; simpl; lia.
Defined.

(** ** The EVM provider *)

Module ProviderFacts.
Import Web3EvmProvider.
Local Open Scope provider_scope.

Ltac run_provider :=
  unfold connect, getAccounts, mapToAccounts, getChain, request,
         try_catch, bind, ret, throw, lift, ask in *.

(** *** [signTypedData] *)

(** C3, as the code has it. The three typed-data standards are forwarded,
    each to a backend method of its own, and the backend's signature comes
    back reordered with no suffix; a missing option means typed-data v4.
    Every other standard (personal included) is refused with the
    unsupported-standard error and no request is issued. *)
Theorem signTypedData_dispatch
    (this : Provider) (message address : string) (log : Log) :
  signTypedData this message address (Some (mkSignOptions TYPED_DATA_V1)) log
    = forwarded this eth_signTypedData message address log /\
  signTypedData this message address (Some (mkSignOptions TYPED_DATA_V3)) log
    = forwarded this eth_signTypedData_v3 message address log /\
  signTypedData this message address (Some (mkSignOptions TYPED_DATA_V4)) log
    = forwarded this eth_signTypedData_v4 message address log /\
  signTypedData this message address None log
    = forwarded this eth_signTypedData_v4 message address log /\
  signTypedData this message address (Some (mkSignOptions PERSONAL)) log
    = (Throws UNSUPPORTED_STANDARD, log) /\
  signTypedData this message address (Some (mkSignOptions future_added_value)) log
    = (Throws UNSUPPORTED_STANDARD, log) /\
  NoDup (map signatureToMethod typedStandards).
Proof.
  unfold signTypedData, forwarded; simpl; run_provider.
  repeat split;
    try (match goal with
         | |- context [sendAsync ?t ?l ?m ?p] => destruct (sendAsync t l m p)
         end; reflexivity).
  repeat constructor; simpl; intuition discriminate.
Qed.

(** C3 as stated fails for the personal standard: the call is not
    forwarded to [personal_sign]; it throws before any request, although
    the backend would have signed. *)
Lemma signTypedData_personal_not_forwarded :
  signTypedData sample_provider "{}" sample_address
                (Some (mkSignOptions PERSONAL)) []
    = (Throws UNSUPPORTED_STANDARD, []) /\
  signTypedData sample_provider "{}" sample_address
                (Some (mkSignOptions PERSONAL)) []
    <> forwarded sample_provider personal_sign "{}" sample_address [] /\
  forwarded sample_provider personal_sign "{}" sample_address []
    = (Normal ("0x" ++ "1c" ++ sample_r ++ sample_s),
       [EvRequest personal_sign [PString sample_address; PString "{}"]]).
Proof.
  split; [reflexivity | split; [| reflexivity]].
  intros H. vm_compute in H. discriminate H.
Qed.

(** *** [switchChain] *)

Lemma switchChain_unfold
    (this : Provider) (chainData : ChainData) (n : Z) (log : Log) :
  networkId chainData = Some n -> n <> 0 ->
  switchChain this chainData log =
  try_catch
    (request this wallet_switchEthereumChain (switchRequest this n) ;;; ret tt)
    (fun switchError =>
       if code_is (code switchError) UNADDED_CHAIN_ERROR_CODE then
         try_catch
           (request this wallet_addEthereumChain (addRequest this chainData n) ;;; ret tt)
           (fun error => throw (Error "There was a problem adding the network"))
       else if code_is (code switchError) USER_REJECTED_REQUEST_ERROR_CODE then
         ret tt
       else
         throw (Error "There was a problem switching the network")) log.
Proof.
  intros Hid Hn. unfold switchChain. rewrite Hid.
  destruct n; [congruence | reflexivity | reflexivity].
Qed.

(** Without a network id nothing is asked of the backend. *)
Lemma switchChain_no_network_id
    (this : Provider) (chainData : ChainData) (log : Log) :
  networkId chainData = None \/ networkId chainData = Some 0 ->
  switchChain this chainData log =
    (Throws (Error "Chain network ID was not found"), log).
Proof. intros [H|H]; unfold switchChain; rewrite H; reflexivity. Qed.

Lemma switchChain_success
    (this : Provider) (chainData : ChainData) (n : Z) (log : Log)
    (result : string) :
  networkId chainData = Some n -> n <> 0 ->
  sendAsync this log wallet_switchEthereumChain (switchRequest this n)
    = Normal result ->
  switchChain this chainData log =
    (Normal tt,
     (log ++ [EvRequest wallet_switchEthereumChain (switchRequest this n)])%list).
Proof.
  intros Hid Hn H. rewrite (switchChain_unfold this chainData n log Hid Hn).
  run_provider. now rewrite H.
Qed.

(** C6. When the backend answers the switch request with code 4902,
    exactly one add-chain request follows, carrying the chain id, the rpc
    url, the display name, the native currency and the explorer url, and
    no second switch request is made; the call resolves when the add
    request succeeds and throws "There was a problem adding the network"
    when it fails. *)
Theorem switchChain_unadded_chain
    (this : Provider) (chainData : ChainData) (n : Z) (log : Log)
    (switchError : JsError) :
  networkId chainData = Some n -> n <> 0 ->
  sendAsync this log wallet_switchEthereumChain (switchRequest this n)
    = Throws switchError ->
  code switchError = JNum 4902 ->
  switchChain this chainData log =
    (match sendAsync this
             (log ++ [EvRequest wallet_switchEthereumChain (switchRequest this n)])%list
             wallet_addEthereumChain (addRequest this chainData n) with
     | Normal _ => Normal tt
     | Throws _ => Throws (Error "There was a problem adding the network")
     end,
     (log ++ [EvRequest wallet_switchEthereumChain (switchRequest this n);
              EvRequest wallet_addEthereumChain (addRequest this chainData n)])%list).
Proof.
  intros Hid Hn Hswitch Hcode.
  rewrite (switchChain_unfold this chainData n log Hid Hn).
  run_provider. rewrite Hswitch, Hcode. simpl.
  rewrite <- app_assoc. simpl.
  destruct (sendAsync this _ wallet_addEthereumChain _); reflexivity.
Qed.

Lemma switchChain_unadded_chain_witness :
  switchChain unadded_chain_provider polygon [] =
    (Normal tt,
     [EvRequest wallet_switchEthereumChain [PSwitchChain "0x89"];
      EvRequest wallet_addEthereumChain
        [PAddChain "0x89" ["https://rpc-mainnet.maticvigil.com/"] "Polygon"
                   (mkNativeCurrency "MATIC" "MATIC" 18)
                   ["https://polygonscan.com"]]]).
Proof.
  apply (switchChain_unadded_chain unadded_chain_provider polygon 137 []
           (mkError "Unrecognized chain ID" (JNum 4902)));
    [reflexivity | lia | reflexivity | reflexivity].
Defined.

(** C7. When the backend answers the switch request with code 4001 the
    call resolves and nothing more is asked of the backend; with any
    other code (other than 4902, or none at all) it throws "There was a
    problem switching the network", again after that single request. *)
Theorem switchChain_rejected_or_failed
    (this : Provider) (chainData : ChainData) (n : Z) (log : Log)
    (switchError : JsError) :
  networkId chainData = Some n -> n <> 0 ->
  sendAsync this log wallet_switchEthereumChain (switchRequest this n)
    = Throws switchError ->
  (code switchError = JNum 4001 ->
   switchChain this chainData log =
     (Normal tt,
      (log ++ [EvRequest wallet_switchEthereumChain (switchRequest this n)])%list)) /\
  (code switchError <> JNum 4001 -> code switchError <> JNum 4902 ->
   switchChain this chainData log =
     (Throws (Error "There was a problem switching the network"),
      (log ++ [EvRequest wallet_switchEthereumChain (switchRequest this n)])%list)).
Proof.
  intros Hid Hn Hswitch.
  rewrite (switchChain_unfold this chainData n log Hid Hn).
  run_provider. rewrite Hswitch.
  split.
  - intros ->. reflexivity.
  - intros H1 H2.
    assert (code_is (code switchError) UNADDED_CHAIN_ERROR_CODE = false) as ->.
    { destruct (code switchError) as [|c|]; simpl; try reflexivity.
      apply Z.eqb_neq. intros ->. now apply H2. }
    assert (code_is (code switchError) USER_REJECTED_REQUEST_ERROR_CODE = false) as ->.
    { destruct (code switchError) as [|c|]; simpl; try reflexivity.
      apply Z.eqb_neq. intros ->. now apply H1. }
    reflexivity.
Qed.

Lemma switchChain_rejected_or_failed_witness :
  switchChain rejecting_provider polygon [] =
    (Normal tt, [EvRequest wallet_switchEthereumChain [PSwitchChain "0x89"]]).
Proof.
  apply (proj1 (switchChain_rejected_or_failed rejecting_provider polygon 137 []
                  (mkError "User rejected the request." (JNum 4001))
                  eq_refl ltac:(lia) eq_refl)).
  reflexivity.
Defined.

(** *** Accounts and transactions *)

(** [getChain] never throws: every failure inside it becomes
    [undefined]. *)
Lemma getChain_total (this : Provider) (log : Log) :
  exists chain log', getChain this log = (Normal chain, log').
Proof.
  run_provider.
  destruct (window_ethereum_chainId this) as [w|e]; [|eauto].
  destruct (version_getNetwork this log) as [net|e]; eauto.
Qed.

(** What [getAccounts] returns once the backend has listed its
    addresses. *)
Lemma getAccounts_listed (this : Provider) (addresses : list Address) (log : Log) :
  eth_getAccounts this log = Normal addresses ->
  getAccounts this log = mapToAccounts this addresses (log ++ [EvGetAccounts])%list.
Proof. intros H. unfold getAccounts, bind, ask. now rewrite H. Qed.

(** C10. Whatever addresses the backend lists, when the current network
    maps to no chain identifier ([getChain] resolves to [undefined]),
    [getAccounts] resolves to the empty list; it does not throw. *)
Theorem getAccounts_unmapped_network
    (this : Provider) (addresses : list Address) (log : Log) :
  eth_getAccounts this log = Normal addresses ->
  fst (getChain this (log ++ [EvGetAccounts])%list) = Normal None ->
  fst (getAccounts this log) = Normal [].
Proof.
  intros Hlist Hchain. rewrite (getAccounts_listed _ _ _ Hlist).
  unfold mapToAccounts, bind, ret.
  destruct (getChain this (log ++ [EvGetAccounts])%list) as [[chain|e] log'];
    simpl in Hchain; [|discriminate].
  injection Hchain as ->. reflexivity.
Qed.

Lemma getAccounts_unmapped_network_witness :
  fst (getAccounts unknown_network_provider []) = Normal [].
Proof.
  apply (getAccounts_unmapped_network unknown_network_provider [sample_address] []);
    reflexivity.
Defined.

(** The addresses [getAccounts] reports are lower-cased. *)
Lemma getAccounts_lower_case
    (this : Provider) (log log' : Log) (accounts : list AccountKey) (a : AccountKey) :
  getAccounts this log = (Normal accounts, log') ->
  In a accounts ->
  JsString.toLowerCase (key_address a) = key_address a.
Proof.
  unfold getAccounts, bind, ask.
  destruct (eth_getAccounts this log) as [addresses|e]; [|discriminate].
  unfold mapToAccounts, bind, ret.
  destruct (getChain this _) as [[[chain|]|e] l]; try discriminate.
  - destruct (truthy chain); intros [= <- <-] Hin; [|destruct Hin].
    apply in_map_iff in Hin as (x & <- & _). apply toLowerCase_idempotent.
  - intros [= <- <-] [].
Qed.

(** [transact] compares the lower-cased connected addresses with the
    source as it is given: a source with a capital letter in it is refused
    whatever the backend is connected to. *)
Lemma transact_refuses_capitals
    (this : Provider) (t : Transaction) (log log' : Log)
    (accounts : list AccountKey) :
  getAccounts this log = (Normal accounts, log') ->
  JsString.toLowerCase (source t) <> source t ->
  transact this t log = (Throws (NOT_CONNECTED (source t)), log').
Proof.
  intros Hacc Hcase. unfold transact, bind. rewrite Hacc.
  assert (existsb (fun a => String.eqb (key_address a) (source t)) accounts = false)
    as ->; [|reflexivity].
  apply not_true_is_false. intros H.
  apply existsb_exists in H as (a & Hin & Heq).
  apply String.eqb_eq in Heq. apply Hcase. rewrite <- Heq.
  exact (getAccounts_lower_case _ _ _ _ _ Hacc Hin).
Qed.

(** A source that is one of the reported (lower-cased) addresses is
    forwarded to the backend. *)
Lemma transact_forwards
    (this : Provider) (t : Transaction) (log log' : Log)
    (accounts : list AccountKey) :
  getAccounts this log = (Normal accounts, log') ->
  (exists a, In a accounts /\ key_address a = source t) ->
  transact this t log =
    (eth_sendTransaction this log'
       (mkTxObject (source t) (destination t) (value t) (data t)),
     (log' ++ [EvSendTransaction
                 (mkTxObject (source t) (destination t) (value t) (data t))])%list).
Proof.
  intros Hacc (a & Hin & Heq). unfold transact, bind. rewrite Hacc.
  assert (existsb (fun a => String.eqb (key_address a) (source t)) accounts = true)
    as ->; [|reflexivity].
  apply existsb_exists. exists a. split; [assumption|]. now apply String.eqb_eq.
Qed.

(** C9 at a concrete input. The backend is connected to the address
    [sample_address] and to a known network; a transaction whose source is
    that very address is refused with "Not connected to account", and
    nothing is sent, because the reported address was lower-cased and the
    source was not. The lower-cased source is accepted. *)
Theorem transact_connected_address_refused :
  eth_getAccounts sample_provider [] = Normal [sample_address] /\
  transact sample_provider sample_transaction [] =
    (Throws (NOT_CONNECTED sample_address), [EvGetAccounts; EvGetNetwork]) /\
  transact sample_provider
    (mkTransaction (JsString.toLowerCase sample_address)
                   (destination sample_transaction)
                   (value sample_transaction) (data sample_transaction)) [] =
    (Normal "0xfeed",
     [EvGetAccounts; EvGetNetwork;
      EvSendTransaction
        (mkTxObject (JsString.toLowerCase sample_address)
                    (destination sample_transaction)
                    (value sample_transaction) (data sample_transaction))]).
Proof. repeat split. Qed.

End ProviderFacts.

(** ** The wallet *)

Module WalletFacts.
Import Wallet WalletSamples.
Local Open Scope wallet_scope.

Arguments save : simpl never.

(** *** Persistence *)

Lemma save_fields (s : State) :
  _accounts (save s) = _accounts s /\
  activeAccount (save s) = activeAccount s /\
  installedProviderNames (save s) = installedProviderNames s /\
  providers (save s) = providers s.
Proof.
  unfold save.
  destruct (is_set (activeAccount s) || _ || _); repeat split.
Qed.

(** What [save] does to the persisted record: it writes the blob when one
    of the three fields has something in it and removes the record when
    none has. *)
Lemma save_cookie_log (s : State) :
  cookie_log (save s) =
    (cookie_log s ++
     [match activeAccount s, _accounts s, installedProviderNames s with
      | None, [], [] => CookieRemove
      | _, _, _ => CookieSet (blob s)
      end])%list.
Proof.
  unfold save.
  destruct (activeAccount s) as [a|]; [reflexivity|].
  destruct (_accounts s) as [|x l]; [|reflexivity].
  destruct (installedProviderNames s) as [|n l]; reflexivity.
Qed.

Lemma blob_save (s : State) : blob (save s) = blob s.
Proof.
  unfold blob. destruct (save_fields s) as (-> & -> & -> & _). reflexivity.
Qed.

(** After [save] the persisted record is the one of the wallet's fields. *)
Lemma save_persisted (s : State) : cookie (save s) = persisted_form (save s).
Proof.
  unfold persisted_form. rewrite blob_save.
  destruct (save_fields s) as (-> & -> & -> & _).
  unfold save.
  destruct (activeAccount s) as [a|]; [reflexivity|].
  destruct (_accounts s) as [|x l]; [|reflexivity].
  destruct (installedProviderNames s) as [|n l]; reflexivity.
Qed.

(** C8. From every state, [clear] leaves the registry empty, the active
    account unset and the set of installed providers empty, and it removes
    the persisted record rather than writing an empty one; [save] writes
    the blob only when one of the three fields has something in it. *)
Theorem clear_removes_persisted_record (s : State) :
  _accounts (clear s) = [] /\
  activeAccount (clear s) = None /\
  installedProviderNames (clear s) = [] /\
  cookie (clear s) = None /\
  cookie_log (clear s) = (cookie_log s ++ [CookieRemove])%list /\
  (forall t : State,
     cookie_log (save t) =
       (cookie_log t ++
        [match activeAccount t, _accounts t, installedProviderNames t with
         | None, [], [] => CookieRemove
         | _, _, _ => CookieSet (blob t)
         end])%list).
Proof.
  repeat split. exact save_cookie_log.
Qed.

(** *** The registry *)

Section Registry.

Context {T : Type} (key_of : T -> string).

(** After [add] the key of the added element leads to it and the other
    keys lead where they led. *)
Lemma find_add (x : T) (k : string) (l : list T) :
  OrderedSet.find key_of k (OrderedSet.add key_of x l) =
    if String.eqb (key_of x) k then Some x else OrderedSet.find key_of k l.
Proof.
  unfold OrderedSet.find. induction l as [|y l IH]; simpl.
  - destruct (String.eqb (key_of x) k); reflexivity.
  - destruct (String.eqb_spec (key_of y) (key_of x)) as [E|E]; simpl.
    + rewrite E. destruct (String.eqb (key_of x) k); reflexivity.
    + rewrite IH. destruct (String.eqb_spec (key_of y) k) as [E1|E1];
        [|reflexivity].
      destruct (String.eqb_spec (key_of x) k) as [E2|E2]; [congruence|reflexivity].
Qed.

(** After [delete] the deleted key leads nowhere and the other keys lead
    where they led. *)
Lemma find_delete (k k' : string) (l : list T) :
  OrderedSet.find key_of k' (OrderedSet.delete key_of k l) =
    if String.eqb k k' then None else OrderedSet.find key_of k' l.
Proof.
  unfold OrderedSet.find, OrderedSet.delete. induction l as [|y l IH]; simpl.
  - destruct (String.eqb k k'); reflexivity.
  - destruct (String.eqb_spec (key_of y) k) as [E|E]; simpl.
    + rewrite IH. destruct (String.eqb_spec k k') as [E1|E1]; [reflexivity|].
      destruct (String.eqb_spec (key_of y) k') as [E2|E2]; [congruence|reflexivity].
    + destruct (String.eqb_spec (key_of y) k') as [E2|E2]; [|exact IH].
      destruct (String.eqb_spec k k') as [E1|E1]; [congruence|reflexivity].
Qed.

Lemma find_key (k : string) (l : list T) (x : T) :
  OrderedSet.find key_of k l = Some x -> key_of x = k.
Proof.
  unfold OrderedSet.find. intros H. apply find_some in H as [_ H].
  now apply String.eqb_eq.
Qed.

End Registry.

(** *** The active account *)

(** [clear] establishes the invariant. *)
Lemma clear_active_registered (s : State) : active_registered (clear s) = true.
Proof. reflexivity. Qed.

Lemma active_registered_save (s : State) :
  active_registered (save s) = active_registered s.
Proof.
  unfold active_registered.
  destruct (save_fields s) as (-> & -> & _). reflexivity.
Qed.

(** Registering the answer of an account query keeps the invariant. *)
Lemma add_resume_active_registered
    (answer : completion (option AccountData)) (s : State) :
  active_registered s = true ->
  active_registered (snd (add_resume answer s)) = true.
Proof.
  intros Hinv. unfold add_resume, bind, lift, ret.
  destruct answer as [[data|]|e]; simpl; try assumption.
  rewrite active_registered_save. unfold active_registered in *. simpl.
  destruct (activeAccount s) as [a|] eqn:Ha; simpl; rewrite ?Ha.
  - rewrite find_add. destruct (String.eqb _ _); [reflexivity | assumption].
  - rewrite find_add, String.eqb_refl. reflexivity.
Qed.

(** The account a query answers with becomes a new object in the
    registry. *)
Lemma add_resume_some (data : AccountData) (s : State) :
  exists s',
    add_resume (Normal (Some data)) s
      = (Normal (Some (mkAccount (next_ref s) data)), s') /\
    _accounts s'
      = OrderedSet.add getKey (mkAccount (next_ref s) data) (_accounts s).
Proof.
  unfold add_resume, bind, lift. cbv zeta.
  eexists. split; [reflexivity|].
  match goal with |- context [save ?x] =>
    destruct (save_fields x) as (-> & _) end.
  destruct (is_set _); reflexivity.
Qed.

(** An awaited [add] keeps the invariant, and the account it returns is
    registered under its key. *)
Lemma add_active_registered (env : Env) (key : AccountKey) (s : State) :
  active_registered s = true ->
  active_registered (snd (add env key s)) = true /\
  (forall a, fst (add env key s) = Normal (Some a) ->
     is_set (OrderedSet.find getKey (getKey a) (_accounts (snd (add env key s))))
       = true).
Proof.
  intros Hinv. unfold add, bind, add_start.
  destruct (negb (in_network env (key_chain key))); simpl.
  - split; [assumption | discriminate].
  - destruct (find (key_address key) s) as [account|] eqn:Hfind; simpl.
    + split; [assumption|]. intros a [= <-].
      unfold find in Hfind. rewrite (find_key _ _ _ _ Hfind), Hfind. reflexivity.
    + split.
      * apply add_resume_active_registered. exact Hinv.
      * destruct (remote_account env (queries s) (key_address key)) as [[data|]|e];
          try (simpl; discriminate).
        destruct (add_resume_some data (set_queries (S (queries s)) s))
          as (s' & Heq & Hacc).
        rewrite Heq. cbn [fst snd]. intros a Ha. injection Ha as <-.
        rewrite Hacc, find_add, String.eqb_refl. reflexivity.
Qed.

(** An awaited [select] keeps the invariant. *)
Lemma select_active_registered (env : Env) (key : AccountKey) (s : State) :
  active_registered s = true ->
  active_registered (snd (select env key s)) = true.
Proof.
  intros Hinv.
  destruct (add_active_registered env key s Hinv) as [Hadd Hfound].
  unfold select, select_finish. unfold add in Hadd, Hfound.
  unfold bind in *.
  destruct (add_start env key s) as [[task|e] s1]; [|exact Hadd].
  destruct (add_finish env task s1) as [[[a|]|e] s2]; simpl in *;
    try exact Hadd.
  rewrite active_registered_save. unfold active_registered. simpl.
  exact (Hfound a eq_refl).
Qed.

(** [delete] keeps the invariant as long as the active account is the
    very object the registry holds. *)
Lemma delete_active_registered (key : AccountKey) (s : State) :
  active_is_entry s = true ->
  active_registered (delete key s) = true.
Proof.
  unfold active_is_entry, delete. intros Hinv.
  destruct (find (key_address key) s) as [account|] eqn:Hfind.
  - rewrite active_registered_save. unfold active_registered. simpl.
    destruct (activeAccount s) as [a|] eqn:Ha; simpl; rewrite ?Ha; [|reflexivity].
    destruct (OrderedSet.find getKey (getKey a) (_accounts s)) as [entry|] eqn:He;
      [|discriminate].
    destruct (same_object a account) eqn:Hsame; simpl; rewrite ?Ha; [reflexivity|].
    rewrite find_delete.
    destruct (String.eqb_spec (toHash (key_address key)) (getKey a)) as [E|E].
    + unfold find in Hfind. rewrite E, He in Hfind. injection Hfind as ->.
      congruence.
    + now rewrite He.
  - unfold active_registered.
    destruct (activeAccount s) as [a|]; [|reflexivity].
    destruct (OrderedSet.find getKey (getKey a) (_accounts s));
      [reflexivity|discriminate].
Qed.

(** When the active account is the very object the registry holds under
    the key, deleting the key unsets it. *)
Lemma delete_same_object (key : AccountKey) (s : State) (account : Account) :
  find (key_address key) s = Some account ->
  activeAccount s = Some account ->
  activeAccount (delete key s) = None.
Proof.
  intros Hfind Hactive. unfold delete. rewrite Hfind.
  match goal with |- activeAccount (save ?x) = _ =>
    destruct (save_fields x) as (_ & -> & _) end.
  simpl. rewrite Hactive. unfold same_object. now rewrite Nat.eqb_refl.
Qed.

(** When the active account is another object with the same address,
    deleting the key leaves it set. *)
Lemma delete_other_object (key : AccountKey) (s : State) (account active : Account) :
  find (key_address key) s = Some account ->
  activeAccount s = Some active ->
  ref active <> ref account ->
  activeAccount (delete key s) = Some active.
Proof.
  intros Hfind Hactive Href. unfold delete. rewrite Hfind.
  match goal with |- activeAccount (save ?x) = _ =>
    destruct (save_fields x) as (_ & -> & _) end.
  simpl. rewrite Hactive. unfold same_object.
  apply Nat.eqb_neq in Href. now rewrite Href.
Qed.

(** Loading: the objects read back from the persisted record. *)
Lemma In_add {T} (key_of : T -> string) (x y : T) (l : list T) :
  In y (OrderedSet.add key_of x l) -> y = x \/ In y l.
Proof.
  induction l as [|z l IH]; simpl.
  - intros [<-|[]]. now left.
  - destruct (String.eqb (key_of z) (key_of x)); simpl.
    + intros [<-|H]; [now left | now right; right].
    + intros [<-|H]; [now right; left|].
      destruct (IH H) as [->|H']; [now left | now right; right].
Qed.

Lemma In_make {T} (key_of : T -> string) (y : T) (l : list T) :
  In y (OrderedSet.make key_of l) -> In y l.
Proof.
  unfold OrderedSet.make.
  assert (forall acc, In y (fold_left (fun set x => OrderedSet.add key_of x set) l acc)
                      -> In y acc \/ In y l) as H.
  { induction l as [|x l IH]; simpl; intros acc Hin; [now left|].
    destruct (IH _ Hin) as [Hacc|Hl]; [|now right; right].
    destruct (In_add _ _ _ _ Hacc) as [->|Hacc']; [now right; left | now left]. }
  intros Hin. destruct (H [] Hin) as [[]|Hl]. exact Hl.
Qed.

Lemma parse_accounts_length (l : list AccountData) (n : nat) :
  List.length (parse_accounts l n) = List.length l.
Proof. revert n. induction l as [|d l IH]; simpl; intros n; [reflexivity | now rewrite IH]. Qed.

Lemma parse_accounts_ref (l : list AccountData) (n : nat) (x : Account) :
  In x (parse_accounts l n) -> (n <= ref x < n + List.length l)%nat.
Proof.
  revert n. induction l as [|d l IH]; simpl; intros n; [intros []|].
  intros [<-|H]; simpl; [lia|]. specialize (IH _ H). lia.
Qed.

(** After a wallet is constructed over a persisted record that has an
    active account, the active account is an object of its own: no entry
    of the registry is that object. *)
Lemma load_active_is_new_object (data : WalletData) (a : AccountData) :
  data_activeAccount data = Some a ->
  exists active,
    activeAccount (new_Wallet (Some data)) = Some active /\
    fields active = a /\
    forall entry, In entry (_accounts (new_Wallet (Some data))) ->
                  ref active <> ref entry.
Proof.
  intros Ha. unfold new_Wallet, load. simpl. rewrite Ha. simpl.
  eexists. split; [reflexivity|]. split; [reflexivity|].
  intros entry Hin. apply In_make, parse_accounts_ref in Hin.
  rewrite parse_accounts_length. simpl. lia.
Qed.

(** Hence no [delete] that follows such a construction unsets the active
    account, whichever key it deletes. *)
Lemma delete_after_load_keeps_active (data : WalletData) (a : AccountData)
                                     (key : AccountKey) :
  data_activeAccount data = Some a ->
  option_map fields (activeAccount (delete key (new_Wallet (Some data)))) = Some a.
Proof.
  intros Ha.
  destruct (load_active_is_new_object data a Ha) as (active & Hact & Hf & Hnew).
  destruct (find (key_address key) (new_Wallet (Some data))) as [account|] eqn:Hfind.
  - rewrite (delete_other_object key _ account active Hfind Hact).
    + simpl. now rewrite Hf.
    + apply Hnew. unfold find, OrderedSet.find in Hfind.
      now apply find_some in Hfind as [Hin _].
  - unfold delete. rewrite Hfind, Hact. simpl. now rewrite Hf.
Qed.

(** C4 at a concrete input. A wallet is constructed over the persisted
    session [alice_session] (one account, which is the active one): the
    active account is registered. Deleting that account's key empties the
    registry and leaves the active account set, so the active account is
    no longer in the registry: the loaded active account and the loaded
    registry entry are two objects, and [delete] compares objects. *)
Theorem delete_after_load_keeps_active_account :
  let s0 := new_Wallet (Some alice_session) in
  let s1 := delete alice_key s0 in
  active_registered s0 = true /\
  option_map fields (activeAccount s0) = Some alice /\
  option_map fields (find (address alice) s0) = Some alice /\
  _accounts s1 = [] /\
  option_map fields (activeAccount s1) = Some alice /\
  active_registered s1 = false.
Proof. vm_compute. repeat split. Qed.

(** The same after an install on a new wallet, when the answers arrive
    in the order of the queries: [select] and [add] each asked for the
    first account, the registry holds the object of the later answer and
    the active account is the object of the earlier one. *)
Example delete_after_install_keeps_active_account :
  let env := mainnet 99 browser_wallet in
  let s0 := final env [] (install env "MetaMask" [] (new_Wallet None)) in
  let s1 := delete alice_key s0 in
  active_registered s0 = true /\
  active_is_entry s0 = false /\
  map fields (_accounts s1) = [bob] /\
  option_map fields (activeAccount s1) = Some alice /\
  active_registered s1 = false.
Proof. vm_compute. repeat split. Qed.

(** The persisted session above is the one a wallet writes after
    selecting the account. *)
Example alice_session_is_saved :
  let s := snd (select (mainnet 99 single_account_wallet) alice_key
                       (set_installedProviderNames ["MetaMask"] (new_Wallet None))) in
  cookie s = Some alice_session /\ active_registered s = true.
Proof. vm_compute. repeat split. Qed.

(** *** Picking what runs next *)

Section Extract.

Context {A : Type}.

Lemma extract_Permutation (k : nat) (l rest : list A) (x : A) :
  extract k l = Some (x, rest) -> Permutation l (x :: rest).
Proof.
  revert k rest. induction l as [|y l IH]; intros k rest H; simpl in H;
    [discriminate|].
  destruct k as [|k].
  - injection H as <- <-. reflexivity.
  - destruct (extract k l) as [[z rest']|] eqn:E; [|discriminate].
    injection H as <- <-. rewrite (IH _ _ E). apply perm_swap.
Qed.


Lemma extract_Forall (P : A -> Prop) (k : nat) (l rest : list A) (x : A) :
  extract k l = Some (x, rest) -> Forall P l -> P x /\ Forall P rest.
Proof.
  intros E Hall. apply extract_Permutation in E.
  apply (Permutation_Forall E) in Hall. now inversion Hall.
Qed.


End Extract.


(** The two remainders a position can have among two choices, and the
    one it has when there is one choice. *)
Lemma mod_2_cases (n : nat) : (n mod 2 = 0 \/ n mod 2 = 1)%nat.
Proof. pose proof (Nat.mod_upper_bound n 2). lia. Qed.

(** One step of the schedule. *)
Lemma await_all_step
    (env : Env) (n : nat) (schedule : list nat) (waiting : list Pending)
    (failed : option JsError) (s : State) :
  await_all env (n :: schedule) waiting failed s =
    match extract (n mod (List.length waiting
                          + if all_settled failed waiting then 1 else 0))
                  waiting with
    | None => mkSettled (outcome_of failed) s waiting
    | Some (p, rest) =>
        match turn env p s with
        | (Normal ready, s') => await_all env schedule (ready ++ rest) failed s'
        | (Throws e, s') =>
            await_all env schedule rest
              (match failed with
               | Some _ => failed
               | None => if joined p then Some e else None
               end) s'
        end
    end.
Proof. reflexivity. Qed.

Lemma afterwards_step
    (env : Env) (n : nat) (schedule : list nat) (waiting : list Pending)
    (s : State) :
  afterwards env (n :: schedule) waiting s =
    match extract (n mod List.length waiting) waiting with
    | None => s
    | Some (p, rest) =>
        match turn env p s with
        | (Normal ready, s') => afterwards env schedule (ready ++ rest) s'
        | (Throws _, s') => afterwards env schedule rest s'
        end
    end.
Proof. reflexivity. Qed.

(** With nothing waiting, [Promise.all] has resolved and the caller goes
    on. *)
Lemma await_all_nothing (env : Env) (schedule : list nat) (s : State) :
  await_all env schedule [] None s = mkSettled (Normal tt) s [].
Proof.
  destruct schedule as [|n schedule]; [reflexivity|].
  rewrite await_all_step. reflexivity.
Qed.

Lemma afterwards_nothing (env : Env) (schedule : list nat) (s : State) :
  afterwards env schedule [] s = s.
Proof.
  destruct schedule as [|n schedule]; [reflexivity|].
  rewrite afterwards_step. reflexivity.
Qed.

(** *** [install] *)

Section Install.

Variable env : Env.
Variable walletName : WALLET_NAME.

Lemma NameSet_delete_not_in (set : list WALLET_NAME) :
  ~ In walletName (NameSet.delete walletName set).
Proof.
  unfold NameSet.delete. intros H. apply filter_In in H as [_ H].
  now rewrite String.eqb_refl in H.
Qed.

(** The state the [catch] of [install] leaves: the accounts and the
    active account are those it found; the name is in no set any more,
    neither in the wallet nor in the persisted record; the persisted
    record was written (or removed) last and is the one of the wallet's
    fields. *)
Lemma install_catch_clean (s : State) :
  let s' := install_catch walletName s in
  _accounts s' = _accounts s /\
  activeAccount s' = activeAccount s /\
  installedProviderNames s' = NameSet.delete walletName (installedProviderNames s) /\
  providers s' = NameSet.delete walletName (providers s) /\
  cookie_log s' =
    (cookie_log s ++
     [match persisted_form s' with
      | Some data => CookieSet data
      | None => CookieRemove
      end])%list /\
  ~ In walletName (installedProviderNames s') /\
  ~ In walletName (providers s') /\
  cookie s' = persisted_form s' /\
  (forall data, cookie s' = Some data ->
                ~ In walletName (data_installedProviderNames data)).
Proof.
  unfold install_catch. cbv zeta.
  set (s1 := set_installedProviderNames _ _).
  destruct (save_fields s1) as (Hacc & Hact & Hnames & Hprov).
  assert (~ In walletName (installedProviderNames (save s1))) as Hnotin.
  { rewrite Hnames. apply NameSet_delete_not_in. }
  split; [exact Hacc|]. split; [exact Hact|]. split; [exact Hnames|].
  split; [exact Hprov|]. split.
  { rewrite save_cookie_log. unfold persisted_form.
    rewrite blob_save, Hacc, Hact, Hnames.
    destruct (activeAccount s1); [reflexivity|].
    destruct (_accounts s1); [|reflexivity].
    destruct (installedProviderNames s1); reflexivity. }
  split; [exact Hnotin|]. split.
  { rewrite Hprov. apply NameSet_delete_not_in. }
  split; [apply save_persisted|].
  intros data Hdata. rewrite save_persisted in Hdata.
  unfold persisted_form in Hdata.
  assert (data = blob (save s1)) as ->.
  { destruct (activeAccount (save s1)), (_accounts (save s1)),
             (installedProviderNames (save s1)); congruence. }
  exact Hnotin.
Qed.

(** Whatever the [try] of [install] throws is rethrown after the
    [catch], in the turn in which it is thrown. *)
Lemma install_rethrows
    (provider : ProviderInstance) (schedule : list nat) (s s1 : State)
    (e : JsError) (later : list Pending) :
  provider_factory env walletName = Some provider ->
  install_try env walletName provider schedule
    (set_providers (NameSet.add walletName (providers s)) s)
    = mkSettled (Throws e) s1 later ->
  install env walletName schedule s
    = mkSettled (Throws e) (install_catch walletName s1) later.
Proof.
  intros Hfactory Htry.
  unfold install, after, addProvider, or_catch.
  rewrite Hfactory, Htry. reflexivity.
Qed.

(** When the provider's [connect] throws, or its [getAccounts] throws,
    or the awaited registration of the reported accounts throws (the
    first [add] to fail, as the answers arrive), [install] rethrows that
    exception in the same turn, whatever the schedule. The wallet is then
    the one the failure found, [s1], without the name: same accounts and
    active account, the name in neither set, the provider instance
    released, and a persisted record written last that is the one of the
    wallet's fields. When [connect] or [getAccounts] throws, [s1] is the
    wallet from before with the provider instance acquired. *)
Lemma install_failure_rolls_back
    (provider : ProviderInstance) (schedule : list nat) (s : State) (e : JsError) :
  provider_factory env walletName = Some provider ->
  let s0 := set_providers (NameSet.add walletName (providers s)) s in
  (provider_connect provider = Throws e
   \/ (provider_connect provider = Normal tt /\
       provider_getAccounts provider = Throws e)
   \/ (exists accounts,
         provider_connect provider = Normal tt /\
         provider_getAccounts provider = Normal accounts /\
         accounts <> [] /\
         wrong_network env accounts (accountsInNetwork env accounts) = None /\
         settlement (register_accounts env schedule
                       (hd_error (accountsInNetwork env accounts)) accounts s0)
           = Throws e)) ->
  exists s1 s' later,
    install env walletName schedule s = mkSettled (Throws e) s' later /\
    (provider_connect provider = Throws e \/
     provider_getAccounts provider = Throws e -> s1 = s0 /\ later = []) /\
    _accounts s' = _accounts s1 /\
    activeAccount s' = activeAccount s1 /\
    installedProviderNames s'
      = NameSet.delete walletName (installedProviderNames s1) /\
    providers s' = NameSet.delete walletName (providers s1) /\
    cookie_log s' =
      (cookie_log s1 ++
       [match persisted_form s' with
        | Some data => CookieSet data
        | None => CookieRemove
        end])%list /\
    ~ In walletName (installedProviderNames s') /\
    ~ In walletName (providers s') /\
    cookie s' = persisted_form s' /\
    (forall data, cookie s' = Some data ->
                  ~ In walletName (data_installedProviderNames data)).
Proof.
  intros Hfactory s0 Hthrows.
  assert (exists s1 later,
            install_try env walletName provider schedule s0
              = mkSettled (Throws e) s1 later /\
            (provider_connect provider = Throws e \/
             provider_getAccounts provider = Throws e -> s1 = s0 /\ later = []))
    as (s1 & later & Htry & Hearly).
  { unfold install_try, after, lift, rejected.
    destruct Hthrows as [Hc | [[Hc Hg] | (accounts & Hc & Hg & Hne & Hnet & Hreg)]].
    - rewrite Hc. exists s0, []. now split.
    - rewrite Hc, Hg. exists s0, []. now split.
    - rewrite Hc, Hg. destruct accounts as [|first rest]; [congruence|].
      cbv zeta. rewrite Hnet. unfold and_then.
      destruct (register_accounts env schedule _ _ s0) as [[[]|e'] s1 later];
        simpl in Hreg; [discriminate|].
      injection Hreg as ->. exists s1, later. split; [reflexivity|].
      intros [H|H]; congruence. }
  exists s1, (install_catch walletName s1), later. split.
  - exact (install_rethrows provider schedule s s1 e later Hfactory Htry).
  - split; [exact Hearly|]. apply install_catch_clean.
Qed.

End Install.

(** The account source fails on the third query, the one of the [add] of
    the second account; the answers arrive in the order of the queries. *)
Lemma install_failure_rolls_back_witness :
  exists s1 s' later,
    install (mainnet 2 browser_wallet) "MetaMask" [] (new_Wallet None)
      = mkSettled (Throws network_down) s' later /\
    (provider_connect browser_wallet = Throws network_down \/
     provider_getAccounts browser_wallet = Throws network_down ->
     s1 = set_providers (NameSet.add "MetaMask" (providers (new_Wallet None)))
            (new_Wallet None) /\ later = []) /\
    _accounts s' = _accounts s1 /\
    activeAccount s' = activeAccount s1 /\
    installedProviderNames s'
      = NameSet.delete "MetaMask" (installedProviderNames s1) /\
    providers s' = NameSet.delete "MetaMask" (providers s1) /\
    cookie_log s' =
      (cookie_log s1 ++
       [match persisted_form s' with
        | Some data => CookieSet data
        | None => CookieRemove
        end])%list /\
    ~ In "MetaMask" (installedProviderNames s') /\
    ~ In "MetaMask" (providers s') /\
    cookie s' = persisted_form s' /\
    (forall data, cookie s' = Some data ->
                  ~ In "MetaMask" (data_installedProviderNames data)).
Proof.
  apply (install_failure_rolls_back (mainnet 2 browser_wallet) "MetaMask"
           browser_wallet [] (new_Wallet None) network_down).
  - reflexivity.
  - right; right. exists [alice_key; bob_key].
    split; [reflexivity|]. split; [reflexivity|].
    split; [discriminate|]. split; reflexivity.
Defined.

(** A provider whose [getAccounts] throws. *)
Example install_getAccounts_throws :
  let provider := mkProviderInstance (Normal tt) (Throws network_down) in
  let result := install (mainnet 99 provider) "MetaMask" []
                        (new_Wallet (Some alice_session)) in
  settlement result = Throws network_down /\
  installedProviderNames (wallet result) = [] /\
  providers (wallet result) = [] /\
  cookie (wallet result) = Some (mkWalletData [alice] (Some alice) []) /\
  unanswered result = [].
Proof. vm_compute. repeat split. Qed.

(** A successful install on a new wallet: both accounts are registered,
    the first is active, the name is installed and persisted. The first
    account was asked for twice: once by [select], once by [add]. *)
Example install_succeeds :
  let result := install (mainnet 99 browser_wallet) "MetaMask" [] (new_Wallet None) in
  settlement result = Normal tt /\
  map fields (_accounts (wallet result)) = [alice; bob] /\
  option_map fields (activeAccount (wallet result)) = Some alice /\
  installedProviderNames (wallet result) = ["MetaMask"] /\
  providers (wallet result) = ["MetaMask"] /\
  cookie (wallet result)
    = Some (mkWalletData [alice; bob] (Some alice) ["MetaMask"]) /\
  queries (wallet result) = 3%nat /\
  unanswered result = [].
Proof. vm_compute. repeat split. Qed.

(** The answers may arrive in another order: here the second account's
    first, then the one for the [add] of the first account, after which
    the install completes while the [select] still waits. The registry is
    in the order of the answers. *)
Example install_answers_out_of_order :
  let env := mainnet 99 browser_wallet in
  let result := install env "MetaMask" [2; 1]%nat (new_Wallet None) in
  settlement result = Normal tt /\
  map fields (_accounts (wallet result)) = [bob; alice] /\
  option_map fields (activeAccount (wallet result)) = Some bob /\
  unanswered result = [PendingSelect 0 (address alice)] /\
  option_map fields (activeAccount (final env [] result)) = Some alice /\
  cookie (final env [] result)
    = Some (mkWalletData [bob; alice] (Some alice) ["MetaMask"]).
Proof. vm_compute. repeat split. Qed.

(** An [add] that is still waiting when the install fails is not
    cancelled: the second query fails first, the install is rolled back,
    and the account of the third query is registered and persisted
    afterwards. *)
Example install_failure_does_not_cancel :
  let env := mainnet 1 browser_wallet in
  let result := install env "MetaMask" [1]%nat (new_Wallet None) in
  settlement result = Throws network_down /\
  _accounts (wallet result) = [] /\
  cookie (wallet result) = None /\
  unanswered result
    = [PendingSelect 0 (address alice); PendingAdd 2 (address bob)] /\
  map fields (_accounts (final env [] result)) = [alice; bob] /\
  installedProviderNames (final env [] result) = [] /\
  providers (final env [] result) = [] /\
  cookie (final env [] result) = Some (mkWalletData [alice; bob] (Some alice) []).
Proof. vm_compute. repeat split. Qed.

(** The [catch] of [install] may also run after steps that were ready
    when [Promise.all] rejected: here the second query fails first, and
    the third is answered before [install] goes on. *)
Example install_failure_found_later :
  let env := mainnet 1 browser_wallet in
  let result := install env "MetaMask" [1; 1; 1]%nat (new_Wallet None) in
  settlement result = Throws network_down /\
  map fields (_accounts (wallet result)) = [bob] /\
  installedProviderNames (wallet result) = [] /\
  providers (wallet result) = [] /\
  cookie (wallet result) = Some (mkWalletData [bob] (Some bob) []) /\
  unanswered result = [PendingSelect 0 (address alice)].
Proof. vm_compute. repeat split. Qed.

(** No accounts: the provider stays acquired and is not marked
    installed. *)
Example install_no_accounts :
  let provider := mkProviderInstance (Normal tt) (Normal []) in
  let result := install (mainnet 99 provider) "MetaMask" [] (new_Wallet None) in
  settlement result = Normal tt /\
  installedProviderNames (wallet result) = [] /\
  _accounts (wallet result) = [] /\
  cookie_log (wallet result) = [].
Proof. vm_compute. repeat split. Qed.

(** A new wallet, a provider that reports one account, and an account
    source whose first query fails: the query of the [select] fails, the
    one of the [add] is answered. *)
Lemma selecting_throws (s : State) :
  turn first_query_fails select_of_alice s = (Throws network_down, s).
Proof. reflexivity. Qed.

Lemma adding_returns (s : State) :
  exists s', turn first_query_fails add_of_alice s = (Normal [], s').
Proof. eexists. reflexivity. Qed.

Lemma select_left_waiting (schedule : list nat) (s : State) :
  await_all first_query_fails schedule [select_of_alice] None s
    = mkSettled (Normal tt) s []
  \/ await_all first_query_fails schedule [select_of_alice] None s
    = mkSettled (Normal tt) s [select_of_alice].
Proof.
  destruct schedule as [|n schedule]; [now right|].
  rewrite await_all_step.
  change (n mod _)%nat with (n mod 2)%nat.
  destruct (mod_2_cases n) as [-> | ->]; cbn [extract].
  - rewrite selecting_throws. cbn [joined select_of_alice]. left.
    apply await_all_nothing.
  - now right.
Qed.

Lemma add_left_waiting (schedule : list nat) (s : State) :
  await_all first_query_fails schedule [add_of_alice] None s
    = mkSettled (Normal tt) (snd (turn first_query_fails add_of_alice s)) [].
Proof.
  destruct schedule as [|n schedule]; [reflexivity|].
  rewrite await_all_step.
  change (n mod _)%nat with (n mod 1)%nat. rewrite Nat.mod_1_r. cbn [extract].
  destruct (adding_returns s) as (s' & ->). cbn [snd app].
  apply await_all_nothing.
Qed.

Lemma both_waiting (schedule : list nat) (s : State) :
  await_all first_query_fails schedule [select_of_alice; add_of_alice] None s
    = mkSettled (Normal tt) (snd (turn first_query_fails add_of_alice s)) []
  \/ await_all first_query_fails schedule [select_of_alice; add_of_alice] None s
    = mkSettled (Normal tt) (snd (turn first_query_fails add_of_alice s))
                [select_of_alice].
Proof.
  destruct schedule as [|n schedule]; [now left|].
  rewrite await_all_step.
  change (n mod _)%nat with (n mod 2)%nat.
  destruct (mod_2_cases n) as [-> | ->]; cbn [extract].
  - rewrite selecting_throws. cbn [joined select_of_alice]. left.
    apply add_left_waiting.
  - destruct (adding_returns s) as (s' & Hs'). rewrite Hs'. cbn [snd app].
    apply select_left_waiting.
Qed.

Lemma select_afterwards (schedule : list nat) (s : State) :
  afterwards first_query_fails schedule [select_of_alice] s = s.
Proof.
  destruct schedule as [|n schedule]; [reflexivity|].
  rewrite afterwards_step.
  change (n mod _)%nat with (n mod 1)%nat. rewrite Nat.mod_1_r. cbn [extract].
  rewrite selecting_throws. apply afterwards_nothing.
Qed.

(** C5. [install] does not wait for [this.select(firstAccount)]. On a new
    wallet, with a provider that reports one account and an account
    source whose first query fails (the query of that [select]: an
    awaited [select] throws there, and so does the step of the [select]
    of [install]), [install] completes under every schedule: nothing is
    rethrown and nothing is rolled back. The name is among the installed
    providers, the provider instance is held and the name is in the
    persisted record, when [install] goes on and after everything that
    was left waiting has run. *)
Theorem install_select_failure_unseen (schedule later : list nat) :
  let result := install first_query_fails "MetaMask" schedule (new_Wallet None) in
  fst (select first_query_fails alice_key (new_Wallet None))
    = Throws network_down /\
  (forall s, fst (turn first_query_fails (PendingSelect 0 (address alice)) s)
             = Throws network_down) /\
  settlement result = Normal tt /\
  installedProviderNames (wallet result) = ["MetaMask"] /\
  providers (wallet result) = ["MetaMask"] /\
  cookie (wallet result)
    = Some (mkWalletData [alice] (Some alice) ["MetaMask"]) /\
  installedProviderNames (final first_query_fails later result) = ["MetaMask"] /\
  providers (final first_query_fails later result) = ["MetaMask"] /\
  cookie (final first_query_fails later result)
    = Some (mkWalletData [alice] (Some alice) ["MetaMask"]).
Proof.
  intros result.
  split; [reflexivity|]. split; [reflexivity|].
  assert (result =
            or_catch
              (and_then
                 (await_all first_query_fails schedule
                            [select_of_alice; add_of_alice] None)
                 (fun _ =>
                    update (fun s =>
                              save (set_installedProviderNames
                                      (NameSet.add "MetaMask"
                                         (installedProviderNames s)) s))))
              (fun e => update (install_catch "MetaMask") ;;; throw e)
              (set_queries 2
                 (set_providers ["MetaMask"] (new_Wallet None)))) as ->
    by reflexivity.
  unfold final, or_catch, and_then.
  destruct (both_waiting schedule
              (set_queries 2 (set_providers ["MetaMask"] (new_Wallet None))))
    as [-> | ->];
    cbn [update settlement wallet unanswered];
    rewrite ?afterwards_nothing, ?select_afterwards;
    vm_compute; repeat split.
Qed.

End WalletFacts.

(** ** More on the EVM provider *)

Module ProviderMoreFacts.
Import Web3EvmProvider ProviderOps ProviderSamples ProviderMoreSamples.
Local Open Scope provider_scope.

Ltac run_provider := ProviderFacts.run_provider.

(** *** Signature reordering, whatever the signature holds *)

Lemma reorder_pieces (p r s v : string) :
  String.length p = 2%nat ->
  String.length r = 64%nat -> String.length s = 64%nat ->
  String.length v = 2%nat ->
  _reorderSignatureRsvToVrs (p ++ r ++ s ++ v) =
  Normal ("0x" ++ JsString.toString16 (normalized_v (JsString.parseInt v 16))
               ++ r ++ s).
Proof.
  intros Hp Hr Hs Hv. unfold _reorderSignatureRsvToVrs.
  assert (JsString.len (p ++ r ++ s ++ v) = 132) as ->.
  { unfold JsString.len. rewrite !length_append, Hp, Hr, Hs, Hv. reflexivity. }
  assert (JsString.substr (p ++ r ++ s ++ v) (-2) None = v) as ->.
  { rewrite <- !append_assoc.
    replace (-2) with (- JsString.len v)
      by (unfold JsString.len; rewrite Hv; reflexivity).
    apply substr_suffix. destruct v; [discriminate | congruence]. }
  assert (JsString.substr (p ++ r ++ s ++ v) 2 (Some 64) = r) as ->.
  { replace 2 with (JsString.len p) by (unfold JsString.len; now rewrite Hp).
    replace 64 with (JsString.len r) by (unfold JsString.len; now rewrite Hr).
    apply substr_middle. }
  assert (JsString.substr (p ++ r ++ s ++ v) 66 (Some 64) = s) as ->.
  { rewrite <- (append_assoc p r).
    replace 66 with (JsString.len (p ++ r))
      by (unfold JsString.len; rewrite length_append, Hp, Hr; reflexivity).
    replace 64 with (JsString.len s) by (unfold JsString.len; now rewrite Hs).
    apply substr_middle. }
  reflexivity.
Qed.

(** X1. The first two characters of a signature are not looked at: a
    132-character string with any two characters in place of [0x] is
    reordered like the one with [0x], and the result starts with [0x]
    whatever stood there: it is [0x], the new [v], then [r] and [s]. *)
Theorem reorder_ignores_prefix (p r s v : string) :
  String.length p = 2%nat ->
  String.length r = 64%nat -> String.length s = 64%nat ->
  String.length v = 2%nat ->
  _reorderSignatureRsvToVrs (p ++ r ++ s ++ v)
    = _reorderSignatureRsvToVrs ("0x" ++ r ++ s ++ v) /\
  exists v' : string,
    _reorderSignatureRsvToVrs (p ++ r ++ s ++ v) = Normal ("0x" ++ v' ++ r ++ s).
Proof.
  intros Hp Hr Hs Hv.
  rewrite (reorder_pieces p r s v Hp Hr Hs Hv).
  rewrite (reorder_pieces "0x" r s v eq_refl Hr Hs Hv).
  split; [reflexivity|]. eexists. reflexivity.
Qed.

Lemma reorder_ignores_prefix_witness :
  _reorderSignatureRsvToVrs ("zz" ++ sample_r ++ sample_s ++ "1c")
    = _reorderSignatureRsvToVrs ("0x" ++ sample_r ++ sample_s ++ "1c") /\
  exists v' : string,
    _reorderSignatureRsvToVrs ("zz" ++ sample_r ++ sample_s ++ "1c")
      = Normal ("0x" ++ v' ++ sample_r ++ sample_s).
Proof.
  apply (reorder_ignores_prefix "zz" sample_r sample_s "1c"); reflexivity.
Defined.

Lemma isHexDigit_hexChars (c : ascii) :
  isHexDigit c = true -> In c hexChars.
Proof.
  intros H.
  assert (existsb (Ascii.eqb c) hexChars = true) as Hex.
  { destruct c as [[] [] [] [] [] [] [] []];
      try discriminate H; reflexivity. }
  apply existsb_exists in Hex as (x & Hin & Heq).
  apply Ascii.eqb_eq in Heq. now subst.
Qed.

Lemma hex_pairs_well_treated :
  forallb (fun c1 =>
    forallb (fun c2 => well_treated (String c1 (String c2 ""))) hexChars)
    hexChars = true.
Proof. vm_compute. reflexivity. Qed.

(** X2. When the last two characters of a well-formed signature are
    hexadecimal digits (either case), the reordered signature has 132
    characters again, and its [v] (now in front) is a two-digit number
    between 27 and 255: the [v] that was read plus 27 when that was below
    27, and the [v] that was read itself when it was 27 or more. *)
Theorem reorder_hex_v (r s : string) (c1 c2 : ascii) :
  String.length r = 64%nat -> String.length s = 64%nat ->
  isHexDigit c1 = true -> isHexDigit c2 = true ->
  exists (v' : string) (n m : Z),
    _reorderSignatureRsvToVrs ("0x" ++ r ++ s ++ String c1 (String c2 ""))
      = Normal ("0x" ++ v' ++ r ++ s) /\
    String.length v' = 2%nat /\
    String.length ("0x" ++ v' ++ r ++ s) = 132%nat /\
    JsString.parseInt (String c1 (String c2 "")) 16 = Some n /\
    JsString.parseInt v' 16 = Some m /\
    27 <= m <= 255 /\
    m = (if n <? 27 then n + 27 else n).
Proof.
  intros Hr Hs H1 H2.
  apply isHexDigit_hexChars in H1. apply isHexDigit_hexChars in H2.
  pose proof hex_pairs_well_treated as Hall.
  rewrite forallb_forall in Hall. specialize (Hall c1 H1).
  rewrite forallb_forall in Hall. specialize (Hall c2 H2).
  set (v := String c1 (String c2 "")) in *.
  unfold well_treated in Hall.
  destruct (JsString.parseInt v 16) as [n|] eqn:Hn; [|discriminate].
  set (out := JsString.toString16 (normalized_v (Some n))) in *.
  apply andb_true_iff in Hall as [Hlen Hrest].
  destruct (JsString.parseInt out 16) as [m|] eqn:Hm; [|discriminate].
  apply andb_true_iff in Hrest as [Hrange Hval].
  apply andb_true_iff in Hrange as [Hlo Hhi].
  exists out, n, m. repeat split.
  - rewrite (reorder_pieces "0x" r s v eq_refl Hr Hs eq_refl), Hn. reflexivity.
  - now apply Nat.eqb_eq in Hlen.
  - rewrite !length_append, Hr, Hs. apply Nat.eqb_eq in Hlen. rewrite Hlen.
    reflexivity.
  - exact Hm.
  - lia.
  - lia.
  - now apply Z.eqb_eq in Hval.
Qed.

Lemma reorder_hex_v_witness :
  exists (v' : string) (n m : Z),
    _reorderSignatureRsvToVrs ("0x" ++ sample_r ++ sample_s ++ "1B")
      = Normal ("0x" ++ v' ++ sample_r ++ sample_s) /\
    String.length v' = 2%nat /\
    String.length ("0x" ++ v' ++ sample_r ++ sample_s) = 132%nat /\
    JsString.parseInt "1B" 16 = Some n /\
    JsString.parseInt v' 16 = Some m /\
    27 <= m <= 255 /\
    m = (if n <? 27 then n + 27 else n).
Proof.
  apply (reorder_hex_v sample_r sample_s "1" "B"); reflexivity.
Defined.

(** A [v] that is no number is not refused: it comes out as [NaN]. *)
Example reorder_not_a_number :
  _reorderSignatureRsvToVrs ("0x" ++ sample_r ++ sample_s ++ "zz")
    = Normal ("0x" ++ "NaN" ++ sample_r ++ sample_s).
Proof. reflexivity. Qed.

(** *** Accounts, transactions and calls *)

(** What [getAccounts] reports on a network that maps to a chain. *)
Lemma getAccounts_mapped
    (this : Provider) (addresses : list Address) (chain : ChainIdentifier)
    (log log' : Log) :
  eth_getAccounts this log = Normal addresses ->
  getChain this (log ++ [EvGetAccounts])%list = (Normal (Some chain), log') ->
  truthy chain = true ->
  getAccounts this log =
    (Normal (map (fun a => mkAccountKey (JsString.toLowerCase a) chain) addresses),
     log').
Proof.
  intros Hlist Hchain Htruthy.
  rewrite (ProviderFacts.getAccounts_listed _ _ _ Hlist).
  unfold mapToAccounts, bind, ret. rewrite Hchain, Htruthy. reflexivity.
Qed.

Lemma existsb_key_address (chain : ChainIdentifier) (source : Address)
                          (addresses : list Address) :
  existsb (fun a => String.eqb (key_address a) source)
          (map (fun a => mkAccountKey (JsString.toLowerCase a) chain) addresses)
  = existsb (fun a => String.eqb (JsString.toLowerCase a) source) addresses.
Proof.
  induction addresses as [|a l IH]; simpl; [reflexivity | now rewrite IH].
Qed.

(** X28. On a network that maps to a chain, [getAccounts] reports the
    addresses the backend lists, in their order and as many (duplicates
    included), each in lower case and each with that chain. *)
Theorem getAccounts_report
    (this : Provider) (addresses : list Address) (chain : ChainIdentifier)
    (log log' : Log) :
  eth_getAccounts this log = Normal addresses ->
  getChain this (log ++ [EvGetAccounts])%list = (Normal (Some chain), log') ->
  truthy chain = true ->
  exists accounts,
    getAccounts this log = (Normal accounts, log') /\
    map key_address accounts = map JsString.toLowerCase addresses /\
    Forall (fun a => key_chain a = chain /\
                     JsString.toLowerCase (key_address a) = key_address a)
           accounts.
Proof.
  intros Hlist Hchain Htruthy.
  rewrite (getAccounts_mapped this addresses chain log log' Hlist Hchain Htruthy).
  eexists. split; [reflexivity|]. split.
  - rewrite map_map. reflexivity.
  - apply Forall_forall. intros a Hin. apply in_map_iff in Hin as (x & <- & _).
    split; [reflexivity | apply toLowerCase_idempotent].
Qed.

Lemma getAccounts_report_witness :
  exists accounts,
    getAccounts sample_provider [] = (Normal accounts, [EvGetAccounts; EvGetNetwork]) /\
    map key_address accounts = map JsString.toLowerCase [sample_address] /\
    Forall (fun a => key_chain a = "ETHEREUM" /\
                     JsString.toLowerCase (key_address a) = key_address a)
           accounts.
Proof.
  apply (getAccounts_report sample_provider [sample_address] "ETHEREUM" []);
    reflexivity.
Defined.

(** X3. On a network that maps to a chain, [transact] forwards the
    transaction exactly when its source is, character for character, the
    lower-cased form of one of the addresses the backend lists; otherwise
    it throws "Not connected to account" and sends nothing. The
    transaction is forwarded as [{from, to, value, data}]. *)
Theorem transact_forwards_iff
    (this : Provider) (t : Transaction) (addresses : list Address)
    (chain : ChainIdentifier) (log log' : Log) :
  eth_getAccounts this log = Normal addresses ->
  getChain this (log ++ [EvGetAccounts])%list = (Normal (Some chain), log') ->
  truthy chain = true ->
  transact this t log =
    if existsb (fun a => String.eqb (JsString.toLowerCase a) (source t)) addresses
    then
      (eth_sendTransaction this log'
         (mkTxObject (source t) (destination t) (value t) (data t)),
       (log' ++ [EvSendTransaction
                   (mkTxObject (source t) (destination t) (value t) (data t))])%list)
    else (Throws (NOT_CONNECTED (source t)), log').
Proof.
  intros Hlist Hchain Htruthy. unfold transact, bind.
  rewrite (getAccounts_mapped this addresses chain log log' Hlist Hchain Htruthy).
  rewrite existsb_key_address.
  destruct (existsb (fun a => String.eqb (JsString.toLowerCase a) (source t))
                    addresses); reflexivity.
Qed.

Lemma transact_forwards_iff_witness :
  transact sample_provider lower_case_transaction [] =
    (Normal "0xfeed",
     [EvGetAccounts; EvGetNetwork;
      EvSendTransaction
        (mkTxObject (source lower_case_transaction)
                    (destination lower_case_transaction)
                    (value lower_case_transaction)
                    (data lower_case_transaction))]).
Proof.
  apply (transact_forwards_iff sample_provider lower_case_transaction
           [sample_address] "ETHEREUM" [] [EvGetAccounts; EvGetNetwork]);
    reflexivity.
Defined.

(** X4. [call] and [transact] treat the source alike: for the same
    backend answers either both fail with the same error after the same
    questions, or both pass the request on, [transact] to
    [eth.sendTransaction] with the value and [call] to [eth.call] without
    it. *)
Theorem call_like_transact (this : Provider) (t : Transaction) (log : Log) :
  (exists e log',
     transact this t log = (Throws e, log') /\
     call this t log = (Throws e, log'))
  \/
  (exists log',
     transact this t log =
       (eth_sendTransaction this log'
          (mkTxObject (source t) (destination t) (value t) (data t)),
        (log' ++ [EvSendTransaction
                    (mkTxObject (source t) (destination t) (value t) (data t))])%list) /\
     call this t log =
       (eth_call this log' (mkTxObject (source t) (destination t) None (data t)),
        (log' ++ [EvCall (mkTxObject (source t) (destination t) None (data t))])%list)).
Proof.
  unfold transact, call, bind.
  destruct (getAccounts this log) as [[accounts|e] log'].
  - destruct (existsb _ accounts); simpl.
    + right. exists log'. split; reflexivity.
    + left. exists (NOT_CONNECTED (source t)), log'. split; reflexivity.
  - left. exists e, log'. split; reflexivity.
Qed.

(** X5. On a network that maps to no chain, every transaction and every
    call is refused with "Not connected to account", whatever its source
    and whatever addresses the backend lists. *)
Theorem unmapped_network_refuses_all
    (this : Provider) (t : Transaction) (addresses : list Address)
    (log log' : Log) :
  eth_getAccounts this log = Normal addresses ->
  getChain this (log ++ [EvGetAccounts])%list = (Normal None, log') ->
  transact this t log = (Throws (NOT_CONNECTED (source t)), log') /\
  call this t log = (Throws (NOT_CONNECTED (source t)), log').
Proof.
  intros Hlist Hchain.
  assert (getAccounts this log = (Normal [], log')) as Hacc.
  { rewrite (ProviderFacts.getAccounts_listed _ _ _ Hlist).
    unfold mapToAccounts, bind, ret. now rewrite Hchain. }
  unfold transact, call, bind. rewrite Hacc. split; reflexivity.
Qed.

Lemma unmapped_network_refuses_all_witness :
  transact unknown_network_provider lower_case_transaction [] =
    (Throws (NOT_CONNECTED (source lower_case_transaction)),
     [EvGetAccounts; EvGetNetwork]) /\
  call unknown_network_provider lower_case_transaction [] =
    (Throws (NOT_CONNECTED (source lower_case_transaction)),
     [EvGetAccounts; EvGetNetwork]).
Proof.
  apply (unmapped_network_refuses_all unknown_network_provider
           lower_case_transaction [sample_address] []); reflexivity.
Defined.

(** *** [getChain] *)

(** X6. [getChain] asks [web3] for the network id even when
    [window.ethereum.chainId] is there, and when that question fails the
    chain is [undefined], whatever [window.ethereum.chainId] holds. *)
Theorem getChain_network_failure
    (this : Provider) (log : Log) (e : JsError) :
  version_getNetwork this log = Throws e ->
  getChain this log =
    (Normal None,
     match window_ethereum_chainId this with
     | Normal _ => (log ++ [EvGetNetwork])%list
     | Throws _ => log
     end).
Proof.
  intros H. run_provider.
  destruct (window_ethereum_chainId this); [now rewrite H | reflexivity].
Qed.

Lemma getChain_network_failure_witness :
  getChain offline_provider [] = (Normal None, [EvGetNetwork]).
Proof.
  apply (getChain_network_failure offline_provider [] (Error "Network error")).
  reflexivity.
Defined.

(** X7. When [window.ethereum.chainId] is there and the network question
    is answered, the chain is the one of [window.ethereum.chainId]; the
    network id that [web3] reports plays no part. *)
Theorem getChain_prefers_window
    (this : Provider) (log : Log) (chainId networkId : string) :
  window_ethereum_chainId this = Normal (Some chainId) ->
  version_getNetwork this log = Normal networkId ->
  getChain this log =
    (Normal (match Number_ this chainId with
             | Some n => CHAIN_IDENTIFIER_BY_NETWORK_ID this n
             | None => None
             end),
     (log ++ [EvGetNetwork])%list).
Proof. intros Hw Hn. run_provider. now rewrite Hw, Hn. Qed.

Lemma getChain_prefers_window_witness :
  getChain injected_provider [] = (Normal (Some "RINKEBY"), [EvGetNetwork]).
Proof.
  apply (getChain_prefers_window injected_provider [] "4" "1"); reflexivity.
Defined.

(** X8. A pushed ["chainChanged"] id reaches the handler as the chain
    that [getChain] resolves for the same id (with no
    [window.ethereum.chainId] in the way); an id that [getChain] resolves
    to [undefined] makes the listener throw "Unexpected chain id". *)
Theorem chainChanged_like_getChain
    (this : Provider) (log : Log) (networkId : string) :
  window_ethereum_chainId this = Normal None ->
  version_getNetwork this log = Normal networkId ->
  match fst (getChain this log) with
  | Normal (Some chain) =>
      chainChanged this networkId =
        if truthy chain then Normal chain
        else Throws (Error ("Unexpected chain id " ++ networkId))
  | Normal None =>
      chainChanged this networkId = Throws (Error ("Unexpected chain id " ++ networkId))
  | Throws _ => False
  end.
Proof.
  intros Hw Hn. unfold chainChanged. run_provider. rewrite Hw, Hn. simpl.
  destruct (Number_ this networkId) as [n|]; [|reflexivity].
  destruct (CHAIN_IDENTIFIER_BY_NETWORK_ID this n); reflexivity.
Qed.

Lemma chainChanged_like_getChain_witness :
  chainChanged sample_provider "1" = Normal "ETHEREUM".
Proof.
  exact (chainChanged_like_getChain sample_provider [] "1" eq_refl eq_refl).
Defined.

(** *** Connecting *)

(** X9. The provider's own [connect] asks the backend once for
    [eth_requestAccounts] and never throws, whether the backend grants,
    refuses or does not know the method. [PortisProvider.connect] lists
    the accounts first and throws exactly when that listing fails, in
    which case it asks for nothing else; [WalletConnectProvider.connect]
    throws exactly when [enable] does, before the backend is asked. *)
Theorem connect_failures (this : Provider) (log : Log) :
  connect this log = (Normal tt, (log ++ [EvRequest eth_requestAccounts []])%list) /\
  (forall e, eth_getAccounts this log = Throws e ->
             Portis_connect this log = (Throws e, (log ++ [EvGetAccounts])%list)) /\
  (forall addresses, eth_getAccounts this log = Normal addresses ->
                     fst (Portis_connect this log) = Normal tt) /\
  (forall e, WalletConnect_connect this (Throws e) log = (Throws e, log)) /\
  WalletConnect_connect this (Normal tt) log = connect this log.
Proof.
  assert (forall l, connect this l
                    = (Normal tt, (l ++ [EvRequest eth_requestAccounts []])%list))
    as Hconnect.
  { intros l. run_provider.
    destruct (sendAsync this l eth_requestAccounts []); reflexivity. }
  split; [apply Hconnect|]. split; [|split; [|split]].
  - intros e H. unfold Portis_connect, getAccounts, bind, ask. now rewrite H.
  - intros addresses H. unfold Portis_connect, bind.
    rewrite (ProviderFacts.getAccounts_listed _ _ _ H).
    unfold mapToAccounts, bind, ret.
    destruct (ProviderFacts.getChain_total this (log ++ [EvGetAccounts])%list)
      as (chain & log' & ->).
    now rewrite Hconnect.
  - reflexivity.
  - unfold WalletConnect_connect, bind, lift. reflexivity.
Qed.

(** *** Chain switch *)

(** X10. Whatever the backend answers, [switchChain] asks it at most
    twice: nothing when the network id is missing (or 0), else the switch
    request, followed at most by one add request; it never repeats the
    switch request. *)
Theorem switchChain_requests
    (this : Provider) (chainData : ChainData) (log : Log) :
  match networkId chainData with
  | None | Some 0 =>
      switchChain this chainData log =
        (Throws (Error "Chain network ID was not found"), log)
  | Some n =>
      snd (switchChain this chainData log)
        = (log ++ [EvRequest wallet_switchEthereumChain (switchRequest this n)])%list
      \/
      snd (switchChain this chainData log)
        = (log ++ [EvRequest wallet_switchEthereumChain (switchRequest this n);
                   EvRequest wallet_addEthereumChain (addRequest this chainData n)])%list
  end.
Proof.
  destruct (networkId chainData) as [n|] eqn:Hid.
  - destruct (Z.eq_dec n 0) as [->|Hn].
    + apply ProviderFacts.switchChain_no_network_id. now right.
    + assert (match n with
              | 0 => switchChain this chainData log =
                       (Throws (Error "Chain network ID was not found"), log)
              | _ => snd (switchChain this chainData log)
                       = (log ++ [EvRequest wallet_switchEthereumChain
                                    (switchRequest this n)])%list
                     \/
                     snd (switchChain this chainData log)
                       = (log ++ [EvRequest wallet_switchEthereumChain
                                    (switchRequest this n);
                                  EvRequest wallet_addEthereumChain
                                    (addRequest this chainData n)])%list
              end) as H; [|exact H].
      assert (snd (switchChain this chainData log)
                = (log ++ [EvRequest wallet_switchEthereumChain
                             (switchRequest this n)])%list
              \/
              snd (switchChain this chainData log)
                = (log ++ [EvRequest wallet_switchEthereumChain
                             (switchRequest this n);
                           EvRequest wallet_addEthereumChain
                             (addRequest this chainData n)])%list) as H.
      { rewrite (ProviderFacts.switchChain_unfold this chainData n log Hid Hn).
        run_provider.
        destruct (sendAsync this log wallet_switchEthereumChain _) as [r|e];
          [now left|].
        destruct (code_is (code e) UNADDED_CHAIN_ERROR_CODE).
        - right. rewrite <- app_assoc. simpl.
          destruct (sendAsync this _ wallet_addEthereumChain _); reflexivity.
        - left. destruct (code_is (code e) USER_REJECTED_REQUEST_ERROR_CODE);
            reflexivity. }
      destruct n; [congruence | exact H | exact H].
  - apply ProviderFacts.switchChain_no_network_id. now left.
Qed.

(** *** [sign] *)

Section Sign.

Variable this : Provider.
Variable typedDataHash : string -> completion string.

(** X11. With the personal standard (or no option) [sign] asks the
    backend once for [personal_sign] of the hexadecimal message and the
    address, in that order, and returns the backend's answer as it is: no
    reordering, no suffix, no check of its length. *)
Theorem sign_personal (message address : string) (log : Log) :
  sign this typedDataHash message address None log
    = sign this typedDataHash message address (Some (mkSignOptions PERSONAL)) log /\
  sign this typedDataHash message address None log =
    (sendAsync this log personal_sign
       [PString (JsBuffer.bufferToHex message); PString address],
     (log ++ [EvRequest personal_sign
                [PString (JsBuffer.bufferToHex message); PString address]])%list).
Proof.
  split; [reflexivity|].
  unfold sign; simpl; run_provider.
  destruct (sendAsync this log personal_sign _); [|reflexivity].
  now rewrite append_empty_r.
Qed.

(** X12. With any other standard [sign] still asks for [personal_sign],
    now of the typed-data hash, and returns the reordered signature
    followed by [03]; a message that is no typed data makes it throw
    before the backend is asked. *)
Theorem sign_typed (message address : string)
                   (standard : ClientSignatureStandard) (log : Log) :
  standard <> PERSONAL ->
  sign this typedDataHash message address (Some (mkSignOptions standard)) log =
    match typedDataHash message with
    | Throws e => (Throws e, log)
    | Normal h =>
        (match sendAsync this log personal_sign
                 [PString ("0x" ++ h); PString address] with
         | Normal signature =>
             match _reorderSignatureRsvToVrs signature with
             | Normal vrs => Normal (vrs ++ "03")
             | Throws e => Throws e
             end
         | Throws e => Throws e
         end,
         (log ++ [EvRequest personal_sign
                    [PString ("0x" ++ h); PString address]])%list)
    end.
Proof.
  intros Hstd.
  destruct standard; [congruence | ..];
    unfold sign; simpl; run_provider;
    (destruct (typedDataHash message) as [h|e]; [|reflexivity]);
    (destruct (sendAsync this log personal_sign _) as [signature|e]; [|reflexivity]);
    destruct (_reorderSignatureRsvToVrs signature); reflexivity.
Qed.

End Sign.

Lemma sign_typed_witness :
  sign sample_provider sample_typedDataHash "{}" sample_address
       (Some (mkSignOptions TYPED_DATA_V4)) [] =
    (Normal ("0x" ++ "1c" ++ sample_r ++ sample_s ++ "03"),
     [EvRequest personal_sign [PString ("0x" ++ sample_r); PString sample_address]]).
Proof.
  rewrite (sign_typed sample_provider sample_typedDataHash "{}" sample_address
             TYPED_DATA_V4 []); [reflexivity | discriminate].
Defined.

End ProviderMoreFacts.

(** ** More on the wallet *)

Module WalletMoreFacts.
Import Wallet WalletOps WalletSamples WalletMoreSamples.
Local Open Scope wallet_scope.

Arguments save : simpl never.

(** *** Keys *)

Lemma unescape_escape (c : ascii) (rest : string) :
  JsonDecode.unescape (Json.escape c ++ rest) = Some (c, rest).
Proof. destruct c as [[] [] [] [] [] [] [] []]; reflexivity. Qed.

Lemma append_cancel_l (a b c : string) : a ++ b = a ++ c -> b = c.
Proof.
  induction a as [|x a IH]; simpl; [trivial|]. intros [= H]. now apply IH.
Qed.

(** Escaping loses nothing, in front of the closing quote of a hash. *)
Lemma escapes_injective (x y : string) :
  Json.escapes x ++ String Json.dquote "}" = Json.escapes y ++ String Json.dquote "}" ->
  x = y.
Proof.
  set (tail := String Json.dquote "}").
  assert (forall z, String.length (Json.escapes z ++ tail) > 1)%nat as Hlong.
  { intros z. rewrite length_append. simpl. lia. }
  revert y. induction x as [|c x IH]; intros [|d y] H; simpl in H.
  - reflexivity.
  - apply (f_equal JsonDecode.unescape) in H.
    rewrite append_assoc, unescape_escape in H. simpl in H.
    injection H as _ H. apply (f_equal String.length) in H.
    specialize (Hlong y). simpl in H. lia.
  - apply (f_equal JsonDecode.unescape) in H.
    rewrite append_assoc, unescape_escape in H. simpl in H.
    injection H as _ H. apply (f_equal String.length) in H.
    specialize (Hlong x). simpl in H. lia.
  - apply (f_equal JsonDecode.unescape) in H.
    rewrite !append_assoc, !unescape_escape in H.
    injection H as -> H. f_equal. now apply IH.
Qed.

Lemma toHash_iff (a b : Address) :
  toHash a = toHash b <-> JsString.toLowerCase a = JsString.toLowerCase b.
Proof.
  unfold toHash, Json.stringify_address. split; [|now intros ->].
  intros H. simpl in H. injection H as H.
  unfold Json.quote in H. simpl in H.
  repeat match type of H with
         | String ?c _ = String ?c _ => injection H as H
         end.
  rewrite !append_assoc in H. simpl in H.
  now apply escapes_injective.
Qed.

(** X13. Two addresses have the same hash exactly when they are equal up
    to the case of their letters: [toHash] neither separates two
    spellings of an address nor merges two addresses. *)
Theorem toHash_case_insensitive (a b : Address) :
  toHash a = toHash b <-> JsString.toLowerCase a = JsString.toLowerCase b.
Proof. apply toHash_iff. Qed.

Example toHash_spellings :
  toHash "0xAB5801A7D398351B8BE11C439E05C5B3259AEC9B" = toHash (address alice) /\
  toHash (address alice) <> toHash (address bob).
Proof.
  split; [reflexivity|]. intros H. apply toHash_iff in H.
  discriminate H.
Qed.

Lemma toHash_eqb (a b : Address) :
  String.eqb (toHash a) (toHash b)
  = String.eqb (JsString.toLowerCase a) (JsString.toLowerCase b).
Proof.
  destruct (String.eqb_spec (toHash a) (toHash b)) as [E|E];
    destruct (String.eqb_spec (JsString.toLowerCase a) (JsString.toLowerCase b))
      as [F|F]; try reflexivity.
  - apply toHash_iff in E. contradiction.
  - apply toHash_iff in F. contradiction.
Qed.

(** *** The registry keeps its keys apart *)

Section RegistryKeys.

Context {T : Type} (key_of : T -> string).

Lemma keys_add (x : T) (l : list T) :
  map key_of (OrderedSet.add key_of x l) =
    if existsb (String.eqb (key_of x)) (map key_of l)
    then map key_of l
    else (map key_of l ++ [key_of x])%list.
Proof.
  induction l as [|y l IH]; simpl; [reflexivity|].
  rewrite (String.eqb_sym (key_of x) (key_of y)).
  destruct (String.eqb_spec (key_of y) (key_of x)) as [E|E]; simpl.
  - now rewrite E.
  - rewrite IH. destruct (existsb _ (map key_of l)); reflexivity.
Qed.

Lemma NoDup_keys_add (x : T) (l : list T) :
  NoDup (map key_of l) -> NoDup (map key_of (OrderedSet.add key_of x l)).
Proof.
  intros H. rewrite keys_add.
  destruct (existsb (String.eqb (key_of x)) (map key_of l)) eqn:E; [assumption|].
  apply NoDup_app; [assumption | repeat constructor; intros [] | ].
  intros k Hin [<-|[]].
  assert (existsb (String.eqb (key_of x)) (map key_of l) = true) as E'.
  { apply existsb_exists. exists (key_of x). split; [assumption|].
    apply String.eqb_refl. }
  congruence.
Qed.

Lemma NoDup_keys_delete (k : string) (l : list T) :
  NoDup (map key_of l) -> NoDup (map key_of (OrderedSet.delete key_of k l)).
Proof.
  unfold OrderedSet.delete. induction l as [|y l IH]; simpl; intros H; [constructor|].
  inversion H as [|? ? Hnotin Hrest]; subst.
  destruct (negb (String.eqb (key_of y) k)); simpl; [|now apply IH].
  constructor; [|now apply IH].
  intros Hin. apply Hnotin. apply in_map_iff in Hin as (z & Hz & Hin).
  apply filter_In in Hin as [Hin _]. apply in_map_iff. now exists z.
Qed.

Lemma NoDup_keys_fold (l acc : list T) :
  NoDup (map key_of acc) ->
  NoDup (map key_of (fold_left (fun set x => OrderedSet.add key_of x set) l acc)).
Proof.
  revert acc. induction l as [|x l IH]; simpl; intros acc H; [assumption|].
  apply IH. now apply NoDup_keys_add.
Qed.

Lemma NoDup_keys_make (l : list T) :
  NoDup (map key_of (OrderedSet.make key_of l)).
Proof. apply NoDup_keys_fold. constructor. Qed.

(** Elements with keys apart go into a new set as they are. *)
Lemma add_fresh (x : T) (l : list T) :
  ~ In (key_of x) (map key_of l) -> OrderedSet.add key_of x l = (l ++ [x])%list.
Proof.
  induction l as [|y l IH]; simpl; intros H; [reflexivity|].
  destruct (String.eqb_spec (key_of y) (key_of x)) as [E|E].
  - exfalso. apply H. now left.
  - f_equal. apply IH. intros Hin. apply H. now right.
Qed.

Lemma make_unique (l : list T) :
  NoDup (map key_of l) -> OrderedSet.make key_of l = l.
Proof.
  unfold OrderedSet.make.
  assert (forall acc, NoDup (map key_of (acc ++ l)) ->
            fold_left (fun set x => OrderedSet.add key_of x set) l acc
            = (acc ++ l)%list) as H.
  { induction l as [|x l IH]; simpl; intros acc Hnd.
    - now rewrite app_nil_r.
    - rewrite add_fresh.
      + rewrite IH; rewrite <- app_assoc; [reflexivity | exact Hnd].
      + rewrite map_app in Hnd. simpl in Hnd.
        apply NoDup_remove_2 in Hnd. intros Hin. apply Hnd.
        apply in_or_app. now left. }
  intros Hnd. exact (H [] Hnd).
Qed.

End RegistryKeys.

Lemma NameSet_add_NoDup (name : WALLET_NAME) (set : list WALLET_NAME) :
  NoDup set -> NoDup (NameSet.add name set).
Proof.
  intros H. unfold NameSet.add, NameSet.has.
  destruct (existsb (String.eqb name) set) eqn:E; [assumption|].
  apply NoDup_app; [assumption | repeat constructor; intros [] |].
  intros k Hin [<-|[]].
  assert (existsb (String.eqb name) set = true) as E'.
  { apply existsb_exists. exists name. split; [assumption | apply String.eqb_refl]. }
  congruence.
Qed.

Lemma NameSet_add_In (name : WALLET_NAME) (set : list WALLET_NAME) :
  In name (NameSet.add name set).
Proof.
  unfold NameSet.add, NameSet.has.
  destruct (existsb (String.eqb name) set) eqn:E.
  - apply existsb_exists in E as (x & Hin & Heq).
    apply String.eqb_eq in Heq. now subst.
  - apply in_or_app. right. now left.
Qed.

Lemma NameSet_make_NoDup (names : list WALLET_NAME) : NoDup (NameSet.make names).
Proof.
  unfold NameSet.make.
  assert (forall acc, NoDup acc ->
            NoDup (fold_left (fun set x => NameSet.add x set) names acc)) as H.
  { induction names as [|x l IH]; simpl; intros acc Hacc; [assumption|].
    apply IH. now apply NameSet_add_NoDup. }
  apply H. constructor.
Qed.

Lemma NameSet_make_unique (names : list WALLET_NAME) :
  NoDup names -> NameSet.make names = names.
Proof.
  unfold NameSet.make.
  assert (forall acc, NoDup (acc ++ names) ->
            fold_left (fun set x => NameSet.add x set) names acc
            = (acc ++ names)%list) as H.
  { induction names as [|x l IH]; simpl; intros acc Hnd.
    - now rewrite app_nil_r.
    - assert (NameSet.add x acc = (acc ++ [x])%list) as ->.
      { unfold NameSet.add, NameSet.has.
        destruct (existsb (String.eqb x) acc) eqn:E; [|reflexivity].
        exfalso. apply existsb_exists in E as (y & Hin & Heq).
        apply String.eqb_eq in Heq. subst y.
        apply NoDup_remove_2 in Hnd. apply Hnd. apply in_or_app. now left. }
      rewrite IH; rewrite <- app_assoc; [reflexivity | exact Hnd]. }
  intros Hnd. exact (H [] Hnd).
Qed.

(** *** Properties kept along a computation *)

Section Preservation.

Variable P : State -> Prop.

Lemma preserves_ret {A} (a : A) : preserves P (ret a).
Proof. intros s H. exact H. Qed.

Lemma preserves_throw {A} (e : JsError) : preserves P (@throw A e).
Proof. intros s H. exact H. Qed.

Lemma preserves_lift {A} (c : completion A) : preserves P (lift c).
Proof. intros s H. exact H. Qed.

Lemma preserves_update (f : State -> State) :
  (forall s, P s -> P (f s)) -> preserves P (update f).
Proof. intros Hf s H. now apply Hf. Qed.

Lemma preserves_bind {A B} (m : W A) (k : A -> W B) :
  preserves P m -> (forall a, preserves P (k a)) -> preserves P (bind m k).
Proof.
  intros Hm Hk s H. unfold bind. specialize (Hm s H).
  destruct (m s) as [[a|e] s1]; simpl in *; [now apply Hk | exact Hm].
Qed.

Lemma preserves_mapM {A B} (f : A -> W B) (l : list A) :
  (forall a, In a l -> preserves P (f a)) -> preserves P (mapM f l).
Proof.
  induction l as [|x l IH]; intros Hf; simpl.
  - apply preserves_ret.
  - apply preserves_bind; [apply Hf; now left|]. intros y.
    apply preserves_bind; [apply IH; intros a Ha; apply Hf; now right|].
    intros ys. apply preserves_ret.
Qed.

(** **** Asynchronous calls *)

Variable K : Pending -> Prop.

Lemma keeps_resolved {A} (a : A) : keeps P K (resolved a).
Proof. intros s H. split; [exact H | constructor]. Qed.

Lemma keeps_rejected {A} (e : JsError) : keeps P K (@rejected A e).
Proof. intros s H. split; [exact H | constructor]. Qed.

Lemma keeps_after {A B} (m : W A) (k : A -> Async B) :
  preserves P m -> (forall a, keeps P K (k a)) -> keeps P K (after m k).
Proof.
  intros Hm Hk s H. unfold after. specialize (Hm s H).
  destruct (m s) as [[a|e] s1]; simpl in Hm.
  - now apply Hk.
  - split; [exact Hm | constructor].
Qed.

Lemma keeps_and_then {A B} (m : Async A) (k : A -> W B) :
  keeps P K m -> (forall a, preserves P (k a)) -> keeps P K (and_then m k).
Proof.
  intros Hm Hk s H. unfold and_then. destruct (Hm s H) as [Hw Hl].
  destruct (m s) as [[a|e] s1 pending]; simpl in *.
  - specialize (Hk a s1 Hw). destruct (k a s1) as [b s2]. now split.
  - now split.
Qed.

Lemma keeps_or_catch {A} (m : Async A) (h : JsError -> W A) :
  keeps P K m -> (forall e, preserves P (h e)) -> keeps P K (or_catch m h).
Proof.
  intros Hm Hh s H. unfold or_catch. destruct (Hm s H) as [Hw Hl].
  destruct (m s) as [[a|e] s1 pending]; simpl in *.
  - now split.
  - specialize (Hh e s1 Hw). destruct (h e s1) as [b s2]. now split.
Qed.

(** **** The event loop: every step of the kind [K] keeps [P] and leaves
    ready only steps of the kind [K]. *)

Section Loop.

Variable env : Env.
Hypothesis step_keeps : forall p, K p -> preserves P (turn env p).
Hypothesis step_leaves :
  forall p s ready s', K p -> turn env p s = (Normal ready, s') -> Forall K ready.

Lemma preserves_complete (p : Pending) : K p -> preserves P (complete env p).
Proof.
  intros Hp s H. unfold complete, bind.
  pose proof (step_keeps p Hp s H) as H1.
  destruct (turn env p s) as [[ready|e] s1] eqn:E; simpl in H1; [|exact H1].
  pose proof (step_leaves p s ready s1 Hp E) as Hready.
  assert (preserves P (mapM (turn env) ready)) as Hmap.
  { apply preserves_mapM. intros q Hq. apply step_keeps.
    rewrite Forall_forall in Hready. now apply Hready. }
  specialize (Hmap s1 H1).
  destruct (mapM (turn env) ready s1) as [[done|e] s2]; exact Hmap.
Qed.

Lemma keeps_drain (waiting : list Pending) (failed : option JsError) :
  Forall K waiting -> keeps P K (drain env waiting failed).
Proof.
  revert failed. induction waiting as [|p rest IH]; intros failed Hall s H.
  - split; [exact H | constructor].
  - inversion Hall as [|? ? Hp Hrest]; subst.
    assert (forall failed', P (wallet (drain env rest failed' (snd (turn env p s))))
              /\ Forall K (unanswered (drain env rest failed' (snd (turn env p s)))))
      as Hturn.
    { intros failed'. apply IH; [exact Hrest|]. now apply step_keeps. }
    assert (P (wallet
                 (if all_settled failed (p :: rest)
                  then mkSettled (outcome_of failed) s (p :: rest)
                  else
                    match complete env p s with
                    | (Normal _, s') => drain env rest failed s'
                    | (Throws e, s') =>
                        drain env rest (if joined p then Some e else failed) s'
                    end))
            /\ Forall K (unanswered
                 (if all_settled failed (p :: rest)
                  then mkSettled (outcome_of failed) s (p :: rest)
                  else
                    match complete env p s with
                    | (Normal _, s') => drain env rest failed s'
                    | (Throws e, s') =>
                        drain env rest (if joined p then Some e else failed) s'
                    end))) as Hstep.
    { destruct (all_settled failed (p :: rest)); [now split|].
      pose proof (preserves_complete p Hp s H) as Hc.
      destruct (complete env p s) as [[u|e] s1]; simpl in Hc; now apply IH. }
    destruct p; cbn [drain]; [exact Hstep | exact Hstep | apply Hturn | exact Hstep].
Qed.

(** [Promise.all] under every schedule. *)
Lemma keeps_await_all
    (schedule : list nat) (waiting : list Pending) (failed : option JsError) :
  Forall K waiting -> keeps P K (await_all env schedule waiting failed).
Proof.
  revert waiting failed.
  induction schedule as [|n schedule IH]; intros waiting failed Hall s H.
  - now apply keeps_drain.
  - rewrite WalletFacts.await_all_step.
    destruct (extract _ waiting) as [[p rest]|] eqn:E; [|now split].
    destruct (WalletFacts.extract_Forall K _ _ _ _ E Hall) as [Hp Hrest].
    pose proof (step_keeps p Hp s H) as H1.
    destruct (turn env p s) as [[ready|e] s1] eqn:Et; simpl in H1.
    + apply IH; [|exact H1]. apply Forall_app. split; [|exact Hrest].
      exact (step_leaves p s ready s1 Hp Et).
    + now apply IH.
Qed.

(** What was left waiting, under every schedule. *)
Lemma afterwards_kept (schedule : list nat) (waiting : list Pending) (s : State) :
  Forall K waiting -> P s -> P (afterwards env schedule waiting s).
Proof.
  revert waiting s.
  induction schedule as [|n schedule IH]; intros waiting s Hall H.
  - simpl. revert s H. induction Hall as [|p rest Hp Hrest IHrest]; intros s H;
      [exact H|].
    simpl. apply IHrest. now apply preserves_complete.
  - rewrite WalletFacts.afterwards_step.
    destruct (extract _ waiting) as [[p rest]|] eqn:E; [|exact H].
    destruct (WalletFacts.extract_Forall K _ _ _ _ E Hall) as [Hp Hrest].
    pose proof (step_keeps p Hp s H) as H1.
    destruct (turn env p s) as [[ready|e] s1] eqn:Et; simpl in H1.
    + apply IH; [|exact H1]. apply Forall_app. split; [|exact Hrest].
      exact (step_leaves p s ready s1 Hp Et).
    + now apply IH.
Qed.

Lemma keeps_final {A} (schedule : list nat) (m : Async A) (s : State) :
  keeps P K m -> P s -> P (final env schedule (m s)).
Proof.
  intros Hm Hs. destruct (Hm s Hs) as [Hw Hl]. now apply afterwards_kept.
Qed.

End Loop.

End Preservation.

(** *** What [install] keeps *)

Section Installing.

Variable P : State -> Prop.

(** What the wallet's operations are made of. *)
Hypothesis keeps_queries : forall n s, P s -> P (set_queries n s).
Hypothesis keeps_providers : forall l s, P s -> P (set_providers l s).
Hypothesis keeps_registering :
  forall data s, P s -> P (snd (add_resume (Normal (Some data)) s)).
Hypothesis keeps_activating :
  forall a s, P s -> P (save (set_activeAccount (Some a) s)).
Hypothesis keeps_names :
  forall l s, P s -> P (save (set_installedProviderNames l s)).

Variable env : Env.

Lemma preserves_add_start (key : AccountKey) : preserves P (add_start env key).
Proof.
  intros s H. unfold add_start.
  destruct (negb (in_network env (key_chain key))); [exact H|].
  destruct (find (key_address key) s); [exact H|]. now apply keeps_queries.
Qed.

Lemma preserves_add_resume (answer : completion (option AccountData)) :
  preserves P (add_resume answer).
Proof.
  intros s H. destruct answer as [[data|]|e]; [now apply keeps_registering | exact H ..].
Qed.

Lemma preserves_add_finish (task : AddTask) : preserves P (add_finish env task).
Proof.
  destruct task; [apply preserves_ret | apply preserves_add_resume].
Qed.

Lemma preserves_add (key : AccountKey) : preserves P (add env key).
Proof.
  apply preserves_bind; [apply preserves_add_start|].
  intros task. apply preserves_add_finish.
Qed.

Lemma preserves_select_finish (task : AddTask) :
  preserves P (select_finish env task).
Proof.
  apply preserves_bind; [apply preserves_add_finish|].
  intros [a|]; [|apply preserves_ret].
  apply preserves_bind; [|intros; apply preserves_ret].
  apply preserves_update. intros s H. now apply keeps_activating.
Qed.

Lemma preserves_select (key : AccountKey) : preserves P (select env key).
Proof.
  apply preserves_bind; [apply preserves_add_start|].
  intros task. apply preserves_select_finish.
Qed.

(** The steps of an [install]. *)
Lemma of_install_keeps (p : Pending) : of_install p -> preserves P (turn env p).
Proof.
  destruct p as [query address | query address | account | query address];
    intros Hp; [| | |destruct Hp]; cbn [turn].
  - apply preserves_bind; [apply preserves_add_resume | intros; apply preserves_ret].
  - apply preserves_bind; [apply preserves_add_resume | intros; apply preserves_ret].
  - apply preserves_bind; [|intros; apply preserves_ret].
    apply preserves_update. intros s H. now apply keeps_activating.
Qed.

Lemma of_install_leaves (p : Pending) (s : State) (ready : list Pending)
                         (s' : State) :
  of_install p -> turn env p s = (Normal ready, s') -> Forall of_install ready.
Proof.
  destruct p as [query address | query address | account | query address];
    intros Hp; [| | |destruct Hp]; cbn [turn]; unfold bind, ret.
  - destruct (add_resume _ s) as [[a|e] s1]; intros [= <- _]; constructor.
  - destruct (add_resume _ s) as [[[a|]|e] s1]; intros [= <- _];
      repeat constructor.
  - destruct (update _ s) as [[a|e] s1]; intros [= <- _]; constructor.
Qed.

Lemma keeps_register_accounts
    (schedule : list nat) (firstAccount : option AccountKey)
    (accounts : list AccountKey) :
  keeps P of_install (register_accounts env schedule firstAccount accounts).
Proof.
  unfold register_accounts.
  apply keeps_after.
  { destruct firstAccount; [|apply preserves_ret].
    apply preserves_bind; [apply preserves_add_start | intros; apply preserves_ret]. }
  intros selecting. apply keeps_after.
  { apply preserves_mapM. intros key _. apply preserves_add_start. }
  intros adding.
  apply (keeps_await_all P of_install env of_install_keeps of_install_leaves).
  apply Forall_app. split.
  - destruct selecting as [[[account|]|query address]|]; repeat constructor.
  - induction adding as [|task adding IH]; simpl; [constructor|].
    apply Forall_app. split; [|exact IH].
    destruct task; repeat constructor.
Qed.

Lemma keeps_install_try
    (walletName : WALLET_NAME) (provider : ProviderInstance) (schedule : list nat) :
  keeps P of_install (install_try env walletName provider schedule).
Proof.
  unfold install_try.
  apply keeps_after; [apply preserves_lift|]. intros _.
  apply keeps_after; [apply preserves_lift|]. intros [|first rest].
  - apply keeps_resolved.
  - cbv zeta. destruct (wrong_network env _ _); [apply keeps_rejected|].
    apply keeps_and_then; [apply keeps_register_accounts|]. intros _.
    apply preserves_update. intros s H. now apply keeps_names.
Qed.

Lemma keeps_install (walletName : WALLET_NAME) (schedule : list nat) :
  keeps P of_install (install env walletName schedule).
Proof.
  unfold install. apply keeps_after.
  - intros s H. unfold addProvider.
    destruct (provider_factory env walletName); [|exact H].
    now apply keeps_providers.
  - intros [provider|]; [|apply keeps_resolved].
    apply keeps_or_catch; [apply keeps_install_try|].
    intros e. apply preserves_bind; [|intros; apply preserves_throw].
    apply preserves_update. intros s H. unfold install_catch, deleteProvider.
    apply (keeps_names _ (set_providers _ s)). now apply keeps_providers.
Qed.

(** ... when it goes on and after everything it left waiting. *)
Lemma install_kept
    (walletName : WALLET_NAME) (schedule later : list nat) (s : State) :
  P s ->
  P (wallet (install env walletName schedule s)) /\
  P (final env later (install env walletName schedule s)).
Proof.
  intros H. split.
  - now apply keeps_install.
  - apply (keeps_final P of_install env of_install_keeps of_install_leaves).
    + apply keeps_install.
    + exact H.
Qed.

End Installing.

(** *** The registry never holds a key twice *)

Lemma accounts_save (s : State) : _accounts (save s) = _accounts s.
Proof. now destruct (WalletFacts.save_fields s) as (-> & _). Qed.

Lemma keys_unique_save (s : State) : keys_unique s -> keys_unique (save s).
Proof. unfold keys_unique. now rewrite accounts_save. Qed.

Lemma keys_unique_registering (data : AccountData) (s : State) :
  keys_unique s -> keys_unique (snd (add_resume (Normal (Some data)) s)).
Proof.
  intros H. destruct (WalletFacts.add_resume_some data s) as (s' & -> & Hacc).
  unfold keys_unique. simpl. rewrite Hacc. now apply NoDup_keys_add.
Qed.

Lemma accounts_delete (key : AccountKey) (s : State) :
  _accounts (delete key s) =
    match find (key_address key) s with
    | Some _ => OrderedSet.delete getKey (toHash (key_address key)) (_accounts s)
    | None => _accounts s
    end.
Proof.
  unfold delete. destruct (find (key_address key) s); [|reflexivity].
  rewrite accounts_save. simpl.
  destruct (activeAccount s) as [act|]; [|reflexivity].
  destruct (same_object act _); reflexivity.
Qed.

Lemma keys_unique_delete (key : AccountKey) (s : State) :
  keys_unique s -> keys_unique (delete key s).
Proof.
  unfold keys_unique. rewrite accounts_delete.
  destruct (find (key_address key) s); [apply NoDup_keys_delete | trivial].
Qed.

Lemma accounts_refreshed (data : AccountData) (s : State) :
  _accounts (refreshed data s)
    = OrderedSet.add getKey (mkAccount (next_ref s) data) (_accounts s).
Proof.
  unfold refreshed. cbv zeta.
  destruct (activeAccount _); [|reflexivity].
  destruct (String.eqb _ _); reflexivity.
Qed.

Lemma keys_unique_refresh_resume
    (answer : completion (option AccountData)) :
  preserves keys_unique (refresh_resume answer).
Proof.
  intros s H. destruct answer as [[data|]|e]; [|exact H ..].
  unfold refresh_resume, bind, lift, update, keys_unique. simpl.
  rewrite accounts_refreshed. now apply NoDup_keys_add.
Qed.

(** The steps of a [refresh]. *)
Lemma of_refresh_leaves (env : Env) (p : Pending) (s : State)
                        (ready : list Pending) (s' : State) :
  of_refresh p -> turn env p s = (Normal ready, s') -> Forall of_refresh ready.
Proof.
  destruct p as [query address | query address | account | query address];
    intros Hp; try destruct Hp. cbn [turn]. unfold bind, ret.
  destruct (refresh_resume _ s) as [[a|e] s1]; intros [= <- _]; constructor.
Qed.

Lemma of_refresh_keeps (P : State -> Prop) (env : Env) :
  (forall answer, preserves P (refresh_resume answer)) ->
  forall p, of_refresh p -> preserves P (turn env p).
Proof.
  intros Hstep p.
  destruct p as [query address | query address | account | query address];
    intros Hp; try destruct Hp. cbn [turn].
  apply preserves_bind; [apply Hstep | intros; apply preserves_ret].
Qed.

Lemma refresh_queries_of_refresh (asked : list (nat * Address)) :
  Forall of_refresh (map (fun q => PendingRefresh (fst q) (snd q)) asked).
Proof. induction asked; simpl; constructor; [exact I | assumption]. Qed.

Lemma keys_unique_refresh (env : Env) (schedule : list nat) :
  keeps keys_unique of_refresh (refresh env schedule).
Proof.
  intros s H. unfold refresh.
  revert H. generalize (refresh_queries (_accounts s) (queries s)).
  generalize (queries s + List.length (_accounts s))%nat.
  intros n asked H.
  apply (keeps_and_then keys_unique of_refresh); [| |exact H].
  - apply keeps_after.
    + apply preserves_update. intros x Hx. exact Hx.
    + intros _.
      apply (keeps_await_all keys_unique of_refresh env
               (of_refresh_keeps keys_unique env keys_unique_refresh_resume)
               (of_refresh_leaves env)).
      apply refresh_queries_of_refresh.
  - intros _. apply preserves_update. apply keys_unique_save.
Qed.

(** X14. A wallet constructed over any persisted record, even one that
    lists an address twice or a provider twice, has a registry with no
    key twice and a set of installed providers with no name twice. *)
Theorem new_Wallet_no_duplicates (persisted : option WalletData) :
  keys_unique (new_Wallet persisted) /\
  NoDup (installedProviderNames (new_Wallet persisted)).
Proof.
  unfold new_Wallet, load, keys_unique. simpl.
  destruct persisted as [data|]; simpl.
  - split; [apply NoDup_keys_make | apply NameSet_make_NoDup].
  - split; constructor.
Qed.

(** X15. No operation of the wallet puts a key twice into the registry:
    when the keys are apart before [add], [select], [delete], [clear],
    [install] or [refresh], they are apart after it, whatever the remote
    source and the provider answer; for [install] and [refresh], under
    every schedule, both when the call goes on and after everything it
    left waiting has run. *)
Theorem keys_unique_kept
    (env : Env) (key : AccountKey) (walletName : WALLET_NAME)
    (schedule later : list nat) (s : State) :
  keys_unique s ->
  keys_unique (snd (add env key s)) /\
  keys_unique (snd (select env key s)) /\
  keys_unique (delete key s) /\
  keys_unique (clear s) /\
  keys_unique (wallet (install env walletName schedule s)) /\
  keys_unique (final env later (install env walletName schedule s)) /\
  keys_unique (wallet (refresh env schedule s)) /\
  keys_unique (final env later (refresh env schedule s)).
Proof.
  intros H.
  assert (forall n x, keys_unique x -> keys_unique (set_queries n x)) as Hq
    by (intros; assumption).
  assert (forall l x, keys_unique x -> keys_unique (set_providers l x)) as Hp
    by (intros; assumption).
  assert (forall a x, keys_unique x ->
            keys_unique (save (set_activeAccount (Some a) x))) as Ha
    by (intros a x Hx; apply keys_unique_save; exact Hx).
  assert (forall l x, keys_unique x ->
            keys_unique (save (set_installedProviderNames l x))) as Hn
    by (intros l x Hx; apply keys_unique_save; exact Hx).
  destruct (install_kept keys_unique Hq Hp keys_unique_registering Ha Hn
              env walletName schedule later s H) as [Hinstall Hinstalled].
  pose proof (keys_unique_refresh env schedule) as Hrefresh.
  split; [|split; [|split; [|split; [|split; [|split; [|split]]]]]].
  - now apply (preserves_add keys_unique Hq keys_unique_registering).
  - now apply (preserves_select keys_unique Hq keys_unique_registering Ha).
  - now apply keys_unique_delete.
  - unfold keys_unique, clear. rewrite accounts_save. constructor.
  - exact Hinstall.
  - exact Hinstalled.
  - now apply Hrefresh.
  - apply (keeps_final keys_unique of_refresh env
             (of_refresh_keeps keys_unique env keys_unique_refresh_resume)
             (of_refresh_leaves env)); assumption.
Qed.

Lemma keys_unique_kept_witness :
  let env := mainnet 99 browser_wallet in
  let s := new_Wallet (Some two_accounts_session) in
  keys_unique (snd (add env alice_key s)) /\
  keys_unique (snd (select env alice_key s)) /\
  keys_unique (delete alice_key s) /\
  keys_unique (clear s) /\
  keys_unique (wallet (install env "MetaMask" [1]%nat s)) /\
  keys_unique (final env [] (install env "MetaMask" [1]%nat s)) /\
  keys_unique (wallet (refresh env [1]%nat s)) /\
  keys_unique (final env [] (refresh env [1]%nat s)).
Proof.
  apply (keys_unique_kept (mainnet 99 browser_wallet) alice_key "MetaMask"
           [1]%nat [] (new_Wallet (Some two_accounts_session))).
  unfold keys_unique. vm_compute.
  repeat constructor; simpl; intuition discriminate.
Defined.

(** *** Whatever changes is persisted *)

Lemma in_sync_save (s : State) : in_sync (save s).
Proof. apply WalletFacts.save_persisted. Qed.

Lemma in_sync_registering (data : AccountData) (s : State) :
  in_sync s -> in_sync (snd (add_resume (Normal (Some data)) s)).
Proof. intros _. unfold add_resume, bind, lift. cbv zeta. apply in_sync_save. Qed.

Lemma in_sync_delete (key : AccountKey) (s : State) :
  in_sync s -> in_sync (delete key s).
Proof.
  intros H. unfold delete.
  destruct (find (key_address key) s); [apply in_sync_save | exact H].
Qed.

(** X16. The persisted record follows the wallet: when it is the record
    of the wallet's fields before [add], [select], [delete], [clear] or
    [install], it is so after, whether the operation succeeds, finds
    nothing to do or fails; for [install], under every schedule, both
    when it goes on and after everything it left waiting has run. *)
Theorem in_sync_kept
    (env : Env) (key : AccountKey) (walletName : WALLET_NAME)
    (schedule later : list nat) (s : State) :
  in_sync s ->
  in_sync (snd (add env key s)) /\
  in_sync (snd (select env key s)) /\
  in_sync (delete key s) /\
  in_sync (clear s) /\
  in_sync (wallet (install env walletName schedule s)) /\
  in_sync (final env later (install env walletName schedule s)).
Proof.
  intros H.
  assert (forall n x, in_sync x -> in_sync (set_queries n x)) as Hq
    by (intros; assumption).
  assert (forall l x, in_sync x -> in_sync (set_providers l x)) as Hp
    by (intros; assumption).
  assert (forall a x, in_sync x -> in_sync (save (set_activeAccount (Some a) x)))
    as Ha by (intros; apply in_sync_save).
  assert (forall l x, in_sync x ->
            in_sync (save (set_installedProviderNames l x))) as Hn
    by (intros; apply in_sync_save).
  destruct (install_kept in_sync Hq Hp in_sync_registering Ha Hn
              env walletName schedule later s H) as [Hinstall Hinstalled].
  split; [|split; [|split; [|split; [|split]]]].
  - now apply (preserves_add in_sync Hq in_sync_registering).
  - now apply (preserves_select in_sync Hq in_sync_registering Ha).
  - now apply in_sync_delete.
  - apply in_sync_save.
  - exact Hinstall.
  - exact Hinstalled.
Qed.

Lemma in_sync_kept_witness :
  let env := mainnet 1 browser_wallet in
  let s := new_Wallet None in
  in_sync (snd (add env alice_key s)) /\
  in_sync (snd (select env alice_key s)) /\
  in_sync (delete alice_key s) /\
  in_sync (clear s) /\
  in_sync (wallet (install env "MetaMask" [1]%nat s)) /\
  in_sync (final env [0]%nat (install env "MetaMask" [1]%nat s)).
Proof.
  apply (in_sync_kept (mainnet 1 browser_wallet) alice_key "MetaMask"
           [1]%nat [0]%nat (new_Wallet None)).
  reflexivity.
Defined.

(** *** Saving and loading *)

Lemma cookie_save (s : State) : cookie (save s) = persisted_form s.
Proof.
  rewrite WalletFacts.save_persisted. unfold persisted_form.
  rewrite WalletFacts.blob_save.
  now destruct (WalletFacts.save_fields s) as (-> & -> & -> & _).
Qed.

Lemma parse_accounts_fields (l : list AccountData) (n : nat) :
  map fields (parse_accounts l n) = l.
Proof.
  revert n. induction l as [|d l IH]; simpl; intros n; [reflexivity | now rewrite IH].
Qed.

Lemma parse_accounts_keys (l : list Account) (n : nat) :
  map getKey (parse_accounts (map fields l) n) = map getKey l.
Proof.
  revert n. induction l as [|a l IH]; simpl; intros n; [reflexivity|].
  now rewrite IH.
Qed.

Lemma persisted_form_cases (s : State) :
  (persisted_form s = None /\ activeAccount s = None /\ _accounts s = [] /\
   installedProviderNames s = [])
  \/ persisted_form s = Some (blob s).
Proof.
  unfold persisted_form.
  destruct (activeAccount s); [now right|].
  destruct (_accounts s); [|now right].
  destruct (installedProviderNames s); [left; repeat split | now right].
Qed.

Lemma load_none (s : State) :
  cookie s = None ->
  _accounts (load s) = [] /\ activeAccount (load s) = None /\
  installedProviderNames (load s) = [].
Proof. intros H. unfold load. rewrite H. repeat split. Qed.

Lemma load_some (s : State) (data : WalletData) :
  cookie s = Some data ->
  _accounts (load s)
    = OrderedSet.make getKey (parse_accounts (data_accounts data) (next_ref s)) /\
  option_map fields (activeAccount (load s)) = data_activeAccount data /\
  installedProviderNames (load s) = NameSet.make (data_installedProviderNames data).
Proof.
  intros H. unfold load. rewrite H. simpl.
  destruct (data_activeAccount data); repeat split.
Qed.

(** X17. Saving and loading is a round trip on the fields: when the
    registry has no key twice and the installed names no name twice, a
    wallet loaded from what [save] wrote has the same accounts in the same
    order, the same active account and the same installed providers (as
    new objects); an empty wallet, whose record [save] removes, loads
    empty. *)
Theorem save_load_round_trip (s : State) :
  keys_unique s ->
  NoDup (installedProviderNames s) ->
  map fields (_accounts (load (save s))) = map fields (_accounts s) /\
  option_map fields (activeAccount (load (save s)))
    = option_map fields (activeAccount s) /\
  installedProviderNames (load (save s)) = installedProviderNames s.
Proof.
  intros Hkeys Hnames.
  destruct (persisted_form_cases s) as [(Hp & Ha & Hl & Hn) | Hp].
  - destruct (load_none (save s)) as (-> & -> & ->).
    + now rewrite cookie_save.
    + now rewrite Ha, Hl, Hn.
  - destruct (load_some (save s) (blob s)) as (-> & -> & ->).
    + now rewrite cookie_save.
    + unfold blob. simpl. rewrite make_unique.
      * rewrite parse_accounts_fields, (NameSet_make_unique _ Hnames).
        repeat split.
      * rewrite parse_accounts_keys. exact Hkeys.
Qed.

Lemma save_load_round_trip_witness :
  let s := new_Wallet (Some two_accounts_session) in
  map fields (_accounts (load (save s))) = map fields (_accounts s) /\
  option_map fields (activeAccount (load (save s)))
    = option_map fields (activeAccount s) /\
  installedProviderNames (load (save s)) = installedProviderNames s.
Proof.
  apply (save_load_round_trip (new_Wallet (Some two_accounts_session))).
  - unfold keys_unique. vm_compute. repeat constructor; simpl; intuition discriminate.
  - vm_compute. repeat constructor; simpl; intuition discriminate.
Defined.

(** *** [add], [select] and [delete] *)

(** The account [add] returns is the registry's entry under its key. *)
Lemma add_returns_entry (env : Env) (key : AccountKey) (s s1 : State) (a : Account) :
  add env key s = (Normal (Some a), s1) ->
  OrderedSet.find getKey (getKey a) (_accounts s1) = Some a.
Proof.
  unfold add, bind, add_start.
  destruct (negb (in_network env (key_chain key))); simpl; [discriminate|].
  destruct (find (key_address key) s) as [account|] eqn:Hfind; simpl.
  - intros [= <- <-]. unfold find in Hfind.
    now rewrite (WalletFacts.find_key _ _ _ _ Hfind).
  - destruct (remote_account env (queries s) (key_address key)) as [[data|]|e];
      try (simpl; discriminate).
    destruct (WalletFacts.add_resume_some data (set_queries (S (queries s)) s))
      as (s' & -> & Hacc).
    intros [= <- <-]. rewrite Hacc, WalletFacts.find_add, String.eqb_refl.
    reflexivity.
Qed.

(** X18. [add] is idempotent: once it has returned an account, adding a
    key of the wallet's network mode whose address is the account's
    (whatever the case of its letters) returns that same object, asks the
    remote source nothing and leaves the wallet as it is. *)
Theorem add_again
    (env : Env) (key key' : AccountKey) (s s1 : State) (a : Account) :
  add env key s = (Normal (Some a), s1) ->
  in_network env (key_chain key') = true ->
  JsString.toLowerCase (key_address key')
    = JsString.toLowerCase (address (fields a)) ->
  add env key' s1 = (Normal (Some a), s1).
Proof.
  intros Hadd Hnet Hsame. apply add_returns_entry in Hadd.
  unfold add, bind, add_start. rewrite Hnet. simpl.
  unfold find. replace (toHash (key_address key')) with (getKey a).
  - now rewrite Hadd.
  - unfold getKey. symmetry. now apply toHash_iff.
Qed.

Lemma add_again_witness :
  add (mainnet 99 browser_wallet)
      (mkAccountKey "0xAB5801A7D398351B8BE11C439E05C5B3259AEC9B" "MATIC")
      (snd (add (mainnet 99 browser_wallet) alice_key (new_Wallet None)))
  = (Normal (Some (mkAccount 0 alice)),
     snd (add (mainnet 99 browser_wallet) alice_key (new_Wallet None))).
Proof.
  apply (add_again (mainnet 99 browser_wallet) alice_key
           (mkAccountKey "0xAB5801A7D398351B8BE11C439E05C5B3259AEC9B" "MATIC")
           (new_Wallet None)); reflexivity.
Defined.

(** X19. A key whose chain is of the other network mode is left alone:
    [add] and [select] return [undefined] for it, without asking the
    remote source and without touching the wallet or the persisted
    record, even when the address is registered. *)
Theorem other_network_mode_untouched (env : Env) (key : AccountKey) (s : State) :
  in_network env (key_chain key) = false ->
  add env key s = (Normal None, s) /\
  select env key s = (Normal None, s).
Proof.
  intros H. unfold select, select_finish, add, bind, add_start.
  rewrite H. split; reflexivity.
Qed.

Lemma other_network_mode_untouched_witness :
  let s := new_Wallet (Some alice_session) in
  add (mainnet 99 browser_wallet) rinkeby_key s = (Normal None, s) /\
  select (mainnet 99 browser_wallet) rinkeby_key s = (Normal None, s).
Proof.
  apply (other_network_mode_untouched (mainnet 99 browser_wallet) rinkeby_key
           (new_Wallet (Some alice_session))).
  reflexivity.
Defined.

Lemma select_as_add (env : Env) (key : AccountKey) (s : State) :
  select env key s =
    match add env key s with
    | (Normal (Some a), s1) =>
        (Normal (Some a), save (set_activeAccount (Some a) s1))
    | r => r
    end.
Proof.
  unfold select, select_finish, add, bind.
  destruct (add_start env key s) as [[task|e] s0]; [|reflexivity].
  destruct (add_finish env task s0) as [[[a|]|e] s1]; reflexivity.
Qed.

Lemma active_is_entry_save (s : State) :
  active_is_entry (save s) = active_is_entry s.
Proof.
  unfold active_is_entry.
  now destruct (WalletFacts.save_fields s) as (-> & -> & _).
Qed.

Lemma select_result
    (env : Env) (key : AccountKey) (s s1 : State) (a : Account) :
  select env key s = (Normal (Some a), s1) ->
  activeAccount s1 = Some a /\
  OrderedSet.find getKey (getKey a) (_accounts s1) = Some a /\
  active_is_entry s1 = true /\
  in_sync s1.
Proof.
  rewrite select_as_add.
  destruct (add env key s) as [[[b|]|e] s0] eqn:Hadd; try discriminate.
  intros [= <- <-]. apply add_returns_entry in Hadd.
  assert (activeAccount (save (set_activeAccount (Some b) s0)) = Some b) as Hact.
  { now destruct (WalletFacts.save_fields (set_activeAccount (Some b) s0))
      as (_ & -> & _). }
  assert (_accounts (save (set_activeAccount (Some b) s0)) = _accounts s0) as Hacc
    by now rewrite accounts_save.
  split; [exact Hact|]. split; [now rewrite Hacc|]. split; [|apply in_sync_save].
  rewrite active_is_entry_save. unfold active_is_entry. simpl.
  rewrite Hadd. unfold same_object. apply Nat.eqb_refl.
Qed.

(** X20. After an awaited [select] has returned an account, that account
    is the active one, it is the very object the registry holds under its
    key, and the persisted record is the one of the wallet's fields. *)
Theorem select_activates
    (env : Env) (key : AccountKey) (s s1 : State) (a : Account) :
  select env key s = (Normal (Some a), s1) ->
  activeAccount s1 = Some a /\
  OrderedSet.find getKey (getKey a) (_accounts s1) = Some a /\
  active_is_entry s1 = true /\
  in_sync s1.
Proof. apply select_result. Qed.

Lemma select_activates_witness :
  let s1 := snd (select (mainnet 99 browser_wallet) bob_key
                        (new_Wallet (Some alice_session))) in
  activeAccount s1 = Some (mkAccount 2 bob) /\
  OrderedSet.find getKey (getKey (mkAccount 2 bob)) (_accounts s1)
    = Some (mkAccount 2 bob) /\
  active_is_entry s1 = true /\
  in_sync s1.
Proof.
  apply (select_activates (mainnet 99 browser_wallet) bob_key
           (new_Wallet (Some alice_session))).
  reflexivity.
Defined.

(** X21. After [delete] no spelling of the deleted address is found any
    more, and every other address is found as before. *)
Theorem delete_forgets_address (key : AccountKey) (a : Address) (s : State) :
  find a (delete key s) =
    if String.eqb (JsString.toLowerCase a) (JsString.toLowerCase (key_address key))
    then None
    else find a s.
Proof.
  unfold find at 1. rewrite accounts_delete, <- toHash_eqb.
  destruct (find (key_address key) s) as [account|] eqn:Hfind.
  - rewrite WalletFacts.find_delete, String.eqb_sym. reflexivity.
  - destruct (String.eqb_spec (toHash a) (toHash (key_address key))) as [E|E];
      [|reflexivity].
    unfold find in Hfind. now rewrite E.
Qed.

(** *** [refresh] *)

Arguments getKey : simpl never.

Section Refresh.

Variable env : Env.








(** X23. When [refresh] fails, nothing was persisted and no change was
    announced: the persisted record is the one from before, when
    [refresh] goes on and also after the callbacks that were then still
    waiting have run, under every schedule. *)
Theorem refresh_failure_persists_nothing
    (schedule later : list nat) (s : State) (e : JsError) :
  settlement (refresh env schedule s) = Throws e ->
  cookie (wallet (refresh env schedule s)) = cookie s /\
  cookie_log (wallet (refresh env schedule s)) = cookie_log s /\
  published (wallet (refresh env schedule s)) = published s /\
  cookie (final env later (refresh env schedule s)) = cookie s /\
  cookie_log (final env later (refresh env schedule s)) = cookie_log s /\
  published (final env later (refresh env schedule s)) = published s.
Proof.
  set (P := fun x : State =>
              cookie x = cookie s /\ cookie_log x = cookie_log s /\
              published x = published s).
  assert (forall answer, preserves P (refresh_resume answer)) as Hstep.
  { intros [[data|]|e'] x Hx; [|exact Hx ..].
    unfold refresh_resume, bind, lift, update, refreshed. simpl.
    destruct (activeAccount x) as [act|]; [|exact Hx].
    destruct (String.eqb _ _); exact Hx. }
  unfold final, refresh, and_then, after, update.
  set (s0 := set_queries (queries s + List.length (_accounts s)) s).
  set (waiting := map _ (refresh_queries (_accounts s) (queries s))).
  assert (keeps P of_refresh (await_all env schedule waiting None)) as Hkeeps.
  { apply (keeps_await_all P of_refresh env (of_refresh_keeps P env Hstep)
             (of_refresh_leaves env)).
    apply refresh_queries_of_refresh. }
  destruct (Hkeeps s0) as [Hw Hl]; [repeat split|].
  destruct (await_all env schedule waiting None s0) as [[u|e'] s1 left];
    simpl in *; [discriminate|].
  intros _.
  pose proof (afterwards_kept P of_refresh env (of_refresh_keeps P env Hstep)
                (of_refresh_leaves env) later left s1 Hl Hw)
    as (Hc & Hlog & Hpub).
  destruct Hw as (Hc1 & Hlog1 & Hpub1). repeat split; assumption.
Qed.

End Refresh.


(** The second query fails and is answered first: the callback of the
    first account is still waiting when [refresh] fails. *)
Lemma refresh_failure_persists_nothing_witness :
  let env := mainnet 1 browser_wallet in
  let s := new_Wallet (Some two_accounts_session) in
  cookie (wallet (refresh env [1; 1]%nat s)) = cookie s /\
  cookie_log (wallet (refresh env [1; 1]%nat s)) = cookie_log s /\
  published (wallet (refresh env [1; 1]%nat s)) = published s /\
  cookie (final env [] (refresh env [1; 1]%nat s)) = cookie s /\
  cookie_log (final env [] (refresh env [1; 1]%nat s)) = cookie_log s /\
  published (final env [] (refresh env [1; 1]%nat s)) = published s.
Proof.
  apply (refresh_failure_persists_nothing (mainnet 1 browser_wallet)
           [1; 1]%nat [] (new_Wallet (Some two_accounts_session)) network_down).
  reflexivity.
Defined.

(** The callbacks a failed [refresh] leaves behind still replace the
    entries of the registry, in memory only. *)
Example refresh_failure_does_not_cancel :
  let env := mainnet 1 browser_wallet in
  let s := new_Wallet (Some two_accounts_session) in
  let result := refresh env [1; 1]%nat s in
  settlement result = Throws network_down /\
  unanswered result = [PendingRefresh 0 (address alice)] /\
  map ref (_accounts (wallet result)) = map ref (_accounts s) /\
  map ref (_accounts (final env [] result)) <> map ref (_accounts s) /\
  cookie (final env [] result) = cookie s.
Proof. vm_compute. repeat split. discriminate. Qed.

(** *** [select] then [delete] *)

(** X24. Deleting the account an awaited [select] has just returned,
    under any spelling of its address, unsets the active account and
    removes the account from the registry. *)
Theorem select_then_delete
    (env : Env) (key key' : AccountKey) (s s1 : State) (a : Account) :
  select env key s = (Normal (Some a), s1) ->
  JsString.toLowerCase (key_address key')
    = JsString.toLowerCase (address (fields a)) ->
  activeAccount (delete key' s1) = None /\
  find (address (fields a)) (delete key' s1) = None /\
  active_registered (delete key' s1) = true.
Proof.
  intros Hsel Hsame.
  destruct (select_result env key s s1 a Hsel) as (Hact & Hfind & Hentry & _).
  assert (toHash (key_address key') = getKey a) as Hkey
    by (unfold getKey; now apply toHash_iff).
  assert (find (key_address key') s1 = Some a) as Hfound
    by (unfold find; now rewrite Hkey).
  assert (activeAccount (delete key' s1) = None) as Hnone
    by exact (WalletFacts.delete_same_object key' s1 a Hfound Hact).
  split; [exact Hnone|]. split.
  - unfold find. rewrite accounts_delete, Hfound, WalletFacts.find_delete.
    fold (getKey a). now rewrite Hkey, String.eqb_refl.
  - unfold active_registered. now rewrite Hnone.
Qed.

Lemma select_then_delete_witness :
  let s1 := snd (select (mainnet 99 browser_wallet) bob_key
                        (new_Wallet (Some alice_session))) in
  activeAccount (delete bob_key s1) = None /\
  find (address bob) (delete bob_key s1) = None /\
  active_registered (delete bob_key s1) = true.
Proof.
  apply (select_then_delete (mainnet 99 browser_wallet) bob_key bob_key
           (new_Wallet (Some alice_session)) _ (mkAccount 2 bob));
    reflexivity.
Defined.

(** *** [install] *)

(** What an [install] leaves waiting are steps of an [install]. *)
Lemma install_unanswered
    (env : Env) (walletName : WALLET_NAME) (schedule : list nat) (s : State) :
  Forall of_install (unanswered (install env walletName schedule s)).
Proof.
  apply (keeps_install (fun _ => True)); trivial.
Qed.


Lemma providers_save (x : State) : providers (save x) = providers x.
Proof. unfold save. destruct (is_set _ || _ || _); reflexivity. Qed.

Lemma names_save (x : State) :
  installedProviderNames (save x) = installedProviderNames x.
Proof. now destruct (WalletFacts.save_fields x) as (_ & _ & -> & _). Qed.

Lemma providers_add_resume (answer : completion (option AccountData)) (x : State) :
  providers (snd (add_resume answer x)) = providers x.
Proof.
  unfold add_resume, bind, lift. destruct answer as [[data|]|e]; try reflexivity.
  cbv zeta. cbn [snd]. rewrite providers_save.
  destruct (is_set _); reflexivity.
Qed.

Lemma names_add_resume (answer : completion (option AccountData)) (x : State) :
  installedProviderNames (snd (add_resume answer x)) = installedProviderNames x.
Proof.
  unfold add_resume, bind, lift. destruct answer as [[data|]|e]; try reflexivity.
  cbv zeta. cbn [snd]. rewrite names_save.
  destruct (is_set _); reflexivity.
Qed.

(** What is left waiting when an [install] goes on leaves alone the
    installed names and the provider instances, and persists what it
    changes. *)
Lemma afterwards_names
    (env : Env) (schedule : list nat) (waiting : list Pending) (s : State) :
  Forall of_install waiting ->
  in_sync s ->
  installedProviderNames (afterwards env schedule waiting s)
    = installedProviderNames s /\
  providers (afterwards env schedule waiting s) = providers s /\
  in_sync (afterwards env schedule waiting s).
Proof.
  intros Hkinds Hsync.
  set (Q := fun x : State =>
              installedProviderNames x = installedProviderNames s /\
              providers x = providers s /\ in_sync x).
  assert (forall data x, Q x -> Q (snd (add_resume (Normal (Some data)) x)))
    as Hregistering.
  { intros data x (Hn & Hp & Hs). unfold Q.
    rewrite names_add_resume, providers_add_resume.
    split; [exact Hn|]. split; [exact Hp|]. now apply in_sync_registering. }
  assert (forall a x, Q x -> Q (save (set_activeAccount (Some a) x)))
    as Hactivating.
  { intros a x (Hn & Hp & _). unfold Q. rewrite names_save, providers_save.
    split; [exact Hn|]. split; [exact Hp|]. apply in_sync_save. }
  apply (afterwards_kept Q of_install env
           (of_install_keeps Q Hregistering Hactivating env)
           (of_install_leaves env));
    [exact Hkinds | now repeat split].
Qed.

Lemma in_sync_has_name (name : WALLET_NAME) (s : State) :
  in_sync s -> In name (installedProviderNames s) ->
  exists data, cookie s = Some data /\ In name (data_installedProviderNames data).
Proof.
  intros Hsync Hin. exists (blob s). split; [|exact Hin].
  rewrite Hsync. unfold persisted_form.
  destruct (activeAccount s); [reflexivity|].
  destruct (_accounts s); [|reflexivity].
  destruct (installedProviderNames s); [destruct Hin | reflexivity].
Qed.

Section InstallMore.

Variable env : Env.
Variable walletName : WALLET_NAME.
Variable provider : ProviderInstance.
Hypothesis acquired : provider_factory env walletName = Some provider.

(** X25. When the provider connects and reports no account, [install]
    completes without an error and without any change to the wallet or to
    the persisted record; the name is not marked installed, the provider
    instance stays acquired, and no call is left waiting. *)
Theorem install_without_accounts (schedule : list nat) (s : State) :
  provider_connect provider = Normal tt ->
  provider_getAccounts provider = Normal [] ->
  install env walletName schedule s =
    mkSettled (Normal tt)
              (set_providers (NameSet.add walletName (providers s)) s) [].
Proof.
  intros Hc Hg.
  unfold install, after, addProvider, or_catch, install_try, lift, resolved.
  now rewrite acquired, Hc, Hg.
Qed.



(** X27. When [install] completes for a provider that reported at least
    one account, under whatever schedule, the name is among the installed
    providers, the provider instance is held, and the persisted record is
    the one of the wallet's fields, with the name in it; and all of this
    still holds after what was then left waiting (the [select] nothing
    waits for) has run, under every schedule. *)
Theorem install_completed
    (schedule later : list nat) (s s' : State) (waiting : list Pending)
    (first : AccountKey) (rest : list AccountKey) :
  provider_getAccounts provider = Normal (first :: rest) ->
  install env walletName schedule s = mkSettled (Normal tt) s' waiting ->
  In walletName (installedProviderNames s') /\
  In walletName (providers s') /\
  in_sync s' /\
  (exists data, cookie s' = Some data /\
                In walletName (data_installedProviderNames data)) /\
  In walletName (installedProviderNames (afterwards env later waiting s')) /\
  In walletName (providers (afterwards env later waiting s')) /\
  in_sync (afterwards env later waiting s') /\
  (exists data, cookie (afterwards env later waiting s') = Some data /\
                In walletName (data_installedProviderNames data)).
Proof.
  intros Hg Hinstall.
  pose proof (install_unanswered env walletName schedule s) as Hkinds.
  rewrite Hinstall in Hkinds. cbn [unanswered] in Hkinds.
  set (s0 := set_providers (NameSet.add walletName (providers s)) s) in *.
  set (held := fun x : State => In walletName (providers x)).
  assert (held s0) as Hheld0 by apply NameSet_add_In.
  assert (exists s2,
            held s2 /\
            s' = save (set_installedProviderNames
                         (NameSet.add walletName (installedProviderNames s2)) s2))
    as (s2 & Hheld2 & ->).
  { revert Hinstall.
    unfold install, after, addProvider, or_catch. rewrite acquired. fold s0.
    unfold install_try, after, lift, rejected, and_then, update. rewrite Hg.
    destruct (provider_connect provider) as [[]|e]; [|discriminate].
    cbv zeta.
    destruct (wrong_network env _ _); [discriminate|].
    assert (forall data x, held x -> held (snd (add_resume (Normal (Some data)) x)))
      as Hregistering.
    { intros data x Hx. unfold held. now rewrite providers_add_resume. }
    assert (forall a x, held x -> held (save (set_activeAccount (Some a) x)))
      as Hactivating.
    { intros a x Hx. unfold held. now rewrite providers_save. }
    destruct (keeps_register_accounts held (fun n x Hx => Hx)
                Hregistering Hactivating env schedule
                (hd_error (accountsInNetwork env (first :: rest)))
                (first :: rest) s0 Hheld0) as [Hreg _].
    destruct (register_accounts env schedule _ _ s0) as [[[]|e] s2 pending];
      [|discriminate].
    intros [= <- _]. exists s2. split; [exact Hreg | reflexivity]. }
  set (s3 := set_installedProviderNames _ s2) in *.
  assert (In walletName (installedProviderNames (save s3))) as Hin
    by (rewrite names_save; apply NameSet_add_In).
  assert (In walletName (providers (save s3))) as Hprov
    by (rewrite providers_save; exact Hheld2).
  destruct (afterwards_names env later waiting (save s3) Hkinds (in_sync_save s3))
    as (Hn & Hp & Hsync).
  split; [exact Hin|]. split; [exact Hprov|]. split; [apply in_sync_save|].
  split; [apply in_sync_has_name; [apply in_sync_save | exact Hin]|].
  split; [now rewrite Hn|]. split; [now rewrite Hp|]. split; [exact Hsync|].
  apply in_sync_has_name; [exact Hsync | now rewrite Hn].
Qed.

(** An [install] that fails leaves no trace of the name, when it goes on
    and after what was then left waiting has run: the [add]s it leaves
    behind register their accounts and persist them, without the name. *)
Lemma install_failure_leaves_no_trace
    (schedule later : list nat) (s : State) (e : JsError) :
  settlement (install env walletName schedule s) = Throws e ->
  ~ In walletName
       (installedProviderNames (wallet (install env walletName schedule s))) /\
  ~ In walletName (providers (wallet (install env walletName schedule s))) /\
  in_sync (wallet (install env walletName schedule s)) /\
  ~ In walletName
       (installedProviderNames
          (final env later (install env walletName schedule s))) /\
  ~ In walletName
       (providers (final env later (install env walletName schedule s))) /\
  in_sync (final env later (install env walletName schedule s)).
Proof.
  intros Hthrows.
  pose proof (install_unanswered env walletName schedule s) as Hkinds.
  unfold final. revert Hthrows Hkinds.
  unfold install, after, addProvider, or_catch. rewrite acquired.
  destruct (install_try env walletName provider schedule _) as [[[]|e'] s1 waiting];
    cbn [settlement wallet unanswered]; [discriminate|].
  unfold bind, update, throw. cbn [settlement wallet unanswered].
  intros _ Hkinds.
  destruct (WalletFacts.install_catch_clean walletName s1)
    as (_ & _ & _ & _ & _ & Hn & Hp & Hsync & _).
  destruct (afterwards_names env later waiting (install_catch walletName s1)
              Hkinds Hsync) as (Hn' & Hp' & Hsync').
  split; [exact Hn|]. split; [exact Hp|]. split; [exact Hsync|].
  split; [now rewrite Hn'|]. split; [now rewrite Hp'|]. exact Hsync'.
Qed.

End InstallMore.

Lemma install_without_accounts_witness :
  install (mainnet 99 empty_wallet) "MetaMask" [] (new_Wallet (Some alice_session)) =
    mkSettled (Normal tt)
              (set_providers ["MetaMask"] (new_Wallet (Some alice_session))) [].
Proof.
  apply (install_without_accounts (mainnet 99 empty_wallet) "MetaMask" empty_wallet);
    reflexivity.
Defined.


(** The answers arrive out of order and the [select] is still waiting
    when the install completes. *)
Lemma install_completed_witness :
  let env := mainnet 99 browser_wallet in
  let s' := wallet (install env "MetaMask" [2; 1]%nat (new_Wallet None)) in
  let waiting := [PendingSelect 0 (address alice)] in
  In "MetaMask" (installedProviderNames s') /\
  In "MetaMask" (providers s') /\
  in_sync s' /\
  (exists data, cookie s' = Some data /\
                In "MetaMask" (data_installedProviderNames data)) /\
  In "MetaMask" (installedProviderNames (afterwards env [0; 0]%nat waiting s')) /\
  In "MetaMask" (providers (afterwards env [0; 0]%nat waiting s')) /\
  in_sync (afterwards env [0; 0]%nat waiting s') /\
  (exists data, cookie (afterwards env [0; 0]%nat waiting s') = Some data /\
                In "MetaMask" (data_installedProviderNames data)).
Proof.
  apply (install_completed (mainnet 99 browser_wallet) "MetaMask" browser_wallet
           eq_refl [2; 1]%nat [0; 0]%nat (new_Wallet None) _ _ alice_key [bob_key]);
    [reflexivity | vm_compute; reflexivity].
Defined.

(** *** Routing *)

(** X29. A wallet with no active account never reaches a provider:
    [sign], [signTypedData] and [transact] send the user to the login page
    and throw "Could not find wallet provider matching current account.",
    [switchChain] does the same with "Switching chain is not supported on
    <chain>"; the provider registry is not consulted and nothing is asked
    of any backend. *)
Theorem no_active_account_no_provider
    (findProvider : Address -> completion (option WalletRouting.AnyProvider))
    (s : State)
    (message : string) (options : option Web3EvmProvider.SignOptions)
    (transaction : WalletRouting.TransactionRequest)
    (chainData : Web3EvmProvider.ChainData) (log : Web3EvmProvider.Log) :
  activeAccount s = None ->
  WalletRouting.sign findProvider s message options log
    = WalletRouting.mkRouted (Throws WalletRouting.NO_PROVIDER) log true /\
  WalletRouting.signTypedData findProvider s message options log
    = WalletRouting.mkRouted (Throws WalletRouting.NO_PROVIDER) log true /\
  WalletRouting.transact findProvider s transaction log
    = WalletRouting.mkRouted (Throws WalletRouting.NO_PROVIDER) log true /\
  WalletRouting.switchChain findProvider s chainData log
    = WalletRouting.mkRouted
        (Throws (WalletRouting.SWITCH_NOT_SUPPORTED chainData)) log true.
Proof.
  intros H.
  unfold WalletRouting.sign, WalletRouting.signTypedData, WalletRouting.transact,
         WalletRouting.switchChain, WalletRouting.routed,
         WalletRouting.UNSAFE_getActiveAccountAndProviderOrRedirect,
         WalletRouting.getProviderOrRedirect, WalletRouting.getProvider,
         WalletRouting.getActiveAccountKey.
  rewrite H. repeat split.
Qed.

Lemma no_active_account_no_provider_witness :
  WalletRouting.sign sample_findProvider (new_Wallet None) "hello" None []
    = WalletRouting.mkRouted (Throws WalletRouting.NO_PROVIDER) [] true /\
  WalletRouting.signTypedData sample_findProvider (new_Wallet None) "hello" None []
    = WalletRouting.mkRouted (Throws WalletRouting.NO_PROVIDER) [] true /\
  WalletRouting.transact sample_findProvider (new_Wallet None)
      (WalletRouting.mkTransactionRequest None (Some 1) None) []
    = WalletRouting.mkRouted (Throws WalletRouting.NO_PROVIDER) [] true /\
  WalletRouting.switchChain sample_findProvider (new_Wallet None)
      ProviderSamples.polygon []
    = WalletRouting.mkRouted
        (Throws (WalletRouting.SWITCH_NOT_SUPPORTED ProviderSamples.polygon))
        [] true.
Proof.
  apply (no_active_account_no_provider sample_findProvider (new_Wallet None)).
  reflexivity.
Defined.

(** X30. With an active account and an EVM provider connected to it, the
    wallet's [transact] hands the provider the active account's address,
    as it is stored, for source: the transaction is forwarded when that
    address is the lower-cased form of an address the backend lists and
    refused with "Not connected to account" otherwise; the user is not
    redirected. *)
Theorem transact_routed
    (findProvider : Address -> completion (option WalletRouting.AnyProvider))
    (s : State)
    (active : Account) (evm : Web3EvmProvider.Provider)
    (typedDataHash : string -> completion string)
    (transaction : WalletRouting.TransactionRequest)
    (addresses : list Address) (chain : ChainIdentifier)
    (log log' : Web3EvmProvider.Log) :
  activeAccount s = Some active ->
  findProvider (address (fields active))
    = Normal (Some (WalletRouting.of_Web3EvmProvider evm typedDataHash)) ->
  Web3EvmProvider.eth_getAccounts evm log = Normal addresses ->
  Web3EvmProvider.getChain evm (log ++ [Web3EvmProvider.EvGetAccounts])%list
    = (Normal (Some chain), log') ->
  truthy chain = true ->
  let tx := Web3EvmProvider.mkTxObject (address (fields active))
              (WalletRouting.request_destination transaction)
              (WalletRouting.request_value transaction)
              (WalletRouting.request_data transaction) in
  WalletRouting.transact findProvider s transaction log =
    if existsb (fun a => String.eqb (JsString.toLowerCase a) (address (fields active)))
               addresses
    then WalletRouting.mkRouted
           (Web3EvmProvider.eth_sendTransaction evm log' tx)
           (log' ++ [Web3EvmProvider.EvSendTransaction tx])%list false
    else WalletRouting.mkRouted
           (Throws (Web3EvmProvider.NOT_CONNECTED (address (fields active))))
           log' false.
Proof.
  intros Hactive Hfind Hlist Hchain Htruthy tx.
  unfold WalletRouting.transact, WalletRouting.routed,
         WalletRouting.UNSAFE_getActiveAccountAndProviderOrRedirect,
         WalletRouting.getProviderOrRedirect, WalletRouting.getProvider,
         WalletRouting.getActiveAccountKey.
  rewrite Hactive. simpl. rewrite Hfind. simpl.
  unfold Web3EvmProvider.transact, Web3EvmProvider.bind.
  rewrite (ProviderMoreFacts.getAccounts_mapped evm addresses chain log log'
             Hlist Hchain Htruthy).
  rewrite ProviderMoreFacts.existsb_key_address. simpl.
  destruct (existsb (fun a => String.eqb (JsString.toLowerCase a)
                                         (address (fields active))) addresses);
    reflexivity.
Qed.

Lemma transact_routed_witness :
  WalletRouting.transact sample_findProvider (new_Wallet (Some alice_session))
      (WalletRouting.mkTransactionRequest None (Some 1) None) [] =
    WalletRouting.mkRouted
      (Throws (Web3EvmProvider.NOT_CONNECTED (address alice)))
      [Web3EvmProvider.EvGetAccounts; Web3EvmProvider.EvGetNetwork] false.
Proof.
  exact (transact_routed sample_findProvider (new_Wallet (Some alice_session))
           (mkAccount 1 alice) ProviderSamples.sample_provider
           ProviderMoreSamples.sample_typedDataHash
           (WalletRouting.mkTransactionRequest None (Some 1) None)
           [ProviderSamples.sample_address] "ETHEREUM" []
           [Web3EvmProvider.EvGetAccounts; Web3EvmProvider.EvGetNetwork]
           eq_refl eq_refl eq_refl eq_refl eq_refl).
Defined.

End WalletMoreFacts.
